(** * Kalshi signal dashboard: state engine, ingestion and analytics

    A shallow embedding of the Go packages [state], [signals], [scanner],
    [ingestion] and [alerting], followed by the properties established about
    them.

    Conventions of the embedding:
    - Go's [int], [int64] and [time.Duration] are 64-bit two's complement
      integers. They are represented by [Z]; every arithmetic operation of
      the source is written with its wrap-around ([wrap64]).
    - Go's [float64] is IEEE-754 binary64, represented by the primitive
      floats of the prover, which implement the same format with
      round-to-nearest-even. Products and sums are rounded one operation at
      a time (no fused multiply-add), as the gc compiler does on amd64.
    - [time.Time] is a count of nanoseconds; every call of [time.Now()] in the
      source is an explicit argument of the embedded function.
    - A Go map is a [gmap]; a function returning [(v, ok)] or a nil-able
      pointer returns an [option]. *)

From Stdlib Require Import ZArith Floats Lia Permutation Sorted Ascii String.
From Stdlib Require Import Reals Lra Psatz.
From stdpp Require Import gmap strings list sorting.

Set Warnings "-inexact-float,-abstract-large-number".
Local Open Scope Z_scope.

(** ** Machine integers and floating point *)

Definition int_min : Z := - 2 ^ 63.
Definition int_max : Z := 2 ^ 63 - 1.

(** The value a 64-bit signed register holds after an operation whose exact
    result is [z]. *)
Definition wrap64 (z : Z) : Z := (z + 2 ^ 63) mod 2 ^ 64 - 2 ^ 63.

Definition int_add (a b : Z) : Z := wrap64 (a + b).
Definition int_sub (a b : Z) : Z := wrap64 (a - b).
Definition int_mul (a b : Z) : Z := wrap64 (a * b).
Definition int_neg (a : Z) : Z := wrap64 (- a).

(** [float64(n)] for an integer [n]: the nearest binary64, ties to even. *)
Definition float64_of_int (n : Z) : float :=
  SF2Prim (binary_normalize prec emax n 0 false).

(** [int(f)] for a float [f]: truncation toward zero. When the truncated
    value does not fit (or [f] is an infinity or a NaN) Go leaves the result
    to the implementation; amd64 yields the most negative integer. *)
Definition int_of_float64 (f : float) : Z :=
  match Prim2SF f with
  | S754_zero _ => 0
  | S754_finite s m e =>
      let mag := if 0 <=? e then Z.shiftl (Zpos m) e else Z.shiftr (Zpos m) (- e) in
      let v := if s then - mag else mag in
      if (int_min <=? v) && (v <=? int_max) then v else int_min
  | S754_infinity _ | S754_nan => int_min
  end.

(** Go's [>] on floats. *)
Definition float_gtb (a b : float) : bool := PrimFloat.ltb b a.

(** ** Time *)

Definition Time := Z.
Definition Duration := Z.

Definition Second : Duration := 1000000000.
Definition Minute : Duration := 60 * Second.
Definition Hour : Duration := 60 * Minute.

(** [time.Duration(secs) * time.Second] *)
Definition seconds (secs : Z) : Duration := int_mul secs Second.

(** [t.Add(-d)] *)
Definition time_before (t : Time) (d : Duration) : Time := t + int_neg d.

(** [t.After(cutoff) || t.Equal(cutoff)] *)
Definition not_before (t cutoff : Time) : bool := cutoff <=? t.

(** ** Sorting

    [sort.Slice] promises a sorted permutation and nothing about the order of
    equal keys. The model is the insertion sort that the Go runtime applies
    to short slices: element [i] is swapped leftwards while it is [less] than
    its left neighbour. The sorted prefix is kept reversed, so that the left
    neighbour is the head. *)

Section SortSlice.
Context {A : Type} (less : A -> A -> bool).

Fixpoint sift_left (x : A) (rprefix : list A) : list A :=
  match rprefix with
  | [] => [x]
  | y :: r => if less x y then y :: sift_left x r else x :: y :: r
  end.

Definition sort_Slice (data : list A) : list A :=
  rev (fold_left (fun rprefix x => sift_left x rprefix) data []).

End SortSlice.

(** ** package state: order book *)

Module PriceLevel.
Record t := mk {
  Price : Z;     (* in cents *)
  Quantity : Z
}.
End PriceLevel.

Record KalshiOrderbookFp := {
  YesDollars : list (list string);
  NoDollars : list (list string)
}.

Record KalshiOrderbookResponse := {
  OrderbookFp : KalshiOrderbookFp
}.

Module Orderbook.

Record t := mk {
  MarketTicker : string;
  Bids : list PriceLevel.t;  (* sorted descending by price *)
  Asks : list PriceLevel.t;  (* sorted ascending by price *)
  LastUpdate : Time
}.

Definition NewOrderbook (now : Time) (marketTicker : string) : t :=
  {| MarketTicker := marketTicker; Bids := []; Asks := []; LastUpdate := now |}.

Definition Clone (ob : t) : t :=
  {| MarketTicker := MarketTicker ob; Bids := Bids ob; Asks := Asks ob;
     LastUpdate := LastUpdate ob |}.

Section Parsing.

(** [strconv.ParseFloat(s, 64)] of the Go standard library; [None] is a
    returned error. *)
Variable ParseFloat : string -> option float.

Definition parseDollarToCents (s : string) : option Z :=
  match ParseFloat s with
  | None => None
  | Some f => Some (int_of_float64 (f * 100)%float)
  end.

Definition parseFixedPointCount (s : string) : option Z :=
  match ParseFloat s with
  | None => None
  | Some f => Some (int_of_float64 f)
  end.

(** One iteration of the YES loop: append the level when it has two
    strings and both parse. *)
Definition appendYes (bids : list PriceLevel.t) (level : list string) : list PriceLevel.t :=
  match level with
  | s0 :: s1 :: _ =>
      match parseDollarToCents s0, parseFixedPointCount s1 with
      | Some priceCents, Some qty =>
          bids ++ [ {| PriceLevel.Price := priceCents; PriceLevel.Quantity := qty |} ]
      | _, _ => bids
      end
  | _ => bids
  end.

(** One iteration of the NO loop: a NO bid becomes a YES ask. *)
Definition appendNo (asks : list PriceLevel.t) (level : list string) : list PriceLevel.t :=
  match level with
  | s0 :: s1 :: _ =>
      match parseDollarToCents s0, parseFixedPointCount s1 with
      | Some noPriceCents, Some qty =>
          let yesAskPrice := int_sub 10000 noPriceCents in
          asks ++ [ {| PriceLevel.Price := yesAskPrice; PriceLevel.Quantity := qty |} ]
      | _, _ => asks
      end
  | _ => asks
  end.

Definition UpdateFromKalshi (now : Time) (resp : KalshiOrderbookResponse) (ob : t) : t :=
  let bids := fold_left appendYes (YesDollars (OrderbookFp resp)) [] in
  let asks := fold_left appendNo (NoDollars (OrderbookFp resp)) [] in
  {| MarketTicker := MarketTicker ob;
     Bids := sort_Slice (fun x y => PriceLevel.Price y <? PriceLevel.Price x) bids;
     Asks := sort_Slice (fun x y => PriceLevel.Price x <? PriceLevel.Price y) asks;
     LastUpdate := now |}.

End Parsing.

Definition Spread (ob : t) : option Z :=
  match Bids ob, Asks ob with
  | bid :: _, ask :: _ => Some (int_sub (PriceLevel.Price ask) (PriceLevel.Price bid))
  | _, _ => None
  end.

Definition depth (side : list PriceLevel.t) : Z :=
  fold_left
    (fun depth level => int_add depth (int_mul (PriceLevel.Price level) (PriceLevel.Quantity level)))
    side 0.

Definition BidDepth (ob : t) : Z := depth (Bids ob).
Definition AskDepth (ob : t) : Z := depth (Asks ob).

Definition ImbalanceRatio (ob : t) : float :=
  let bidDepth := float64_of_int (BidDepth ob) in
  let askDepth := float64_of_int (AskDepth ob) in
  let total := (bidDepth + askDepth)%float in
  if PrimFloat.eqb total 0 then 0%float
  else ((bidDepth - askDepth) / total)%float.

Definition Microprice (ob : t) : option float :=
  match Bids ob, Asks ob with
  | bid :: _, ask :: _ =>
      let bestBid := (float64_of_int (PriceLevel.Price bid) / 100)%float in
      let bestAsk := (float64_of_int (PriceLevel.Price ask) / 100)%float in
      let bidQty := float64_of_int (PriceLevel.Quantity bid) in
      let askQty := float64_of_int (PriceLevel.Quantity ask) in
      let totalQty := (bidQty + askQty)%float in
      if PrimFloat.eqb totalQty 0 then Some ((bestBid + bestAsk) / 2)%float
      else Some ((bestBid * askQty + bestAsk * bidQty) / totalQty)%float
  | _, _ => None
  end.

(** Total quantity within [centsFromMid] cents of the mid, per side. *)
Definition DepthAtPrice (centsFromMid : Z) (ob : t) : Z * Z :=
  match Bids ob, Asks ob with
  | bid :: _, ask :: _ =>
      let bestBid := PriceLevel.Price bid in
      let bestAsk := PriceLevel.Price ask in
      let mid := Z.quot (int_add bestBid bestAsk) 2 in
      let bidThreshold := int_sub mid centsFromMid in
      let askThreshold := int_add mid centsFromMid in
      let bidDepth :=
        fold_left
          (fun bidDepth level =>
             if bidThreshold <=? PriceLevel.Price level
             then int_add bidDepth (PriceLevel.Quantity level) else bidDepth)
          (Bids ob) 0 in
      let askDepth :=
        fold_left
          (fun askDepth level =>
             if PriceLevel.Price level <=? askThreshold
             then int_add askDepth (PriceLevel.Quantity level) else askDepth)
          (Asks ob) 0 in
      (bidDepth, askDepth)
  | _, _ => (0, 0)
  end.


End Orderbook.

(** ** package state: trades *)

Definition TradeSide := string.
Definition SideYes : TradeSide := "yes".
Definition SideNo : TradeSide := "no".

Module Trade.
Record t := mk {
  MarketTicker : string;
  Side : TradeSide;
  Price : Z;      (* in cents *)
  Quantity : Z;
  Timestamp : Time
}.
End Trade.

(** Go's [s[len(s)-n:]] for [0 <= n <= len(s)]: the last [n] elements. *)
Definition last_n {A : Type} (n : nat) (s : list A) : list A :=
  drop (length s - n)%nat s.

Module TradeLog.

Record t := mk {
  trades : list Trade.t;
  maxLen : nat    (* set by NewTradeLog only *)
}.

Definition NewTradeLog : t := {| trades := []; maxLen := 1000 |}.

Definition Add (trade : Trade.t) (tl : t) : t :=
  let appended := trades tl ++ [trade] in
  (* keep only the last maxLen trades *)
  if (maxLen tl <? length appended)%nat
  then {| trades := last_n (maxLen tl) appended; maxLen := maxLen tl |}
  else {| trades := appended; maxLen := maxLen tl |}.

Definition GetSince (cutoff : Time) (tl : t) : list Trade.t :=
  fold_left
    (fun result trade =>
       if not_before (Trade.Timestamp trade) cutoff then result ++ [trade] else result)
    (trades tl) [].

End TradeLog.

(** ** package state: markets *)

Definition MarketStatus := string.
Definition StatusInitialized : MarketStatus := "initialized".
Definition StatusInactive : MarketStatus := "inactive".
Definition StatusActive : MarketStatus := "active".
Definition StatusClosed : MarketStatus := "closed".
Definition StatusDetermined : MarketStatus := "determined".
Definition StatusDisputed : MarketStatus := "disputed".
Definition StatusAmended : MarketStatus := "amended".
Definition StatusFinalized : MarketStatus := "finalized".

Module Market.
Record t := mk {
  Ticker : string;
  Title : string;
  Category : string;
  Status : MarketStatus;
  ExpirationTime : option Time;
  EventTicker : string;
  YesSubTitle : string;
  NoSubTitle : string
}.

Definition Clone (m : t) : t :=
  {| Ticker := Ticker m; Title := Title m; Category := Category m;
     Status := Status m; ExpirationTime := ExpirationTime m;
     EventTicker := EventTicker m; YesSubTitle := YesSubTitle m;
     NoSubTitle := NoSubTitle m |}.
End Market.

(** ** package state: time series *)

Module MarketSnapshot.
Record t := mk {
  Timestamp : Time;
  MarketTicker : string;
  BestBid : Z;
  BestAsk : Z;
  MidPrice : float;
  Spread : Z;
  BidDepth : Z;
  AskDepth : Z;
  Imbalance : float;
  Microprice : float;
  TradeCount : nat;
  LastTrade : option Trade.t
}.
End MarketSnapshot.

Module TimeSeriesStore.

(** The signal history of the store is written by [RecordSignal] only,
    which no modelled operation calls; it is left out. *)
Record t := mk {
  snapshots : gmap string (list MarketSnapshot.t);
  trades : gmap string (list Trade.t);
  maxSnapshotsPerMarket : nat;
  maxTradesPerMarket : nat;
  maxSignalsPerMarket : nat
}.

Definition NewTimeSeriesStore : t :=
  {| snapshots := ∅; trades := ∅;
     maxSnapshotsPerMarket := 10000;
     maxTradesPerMarket := 10000;
     maxSignalsPerMarket := 10000 |}.

(** The snapshot [RecordSnapshot] builds once both sides are known to be
    non-empty. *)
Definition makeSnapshot (now : Time) (ticker : string) (orderbook : Orderbook.t)
    (bid ask : PriceLevel.t) (trades : list Trade.t) : MarketSnapshot.t :=
  let bestBid := PriceLevel.Price bid in
  let bestAsk := PriceLevel.Price ask in
  let midPrice := (float64_of_int (int_add bestBid bestAsk) / 200)%float in
  let spread := int_sub bestAsk bestBid in
  let microprice := default 0%float (Orderbook.Microprice orderbook) in
  let micropriceProb := (microprice * 100)%float in
  {| MarketSnapshot.Timestamp := now;
     MarketSnapshot.MarketTicker := ticker;
     MarketSnapshot.BestBid := bestBid;
     MarketSnapshot.BestAsk := bestAsk;
     MarketSnapshot.MidPrice := midPrice;
     MarketSnapshot.Spread := spread;
     MarketSnapshot.BidDepth := Orderbook.BidDepth orderbook;
     MarketSnapshot.AskDepth := Orderbook.AskDepth orderbook;
     MarketSnapshot.Imbalance := Orderbook.ImbalanceRatio orderbook;
     MarketSnapshot.Microprice := micropriceProb;
     MarketSnapshot.TradeCount := length trades;
     MarketSnapshot.LastTrade := last trades |}.

Definition RecordSnapshot (now : Time) (ticker : string) (orderbook : Orderbook.t)
    (recent : list Trade.t) (ts : t) : t :=
  match Orderbook.Bids orderbook, Orderbook.Asks orderbook with
  | bid :: _, ask :: _ =>
      let snapshot := makeSnapshot now ticker orderbook bid ask recent in
      let appended := default [] (snapshots ts !! ticker) ++ [snapshot] in
      let kept :=
        if (maxSnapshotsPerMarket ts <? length appended)%nat
        then last_n (maxSnapshotsPerMarket ts) appended
        else appended in
      {| snapshots := <[ticker := kept]> (snapshots ts);
         trades := trades ts;
         maxSnapshotsPerMarket := maxSnapshotsPerMarket ts;
         maxTradesPerMarket := maxTradesPerMarket ts;
         maxSignalsPerMarket := maxSignalsPerMarket ts |}
  | _, _ => ts
  end.

Definition RecordTrade (ticker : string) (trade : Trade.t) (ts : t) : t :=
  let appended := default [] (trades ts !! ticker) ++ [trade] in
  let kept :=
    if (maxTradesPerMarket ts <? length appended)%nat
    then last_n (maxTradesPerMarket ts) appended
    else appended in
  {| snapshots := snapshots ts;
     trades := <[ticker := kept]> (trades ts);
     maxSnapshotsPerMarket := maxSnapshotsPerMarket ts;
     maxTradesPerMarket := maxTradesPerMarket ts;
     maxSignalsPerMarket := maxSignalsPerMarket ts |}.

Definition GetSnapshots (ticker : string) (since : Time) (ts : t) : list MarketSnapshot.t :=
  fold_left
    (fun filtered s =>
       if not_before (MarketSnapshot.Timestamp s) since then filtered ++ [s] else filtered)
    (default [] (snapshots ts !! ticker)) [].

Definition GetTrades (ticker : string) (since : Time) (ts : t) : list Trade.t :=
  fold_left
    (fun filtered t =>
       if not_before (Trade.Timestamp t) since then filtered ++ [t] else filtered)
    (default [] (trades ts !! ticker)) [].

(** The change of the mid price between the oldest and the newest snapshot
    of the window; [None] with fewer than two snapshots. *)
Definition GetPriceChange (now : Time) (ticker : string) (window : Duration) (ts : t)
    : option float :=
  let since := time_before now window in
  match GetSnapshots ticker since ts with
  | oldest :: second :: rest =>
      let newest := List.last (second :: rest) oldest in
      Some (MarketSnapshot.MidPrice newest - MarketSnapshot.MidPrice oldest)%float
  | _ => None
  end.


End TimeSeriesStore.

(** ** package state: the engine *)

Module Engine.

Record t := mk {
  markets : gmap string Market.t;
  orderbooks : gmap string Orderbook.t;
  tradeLogs : gmap string TradeLog.t;
  timeSeries : TimeSeriesStore.t
}.

Definition NewEngine : t :=
  {| markets := ∅; orderbooks := ∅; tradeLogs := ∅;
     timeSeries := TimeSeriesStore.NewTimeSeriesStore |}.

(** [now] is read by [NewOrderbook], that is only when the ticker has no
    book yet. *)
Definition RegisterMarket (now : Time) (market : Market.t) (e : t) : t :=
  let ticker := Market.Ticker market in
  {| markets := <[ticker := market]> (markets e);
     orderbooks :=
       match orderbooks e !! ticker with
       | Some _ => orderbooks e
       | None => <[ticker := Orderbook.NewOrderbook now ticker]> (orderbooks e)
       end;
     tradeLogs := tradeLogs e;
     timeSeries := timeSeries e |}.

Definition GetRecentTrades (now : Time) (ticker : string) (window : Duration) (e : t)
    : list Trade.t :=
  match tradeLogs e !! ticker with
  | None => []
  | Some log => TradeLog.GetSince (time_before now window) log
  end.

(** [now_trades] is the clock read by [GetRecentTrades], [now_snapshot] the
    one read by [RecordSnapshot]. *)
Definition UpdateOrderbook (now_trades now_snapshot : Time) (ticker : string)
    (orderbook : Orderbook.t) (e : t) : t :=
  let e1 :=
    {| markets := markets e;
       orderbooks := <[ticker := orderbook]> (orderbooks e);
       tradeLogs := tradeLogs e;
       timeSeries := timeSeries e |} in
  let trades := GetRecentTrades now_trades ticker (int_mul 5 Minute) e1 in
  {| markets := markets e1;
     orderbooks := orderbooks e1;
     tradeLogs := tradeLogs e1;
     timeSeries :=
       TimeSeriesStore.RecordSnapshot now_snapshot ticker orderbook trades (timeSeries e1) |}.

Definition AddTrade (trade : Trade.t) (e : t) : t :=
  let ticker := Trade.MarketTicker trade in
  let log := default TradeLog.NewTradeLog (tradeLogs e !! ticker) in
  {| markets := markets e;
     orderbooks := orderbooks e;
     tradeLogs := <[ticker := TradeLog.Add trade log]> (tradeLogs e);
     timeSeries := TimeSeriesStore.RecordTrade ticker trade (timeSeries e) |}.

Definition GetOrderbook (ticker : string) (e : t) : option Orderbook.t :=
  Orderbook.Clone <$> orderbooks e !! ticker.

Definition GetMarket (ticker : string) (e : t) : option Market.t :=
  Market.Clone <$> markets e !! ticker.

(** Go ranges over the map in an unspecified order; [map_to_list] is one of
    them. Callers that depend on the result take the returned slice as an
    argument, so that their properties hold for every order. *)
Definition GetAllMarkets (e : t) : list Market.t :=
  (fun kv => Market.Clone kv.2) <$> map_to_list (markets e).

End Engine.

(** ** Go's [math] and [time] helpers used by package signals *)

(** [math.Min], [math.Max], with their special cases. *)
Definition math_Min (x y : float) : float :=
  if PrimFloat.eqb x neg_infinity || PrimFloat.eqb y neg_infinity then neg_infinity
  else if is_nan x || is_nan y then nan
  else if PrimFloat.eqb x 0 && PrimFloat.eqb x y then (if get_sign x then x else y)
  else if PrimFloat.ltb x y then x else y.

Definition math_Max (x y : float) : float :=
  if PrimFloat.eqb x infinity || PrimFloat.eqb y infinity then infinity
  else if is_nan x || is_nan y then nan
  else if PrimFloat.eqb x 0 && PrimFloat.eqb x y then (if get_sign x then y else x)
  else if float_gtb x y then x else y.

(** [d.Minutes()] and [d.Hours()] *)
Definition Duration_Minutes (d : Duration) : float :=
  (float64_of_int (Z.quot d Minute) + float64_of_int (Z.rem d Minute) / 60e9)%float.

Definition Duration_Hours (d : Duration) : float :=
  (float64_of_int (Z.quot d Hour) + float64_of_int (Z.rem d Hour) / 3600e9)%float.

(** [t.Sub(u)]: the difference, saturated to the range of a Duration. *)
Definition time_Sub (t u : Time) : Duration :=
  Z.max int_min (Z.min int_max (t - u)).

(** ** package signals: signal records *)

Definition SignalType := string.
Definition SignalTypeImpliedProbabilityDrift : SignalType := "implied_probability_drift".
Definition SignalTypeOrderbookImbalance : SignalType := "orderbook_imbalance".
Definition SignalTypeVolumeSurge : SignalType := "volume_surge".

Module SignalMetadata.
Record t := mk {
  PreviousValue : option float;
  ThresholdCrossed : bool;
  Confidence : float
}.
End SignalMetadata.

Record ImpliedProbabilityDriftData := {
  Delta : float;
  drift_WindowSecs : Z
}.

Record OrderbookImbalanceData := {
  BidRatio : float;
  SpreadCents : Z
}.

Record VolumeSurgeData := {
  VolumeMultiplier : float;
  surge_WindowSecs : Z
}.

Module Signal.
Record t := mk {
  MarketTicker : string;
  Type_ : SignalType;
  Value : float;
  Timestamp : Time;
  Metadata : SignalMetadata.t;
  ImpliedProbabilityDrift : option ImpliedProbabilityDriftData;
  OrderbookImbalance : option OrderbookImbalanceData;
  VolumeSurge : option VolumeSurgeData
}.
End Signal.

(** package config *)
Record SignalConfig := {
  ComputationIntervalSecs : Z;
  DriftWindowSecs : Z;
  DriftThreshold : float;
  ImbalanceThreshold : float;
  VolumeSurgeThreshold : float;
  VolumeWindowSecs : Z
}.

(** ** package signals: the quantitative bundle *)

Module QuantitativeSignal.
Record t := mk {
  MarketTicker : string;
  Timestamp : Time;
  EfficiencyScore : float;
  PriceVolatility : float;
  InformationFlow : float;
  CalibrationError : float;
  ExpectedValue : float;
  HistoricalMean : float;
  BidAskSpread : float;
  LiquidityScore : float;
  MarketDepth : Z;
  TimeToEvent : float;
  EventVolatility : float;
  PreEventSignal : bool;
  SharpeRatio : float;
  ZScore : float;
  TrendStrength : float
}.
End QuantitativeSignal.

Definition float_len {A : Type} (s : list A) : float :=
  float64_of_int (Z.of_nat (length s)).

Definition trade_prob (t : Trade.t) : float :=
  (float64_of_int (Trade.Price t) / 100)%float.

Definition getBestBid (ob : Orderbook.t) : option float :=
  match Orderbook.Bids ob with
  | [] => None
  | bid :: _ => Some (float64_of_int (PriceLevel.Price bid))
  end.

Definition getBestAsk (ob : Orderbook.t) : option float :=
  match Orderbook.Asks ob with
  | [] => None
  | ask :: _ => Some (float64_of_int (PriceLevel.Price ask))
  end.

Definition computeLiquidityScore (ob : Orderbook.t) (spread : float) : float :=
  let depth := float64_of_int (int_add (Orderbook.BidDepth ob) (Orderbook.AskDepth ob)) in
  let depthScore := math_Min 1 (depth / 10000)%float in
  let spreadScore := math_Max 0 (1 - spread / 100)%float in
  (depthScore * 0.6 + spreadScore * 0.4)%float.

Definition computeMean (trades : list Trade.t) : float :=
  match trades with
  | [] => 0%float
  | _ =>
      let sum := fold_left (fun sum t => (sum + trade_prob t)%float) trades 0%float in
      (sum / float_len trades)%float
  end.

Definition computeVolatility (trades : list Trade.t) : float :=
  if (length trades <? 2)%nat then 0%float
  else
    let prices := map trade_prob trades in
    let mean := computeMean trades in
    let variance :=
      fold_left (fun variance p => (variance + (p - mean) * (p - mean))%float) prices 0%float in
    PrimFloat.sqrt (variance / float_len prices)%float.

Definition computeZScore (current mean stdDev : float) : float :=
  if PrimFloat.eqb stdDev 0 then 0%float else ((current - mean) / stdDev)%float.

(** The four running sums of the regression loop; [i] is the loop index. *)
Fixpoint regressionSums (i : Z) (trades : list Trade.t) (acc : float * float * float * float)
    : float * float * float * float :=
  match trades with
  | [] => acc
  | t :: rest =>
      let '(sumX, sumY, sumXY, sumX2) := acc in
      let x := float64_of_int i in
      let y := trade_prob t in
      regressionSums (i + 1) rest
        ((sumX + x)%float, (sumY + y)%float, (sumXY + x * y)%float, (sumX2 + x * x)%float)
  end.

Definition computeTrendStrength (trades : list Trade.t) : float :=
  if (length trades <? 3)%nat then 0%float
  else
    let n := float_len trades in
    let '(sumX, sumY, sumXY, sumX2) := regressionSums 0 trades (0, 0, 0, 0)%float in
    let slope := ((n * sumXY - sumX * sumY) / (n * sumX2 - sumX * sumX))%float in
    math_Min 1 (PrimFloat.abs slope * 10)%float.

Definition filterRecentTrades (now : Time) (trades : list Trade.t) (window : Duration)
    : list Trade.t :=
  let cutoff := time_before now window in
  fold_left
    (fun recent t => if cutoff <? Trade.Timestamp t then recent ++ [t] else recent)
    trades [].

(** [now_stamp], [now_filter] and [now_event] are the three clock readings
    of the body, in source order. *)
Definition ComputeQuantitativeSignals (now_stamp now_filter now_event : Time)
    (ticker : string) (orderbook : option Orderbook.t) (trades : list Trade.t)
    (expirationTime : option Time) : option QuantitativeSignal.t :=
  match orderbook with
  | None => None
  | Some ob =>
      match getBestBid ob, getBestAsk ob with
      | Some bestBid, Some bestAsk =>
          let midPrice := ((bestBid + bestAsk) / 2)%float in
          let spread := (bestAsk - bestBid)%float in
          let expectedValue := (midPrice / 100)%float in
          let marketDepth := int_add (Orderbook.BidDepth ob) (Orderbook.AskDepth ob) in
          let liquidityScore := computeLiquidityScore ob spread in
          let many := (1 <? length trades)%nat in
          let priceVolatility := if many then computeVolatility trades else 0%float in
          let historicalMean := if many then computeMean trades else 0%float in
          let zScore :=
            if many then computeZScore (midPrice / 100)%float historicalMean priceVolatility
            else 0%float in
          let trendStrength := if many then computeTrendStrength trades else 0%float in
          let efficiencyScore :=
            if float_gtb priceVolatility 0
            then math_Min 1 ((spread / 100) / priceVolatility)%float
            else 1%float in
          let informationFlow :=
            if (0 <? length trades)%nat
            then
              let timeWindow := int_mul 5 Minute in
              let recentTrades := filterRecentTrades now_filter trades timeWindow in
              (float_len recentTrades / Duration_Minutes timeWindow)%float
            else 0%float in
          let calibrationError :=
            if float_gtb historicalMean 0
            then PrimFloat.abs (expectedValue - historicalMean)%float
            else 0%float in
          let '(timeToEventHours, eventVolatility, preEventSignal) :=
            match expirationTime with
            | None => (0%float, 0%float, false)
            | Some expiry =>
                let timeToEvent := time_Sub expiry now_event in
                if timeToEvent <? int_mul 24 Hour
                then (Duration_Hours timeToEvent, (priceVolatility * 1.5)%float, true)
                else (Duration_Hours timeToEvent, priceVolatility, false)
            end in
          let sharpeRatio :=
            if float_gtb priceVolatility 0
            then ((expectedValue - historicalMean) / priceVolatility)%float
            else 0%float in
          Some {| QuantitativeSignal.MarketTicker := ticker;
                  QuantitativeSignal.Timestamp := now_stamp;
                  QuantitativeSignal.EfficiencyScore := efficiencyScore;
                  QuantitativeSignal.PriceVolatility := priceVolatility;
                  QuantitativeSignal.InformationFlow := informationFlow;
                  QuantitativeSignal.CalibrationError := calibrationError;
                  QuantitativeSignal.ExpectedValue := expectedValue;
                  QuantitativeSignal.HistoricalMean := historicalMean;
                  QuantitativeSignal.BidAskSpread := spread;
                  QuantitativeSignal.LiquidityScore := liquidityScore;
                  QuantitativeSignal.MarketDepth := marketDepth;
                  QuantitativeSignal.TimeToEvent := timeToEventHours;
                  QuantitativeSignal.EventVolatility := eventVolatility;
                  QuantitativeSignal.PreEventSignal := preEventSignal;
                  QuantitativeSignal.SharpeRatio := sharpeRatio;
                  QuantitativeSignal.ZScore := zScore;
                  QuantitativeSignal.TrendStrength := trendStrength |}
      | _, _ => None
      end
  end.

(** ** package signals: the processor *)

Module Processor.

Definition abs (x : float) : float :=
  if PrimFloat.ltb x 0 then (- x)%float else x.

Definition min (a b : float) : float :=
  if PrimFloat.ltb a b then a else b.

(** Ten Newton steps from the initial guess [x]. *)
Definition sqrt (x : float) : float :=
  if PrimFloat.eqb x 0 then 0%float
  else Nat.iter 10 (fun guess => ((guess + x / guess) / 2)%float) x.

Section WithConfig.
Variable config : SignalConfig.
Variable state : Engine.t.

Definition computeOrderbookImbalance (now : Time) (ticker : string) (orderbook : Orderbook.t)
    : option Signal.t :=
  let imbalanceRatio := Orderbook.ImbalanceRatio orderbook in
  match Orderbook.Spread orderbook with
  | None => None
  | Some spread =>
      let thresholdCrossed := float_gtb (abs imbalanceRatio) (ImbalanceThreshold config) in
      if thresholdCrossed then
        Some {| Signal.MarketTicker := ticker;
                Signal.Type_ := SignalTypeOrderbookImbalance;
                Signal.Value := imbalanceRatio;
                Signal.Timestamp := now;
                Signal.Metadata :=
                  {| SignalMetadata.PreviousValue := None;
                     SignalMetadata.ThresholdCrossed := true;
                     SignalMetadata.Confidence :=
                       min (abs imbalanceRatio / ImbalanceThreshold config)%float 1 |};
                Signal.ImpliedProbabilityDrift := None;
                Signal.OrderbookImbalance :=
                  Some {| BidRatio := imbalanceRatio; SpreadCents := spread |};
                Signal.VolumeSurge := None |}
      else None
  end.

Definition computeImpliedProbabilityDrift (now_trades now_stamp : Time) (ticker : string)
    (orderbook : Orderbook.t) : option Signal.t :=
  match Orderbook.Bids orderbook, Orderbook.Asks orderbook with
  | bid :: _, ask :: _ =>
      let bestBid := (float64_of_int (PriceLevel.Price bid) / 100)%float in
      let bestAsk := (float64_of_int (PriceLevel.Price ask) / 100)%float in
      let currentProb := ((bestBid + bestAsk) / 2)%float in
      let window := seconds (DriftWindowSecs config) in
      let trades := Engine.GetRecentTrades now_trades ticker window state in
      match trades with
      | [] => None
      | _ =>
          let sumProb := fold_left (fun sumProb trade => (sumProb + trade_prob trade)%float)
                           trades 0%float in
          let avgProb := (sumProb / float_len trades)%float in
          let variance :=
            fold_left
              (fun variance trade =>
                 let prob := trade_prob trade in
                 (variance + (prob - avgProb) * (prob - avgProb))%float)
              trades 0%float in
          let variance := (variance / float_len trades)%float in
          let stdDev := sqrt variance in
          if PrimFloat.eqb stdDev 0 then None
          else
            let drift := ((currentProb - avgProb) / stdDev)%float in
            let thresholdCrossed := float_gtb (abs drift) (DriftThreshold config) in
            if thresholdCrossed then
              Some {| Signal.MarketTicker := ticker;
                      Signal.Type_ := SignalTypeImpliedProbabilityDrift;
                      Signal.Value := drift;
                      Signal.Timestamp := now_stamp;
                      Signal.Metadata :=
                        {| SignalMetadata.PreviousValue := Some avgProb;
                           SignalMetadata.ThresholdCrossed := true;
                           SignalMetadata.Confidence :=
                             min (abs drift / DriftThreshold config)%float 1 |};
                      Signal.ImpliedProbabilityDrift :=
                        Some {| Delta := (currentProb - avgProb)%float;
                                drift_WindowSecs := DriftWindowSecs config |};
                      Signal.OrderbookImbalance := None;
                      Signal.VolumeSurge := None |}
            else None
      end
  | _, _ => None
  end.

(** [recentVolume += trade.Quantity] over a slice of trades. *)
Definition volume (trades : list Trade.t) : Z :=
  fold_left (fun volume trade => int_add volume (Trade.Quantity trade)) trades 0.

(** [now_recent] and [now_baseline] are the clocks read by the two calls of
    [GetRecentTrades], [now_stamp] the one that stamps the signal. *)
Definition detectVolumeSurge (now_recent now_baseline now_stamp : Time) (ticker : string)
    : option Signal.t :=
  let window := seconds (VolumeWindowSecs config) in
  let recentTrades := Engine.GetRecentTrades now_recent ticker window state in
  match recentTrades with
  | [] => None
  | _ =>
      let recentVolume := volume recentTrades in
      (* baseline volume from a window five times as long *)
      let baselineWindow := seconds (int_mul (VolumeWindowSecs config) 5) in
      let baselineTrades := Engine.GetRecentTrades now_baseline ticker baselineWindow state in
      if (length baselineTrades <? 2)%nat then None
      else
        let baselineVolume := volume baselineTrades in
        let baselineAvg := (float64_of_int baselineVolume / 5)%float in
        if PrimFloat.eqb baselineAvg 0 then None
        else
          let surgeRatio := (float64_of_int recentVolume / baselineAvg)%float in
          let thresholdCrossed := float_gtb surgeRatio (VolumeSurgeThreshold config) in
          if thresholdCrossed then
            Some {| Signal.MarketTicker := ticker;
                    Signal.Type_ := SignalTypeVolumeSurge;
                    Signal.Value := surgeRatio;
                    Signal.Timestamp := now_stamp;
                    Signal.Metadata :=
                      {| SignalMetadata.PreviousValue := Some baselineAvg;
                         SignalMetadata.ThresholdCrossed := true;
                         SignalMetadata.Confidence :=
                           min (surgeRatio / VolumeSurgeThreshold config)%float 1 |};
                    Signal.ImpliedProbabilityDrift := None;
                    Signal.OrderbookImbalance := None;
                    Signal.VolumeSurge :=
                      Some {| VolumeMultiplier := surgeRatio;
                              surge_WindowSecs := VolumeWindowSecs config |} |}
          else None
  end.

(** The quantitative bundle of one market, converted to a regular signal:
    the last block of the loop body of [computeSignals]. The metadata
    literal sets [Confidence] only. *)
Definition quantitativeSignal (now_trades now_stamp now_filter now_event : Time)
    (market : Market.t) (orderbook : Orderbook.t) : option Signal.t :=
  let trades := Engine.GetRecentTrades now_trades (Market.Ticker market) (int_mul 5 Minute) state in
  match ComputeQuantitativeSignals now_stamp now_filter now_event (Market.Ticker market)
          (Some orderbook) trades (Market.ExpirationTime market) with
  | None => None
  | Some quantSig =>
      Some {| Signal.MarketTicker := Market.Ticker market;
              Signal.Type_ := SignalTypeOrderbookImbalance;   (* used as base type *)
              Signal.Value := QuantitativeSignal.LiquidityScore quantSig;
              Signal.Timestamp := QuantitativeSignal.Timestamp quantSig;
              Signal.Metadata :=
                {| SignalMetadata.PreviousValue := None;
                   SignalMetadata.ThresholdCrossed := false;
                   SignalMetadata.Confidence := QuantitativeSignal.EfficiencyScore quantSig |};
              Signal.ImpliedProbabilityDrift := None;
              Signal.OrderbookImbalance := None;
              Signal.VolumeSurge := None |}
  end.

(** What one iteration of the loop of [computeSignals] offers to the signal
    channel, in order. [clock k] is the k-th reading of the clock during the
    iteration. *)
Definition marketSignals (clock : nat -> Time) (market : Market.t) : list Signal.t :=
  if negb (String.eqb (Market.Status market) StatusActive) then []
  else
    match Engine.GetOrderbook (Market.Ticker market) state with
    | None => []
    | Some orderbook =>
        option_list (computeOrderbookImbalance (clock 0%nat) (Market.Ticker market) orderbook)
        ++ option_list (computeImpliedProbabilityDrift (clock 1%nat) (clock 2%nat)
                          (Market.Ticker market) orderbook)
        ++ option_list (detectVolumeSurge (clock 3%nat) (clock 4%nat) (clock 5%nat)
                          (Market.Ticker market))
        ++ option_list (quantitativeSignal (clock 6%nat) (clock 7%nat) (clock 8%nat)
                          (clock 9%nat) market orderbook)
    end.

End WithConfig.

(** A non-blocking send on a channel of the given capacity: the signal is
    dropped when the buffer is full. *)
Definition trySend (capacity : nat) (buffer : list Signal.t) (signal : Signal.t)
    : list Signal.t :=
  if (length buffer <? capacity)%nat then buffer ++ [signal] else buffer.

(** One tick. [markets] is the slice returned by [GetAllMarkets]; the
    [i]-th market reads the clock through [clock i]. The result is the
    channel buffer after the tick when no consumer runs in between. *)
Definition computeSignals (config : SignalConfig) (state : Engine.t)
    (clock : nat -> nat -> Time) (capacity : nat) (markets : list Market.t)
    (buffer : list Signal.t) : list Signal.t :=
  fold_left
    (fun buffer im => fold_left (trySend capacity) (marketSignals config state (clock im.1) im.2) buffer)
    (imap (fun i m => (i, m)) markets) buffer.

End Processor.

(** ** package scanner: the no-arbitrage detector *)

Module NoArbViolation.
Record t := mk {
  EventTicker : string;
  Markets : list string;
  SumBuyPrice : float;        (* cost to buy all outcomes *)
  SumSellPrice : float;       (* revenue from selling all outcomes *)
  NetArb : float;             (* net profit after the cost model *)
  EstimatedFees : float;
  EstimatedSlippage : float;
  Liquidity : Z;              (* min available size *)
  Timestamp : Time;
  Actionable : bool
}.
End NoArbViolation.

Module NoArbEngine.

(** [markets] is the slice returned by [GetAllMarkets]. *)
Definition GroupMarketsByEvent (markets : list Market.t) : gmap string (list string) :=
  fold_left
    (fun groups market =>
       if negb (String.eqb (Market.Status market) StatusActive) then groups
       else
         let eventTicker := Market.EventTicker market in
         if String.eqb eventTicker "" then groups
         else <[eventTicker := default [] (groups !! eventTicker) ++ [Market.Ticker market]]> groups)
    markets ∅.

(** The first loop of [checkEventGroup]: the running sums and the running
    minimum, or [None] as soon as a member has no two-sided book. *)
Fixpoint scanGroup (state : Engine.t) (marketTickers : list string)
    (acc : float * float * Z) : option (float * float * Z) :=
  match marketTickers with
  | [] => Some acc
  | ticker :: rest =>
      let '(sumBuyPrice, sumSellPrice, minLiquidity) := acc in
      match Engine.GetOrderbook ticker state with
      | None => None
      | Some orderbook =>
          match Orderbook.Bids orderbook, Orderbook.Asks orderbook with
          | bid :: _, ask :: _ =>
              let bestAsk := (float64_of_int (PriceLevel.Price ask) / 100)%float in
              let bestBid := (float64_of_int (PriceLevel.Price bid) / 100)%float in
              let bidDepth := PriceLevel.Quantity bid in
              let askDepth := PriceLevel.Quantity ask in
              let minLiquidity := if bidDepth <? minLiquidity then bidDepth else minLiquidity in
              let minLiquidity := if askDepth <? minLiquidity then askDepth else minLiquidity in
              scanGroup state rest
                ((sumBuyPrice + bestAsk)%float, (sumSellPrice + bestBid)%float, minLiquidity)
          | _, _ => None
          end
      end
  end.

Definition checkEventGroup (now : Time) (state : Engine.t) (eventTicker : string)
    (marketTickers : list string) : option NoArbViolation.t :=
  match scanGroup state marketTickers (0%float, 0%float, 1000000) with
  | None => None
  | Some (sumBuyPrice, sumSellPrice, minLiquidity) =>
      let members := float_len marketTickers in
      let gross :=
        if PrimFloat.ltb sumBuyPrice 1 then Some (1 - sumBuyPrice)%float
        else if float_gtb sumSellPrice 1 then Some (sumSellPrice - 1)%float
        else None in
      match gross with
      | None => None   (* no arbitrage *)
      | Some netArb =>
          let estimatedFees :=
            if float_gtb sumSellPrice 1 then (sumSellPrice * 0.05 * members)%float
            else (sumBuyPrice * 0.05 * members)%float in
          let estimatedSlippage := (0.01 * members)%float in
          let netArbAfterCosts := (netArb - estimatedFees - estimatedSlippage)%float in
          let actionable := float_gtb netArbAfterCosts 0.02 && (10 <=? minLiquidity) in
          Some {| NoArbViolation.EventTicker := eventTicker;
                  NoArbViolation.Markets := marketTickers;
                  NoArbViolation.SumBuyPrice := sumBuyPrice;
                  NoArbViolation.SumSellPrice := sumSellPrice;
                  NoArbViolation.NetArb := netArbAfterCosts;
                  NoArbViolation.EstimatedFees := estimatedFees;
                  NoArbViolation.EstimatedSlippage := estimatedSlippage;
                  NoArbViolation.Liquidity := minLiquidity;
                  NoArbViolation.Timestamp := now;
                  NoArbViolation.Actionable := actionable |}
      end
  end.

(** [clock eventTicker] is the clock read while the group of [eventTicker]
    is checked. Go ranges over [groups] in an unspecified order, which is
    also the order of the result. *)
Definition CheckNoArbViolations (clock : string -> Time) (state : Engine.t)
    (markets : list Market.t) : list NoArbViolation.t :=
  let groups := GroupMarketsByEvent markets in
  fold_left
    (fun violations group =>
       let '(eventTicker, marketTickers) := group in
       if (length marketTickers <? 2)%nat then violations
       else
         match checkEventGroup (clock eventTicker) state eventTicker marketTickers with
         | Some violation => violations ++ [violation]
         | None => violations
         end)
    (map_to_list groups) [].

End NoArbEngine.

(** ** package ingestion: the stream handler *)

Module WebSocketHandler.

Record t := mk {
  url : string;
  reconnectDelay : Duration
}.

(** package config *)
Record IngestionConfig := {
  WebSocketReconnectDelaySecs : Z;
  RESTPollIntervalSecs : Z;
  RateLimitPerSecond : Z
}.

Definition NewWebSocketHandler (webSocketURL : string) (ingestionCfg : IngestionConfig) : t :=
  {| url := webSocketURL;
     reconnectDelay := seconds (WebSocketReconnectDelaySecs ingestionCfg) |}.

(** How one call of [connectAndListen] ends: the dial fails, or the
    connection is established and later ends (with or without an error).
    [Cancelled] is the context being done inside the call. *)
Inductive Attempt :=
  | DialFailed
  | ConnectedThenClosed (withError : bool)
  | ConnectedThenCancelled.

(** The handler after the call, and whether the context is done. *)
Definition connectAndListen (a : Attempt) (w : t) : t * bool :=
  match a with
  | DialFailed => (w, false)
  | ConnectedThenClosed _ =>
      (* reset delay on successful connection *)
      ({| url := url w; reconnectDelay := seconds 5 |}, false)
  | ConnectedThenCancelled =>
      ({| url := url w; reconnectDelay := seconds 5 |}, true)
  end.

Definition maxDelay : Duration := int_mul 60 Second.

(** The loop of [Run] from the local variable [delay] on. Each element of
    [attempts] drives one iteration; the context is done when the list is
    exhausted. The result is the handler and the delays slept, in order. *)
Fixpoint runLoop (attempts : list Attempt) (delay : Duration) (w : t) : t * list Duration :=
  match attempts with
  | [] => (w, [])
  | a :: rest =>
      let '(w1, done) := connectAndListen a w in
      if done then (w1, [])
      else
        (* wait before reconnecting, then exponential backoff, max 60 seconds *)
        let doubled := int_mul delay 2 in
        let next := if maxDelay <? doubled then maxDelay else doubled in
        let '(w2, slept) := runLoop rest next w1 in
        (w2, delay :: slept)
  end.

Definition Run (attempts : list Attempt) (w : t) : t * list Duration :=
  let delay := reconnectDelay w in
  runLoop attempts delay w.

End WebSocketHandler.

(** ** package alerting: the dispatcher *)

Module Manager.

(** package config *)
Record AlertingConfig := {
  Enabled : bool;
  SlackWebhookURL : string;
  DiscordWebhookURL : string;
  AlertCooldownSecs : Z
}.

Inductive Sink := Slack | Discord.

Record t := mk {
  config : AlertingConfig;
  slackClient : option string;     (* the webhook URL of the client *)
  discordClient : option string;
  cooldown : gmap string Time
}.

Definition NewManager (cfg : AlertingConfig) : t :=
  {| config := cfg;
     slackClient :=
       if String.eqb (SlackWebhookURL cfg) "" then None else Some (SlackWebhookURL cfg);
     discordClient :=
       if String.eqb (DiscordWebhookURL cfg) "" then None else Some (DiscordWebhookURL cfg);
     cooldown := ∅ |}.

Section Formatting.

(** The text built by [formatSignalMessage] with [fmt.Sprintf]. *)
Variable formatSignalMessage : Signal.t -> string.

(** The manager after the call and the webhook deliveries it started.
    [now_check] is the clock read by [time.Since], [now_mark] the one
    stored in the cool-down map. *)
Definition handleSignal (now_check now_mark : Time) (signal : Signal.t) (m : t)
    : t * list (Sink * string) :=
  let key := (Signal.MarketTicker signal +:+ Signal.Type_ signal)%string in
  let inCooldown :=
    match cooldown m !! key with
    | Some lastAlert =>
        let cooldownDuration := seconds (AlertCooldownSecs (config m)) in
        time_Sub now_check lastAlert <? cooldownDuration
    | None => false
    end in
  if inCooldown then (m, [])
  else
    let m' := {| config := config m; slackClient := slackClient m;
                 discordClient := discordClient m;
                 cooldown := <[key := now_mark]> (cooldown m) |} in
    let message := formatSignalMessage signal in
    (m',
     match slackClient m with Some _ => [(Slack, message)] | None => [] end
     ++ match discordClient m with Some _ => [(Discord, message)] | None => [] end).

(** One receive of the loop of [Run]. *)
Definition receive (now_check now_mark : Time) (signal : Signal.t) (m : t)
    : t * list (Sink * string) :=
  if SignalMetadata.ThresholdCrossed (Signal.Metadata signal)
  then handleSignal now_check now_mark signal m
  else (m, []).

(** [Run] over the signals received until the context is done, each with
    the two clock readings of its handling. *)
Fixpoint runLoop (received : list (Time * Time * Signal.t)) (m : t)
    : t * list (Sink * string) :=
  match received with
  | [] => (m, [])
  | (now_check, now_mark, signal) :: rest =>
      let '(m1, sent1) := receive now_check now_mark signal m in
      let '(m2, sent2) := runLoop rest m1 in
      (m2, sent1 ++ sent2)
  end.

Definition Run (received : list (Time * Time * Signal.t)) (m : t)
    : t * list (Sink * string) :=
  if negb (Enabled (config m)) then (m, [])
  else runLoop received m.

End Formatting.

End Manager.


(** ** package scanner: opportunities *)

(** [d.Seconds()] *)
Definition Duration_Seconds (d : Duration) : float :=
  (float64_of_int (Z.quot d Second) + float64_of_int (Z.rem d Second) / 1e9)%float.

Module MarketOpportunity.
Record t := mk {
  MarketTicker : string;
  Title : string;
  Status : string;
  BestBid : Z;
  BestAsk : Z;
  MidPrice : float;
  Spread : Z;
  SpreadPercent : float;
  BidDepth : Z;
  AskDepth : Z;
  DepthAtTop5 : Z;
  LiquidityScore : float;
  RecentTrades : nat;
  LastTradePrice : option Z;
  LastTradeTime : option Time;
  TradeIntensity : float;
  Volatility30s : float;
  PriceChange30s : float;
  Imbalance : float;
  Microprice : float;
  MicropriceDiff : float;
  LastUpdate : Time;
  Staleness : float;
  BookStale : bool;
  EstimatedSlippage100 : Z;
  CanExecute100 : bool
}.
End MarketOpportunity.

Module Scanner.

(** The walk over the bids of [estimateSlippage]: what remains to fill and
    the cost so far. The loop stops at the first level reached with nothing
    left to fill. *)
Fixpoint walkBids (bids : list PriceLevel.t) (remaining totalCost : Z) : Z * Z :=
  match bids with
  | [] => (remaining, totalCost)
  | level :: rest =>
      if remaining <=? 0 then (remaining, totalCost)
      else
        let fillQty :=
          if PriceLevel.Quantity level <? remaining then PriceLevel.Quantity level
          else remaining in
        walkBids rest (int_sub remaining fillQty)
          (int_add totalCost (int_mul (PriceLevel.Price level) fillQty))
  end.

(** Slippage in cents for selling [quantity] contracts into the bids.
    [None] is the run-time panic of indexing an empty side. *)
Definition estimateSlippage (orderbook : Orderbook.t) (quantity : Z) : option Z :=
  let '(remaining, totalCost) := walkBids (Orderbook.Bids orderbook) quantity 0 in
  if 0 <? remaining then Some 10000   (* not enough depth *)
  else
    match Orderbook.Bids orderbook, Orderbook.Asks orderbook with
    | bid :: _, ask :: _ =>
        let avgPrice := (float64_of_int totalCost / float64_of_int quantity)%float in
        let midPrice :=
          (float64_of_int (int_add (PriceLevel.Price bid) (PriceLevel.Price ask)) / 2)%float in
        let slippage := int_of_float64 (avgPrice - midPrice)%float in
        Some (if slippage <? 0 then int_neg slippage else slippage)
    | _, _ => None
    end.

(** [now_staleness] and [now_stale] are the clocks read by the two calls of
    [time.Since], [now_trades] the one read by [GetRecentTrades] and
    [now_change] the one read by [GetPriceChange]. *)
Definition analyzeMarket (state : Engine.t)
    (now_staleness now_stale now_trades now_change : Time)
    (ticker title status : string) : option MarketOpportunity.t :=
  match Engine.GetOrderbook ticker state with
  | None => None
  | Some orderbook =>
      match Orderbook.Bids orderbook, Orderbook.Asks orderbook with
      | bid :: _, ask :: _ =>
          let staleness := Duration_Seconds (time_Sub now_staleness (Orderbook.LastUpdate orderbook)) in
          let bookStale := int_mul 5 Second <? time_Sub now_stale (Orderbook.LastUpdate orderbook) in
          let bestBid := PriceLevel.Price bid in
          let bestAsk := PriceLevel.Price ask in
          let midPrice := (float64_of_int (int_add bestBid bestAsk) / 200)%float in
          let spread := int_sub bestAsk bestBid in
          let spreadPercent := (float64_of_int spread / 100)%float in
          let '(bidDepth5, askDepth5) := Orderbook.DepthAtPrice 5 orderbook in
          let depthAtTop5 := int_add bidDepth5 askDepth5 in
          let spreadScore := (1 - float64_of_int spread / 100)%float in
          let spreadScore := if PrimFloat.ltb spreadScore 0 then 0%float else spreadScore in
          let depthScore := (float64_of_int depthAtTop5 / 1000)%float in
          let depthScore := if float_gtb depthScore 1 then 1%float else depthScore in
          let liquidityScore := (spreadScore * 0.6 + depthScore * 0.4)%float in
          let '(microprice, micropriceDiff) :=
            match Orderbook.Microprice orderbook with
            | Some m => ((m * 100)%float, (m * 100 - midPrice)%float)
            | None => (0%float, 0%float)
            end in
          let recentTrades := Engine.GetRecentTrades now_trades ticker (int_mul 30 Second) state in
          let priceChange :=
            TimeSeriesStore.GetPriceChange now_change ticker (int_mul 30 Second)
              (Engine.timeSeries state) in
          match estimateSlippage orderbook 100 with
          | None => None   (* a panic; both sides are non-empty here *)
          | Some slippage100 =>
              Some {| MarketOpportunity.MarketTicker := ticker;
                      MarketOpportunity.Title := title;
                      MarketOpportunity.Status := status;
                      MarketOpportunity.BestBid := bestBid;
                      MarketOpportunity.BestAsk := bestAsk;
                      MarketOpportunity.MidPrice := midPrice;
                      MarketOpportunity.Spread := spread;
                      MarketOpportunity.SpreadPercent := spreadPercent;
                      MarketOpportunity.BidDepth := Orderbook.BidDepth orderbook;
                      MarketOpportunity.AskDepth := Orderbook.AskDepth orderbook;
                      MarketOpportunity.DepthAtTop5 := depthAtTop5;
                      MarketOpportunity.LiquidityScore := liquidityScore;
                      MarketOpportunity.RecentTrades := length recentTrades;
                      MarketOpportunity.LastTradePrice := Trade.Price <$> last recentTrades;
                      MarketOpportunity.LastTradeTime := Trade.Timestamp <$> last recentTrades;
                      MarketOpportunity.TradeIntensity :=
                        match recentTrades with
                        | [] => 0%float
                        | _ => (float_len recentTrades / 0.5)%float
                        end;
                      MarketOpportunity.Volatility30s := default 0%float priceChange;
                      MarketOpportunity.PriceChange30s := default 0%float priceChange;
                      MarketOpportunity.Imbalance := Orderbook.ImbalanceRatio orderbook;
                      MarketOpportunity.Microprice := microprice;
                      MarketOpportunity.MicropriceDiff := micropriceDiff;
                      MarketOpportunity.LastUpdate := Orderbook.LastUpdate orderbook;
                      MarketOpportunity.Staleness := staleness;
                      MarketOpportunity.BookStale := bookStale;
                      MarketOpportunity.EstimatedSlippage100 := slippage100;
                      MarketOpportunity.CanExecute100 := (100 <=? depthAtTop5) && (spread <? 50) |}
          end
      | _, _ => None
      end
  end.

(** [markets] is the slice returned by [GetAllMarkets]; the [i]-th market
    reads the clock through [clock i]. *)
Definition ScanMarkets (state : Engine.t) (clock : nat -> nat -> Time)
    (markets : list Market.t) : list MarketOpportunity.t :=
  let opportunities :=
    fold_left
      (fun opportunities im =>
         let market : Market.t := im.2 in
         if negb (String.eqb (Market.Status market) StatusActive) then opportunities
         else
           match analyzeMarket state (clock im.1 0%nat) (clock im.1 1%nat) (clock im.1 2%nat)
                   (clock im.1 3%nat) (Market.Ticker market) (Market.Title market)
                   (Market.Status market) with
           | Some opp => opportunities ++ [opp]
           | None => opportunities
           end)
      (imap (fun i m => (i, m)) markets) [] in
  (* sort by liquidity score, best first *)
  sort_Slice
    (fun x y => float_gtb (MarketOpportunity.LiquidityScore x) (MarketOpportunity.LiquidityScore y))
    opportunities.

End Scanner.


(** ** package alerts *)

Definition AlertType := string.
Definition AlertTypeSpreadTightened : AlertType := "spread_tightened".
Definition AlertTypeDepthIncreased : AlertType := "depth_increased".
Definition AlertTypeImbalancePressure : AlertType := "imbalance_pressure".
Definition AlertTypeNoArbViolation : AlertType := "no_arb_violation".
Definition AlertTypeExecutionReady : AlertType := "execution_ready".
Definition AlertTypePriceDrift : AlertType := "price_drift".

(** A value of the [Inputs] map of an alert. *)
Inductive InputValue :=
  | InputFloat (f : float)
  | InputInt (n : Z).

Module Alert.
Record t := mk {
  ID : string;
  Type_ : AlertType;
  MarketTicker : string;
  Title : string;
  Timestamp : Time;
  Reason : string;
  Inputs : gmap string InputValue;
  Threshold : float;
  CurrentValue : float;
  Suggestion : string;
  Action : string;
  Confidence : float;
  HitRate : float;
  SampleSize : Z;
  EstimatedEdge : float;
  EstimatedSlippage : float;
  CanExecute : bool;
  RecommendedSize : Z;
  TimeToExpiry : float;
  CurrentExposure : float
}.
End Alert.

Module AlertStats.
Record t := mk {
  HitRate : float;
  SampleSize : Z;
  AvgMove : float;
  Confidence : float
}.
End AlertStats.

Module BacktestHarness.

Record t := mk {
  stats : gmap string AlertStats.t   (* alert_type_market -> stats *)
}.

Definition NewBacktestHarness : t := {| stats := ∅ |}.

Definition statsKey (alertType : AlertType) (marketTicker : string) : string :=
  (alertType +:+ "_" +:+ marketTicker)%string.

(** (confidence, hitRate, sampleSize) *)
Definition GetAlertStats (marketTicker : string) (alertType : AlertType) (b : t)
    : float * float * Z :=
  match stats b !! statsKey alertType marketTicker with
  | None => (0.3%float, 0%float, 0)   (* no historical data yet *)
  | Some s => (AlertStats.Confidence s, AlertStats.HitRate s, AlertStats.SampleSize s)
  end.

(** The zero value of a snapshot. *)
Definition zeroSnapshot : MarketSnapshot.t :=
  {| MarketSnapshot.Timestamp := 0; MarketSnapshot.MarketTicker := "";
     MarketSnapshot.BestBid := 0; MarketSnapshot.BestAsk := 0;
     MarketSnapshot.MidPrice := 0; MarketSnapshot.Spread := 0;
     MarketSnapshot.BidDepth := 0; MarketSnapshot.AskDepth := 0;
     MarketSnapshot.Imbalance := 0; MarketSnapshot.Microprice := 0;
     MarketSnapshot.TradeCount := 0; MarketSnapshot.LastTrade := None |}.

(** The first snapshot strictly after [t], or the zero value. *)
Fixpoint firstAfter (t : Time) (snapshots : list MarketSnapshot.t) : MarketSnapshot.t :=
  match snapshots with
  | [] => zeroSnapshot
  | snap :: rest => if t <? MarketSnapshot.Timestamp snap then snap else firstAfter t rest
  end.

Definition isHit (alert : Alert.t) (priceMove : float) : bool :=
  if String.eqb (Alert.Type_ alert) AlertTypeImbalancePressure then
    if String.eqb (Alert.Action alert) "buy" && float_gtb priceMove 0.5 then true
    else String.eqb (Alert.Action alert) "sell" && PrimFloat.ltb priceMove (-0.5)
  else if String.eqb (Alert.Type_ alert) AlertTypeSpreadTightened
          || String.eqb (Alert.Type_ alert) AlertTypeDepthIncreased
          || String.eqb (Alert.Type_ alert) AlertTypeExecutionReady then
    float_gtb (PrimFloat.abs priceMove) 0.1
  else if String.eqb (Alert.Type_ alert) AlertTypeNoArbViolation then
    float_gtb (Alert.EstimatedEdge alert) (Alert.EstimatedSlippage alert)
  else float_gtb (PrimFloat.abs priceMove) 0.5.

Definition noStats : AlertStats.t :=
  {| AlertStats.HitRate := 0; AlertStats.SampleSize := 0; AlertStats.AvgMove := 0;
     AlertStats.Confidence := 0 |}.

(** The harness after the call and the returned stats. *)
Definition BacktestAlert (timeSeries : TimeSeriesStore.t) (alert : Alert.t)
    (lookbackWindow : Duration) (b : t) : t * AlertStats.t :=
  let beforeTime := time_before (Alert.Timestamp alert) lookbackWindow in
  let afterTime := Alert.Timestamp alert + lookbackWindow in
  let beforeSnapshots :=
    TimeSeriesStore.GetSnapshots (Alert.MarketTicker alert) beforeTime timeSeries in
  let afterSnapshots :=
    TimeSeriesStore.GetSnapshots (Alert.MarketTicker alert) afterTime timeSeries in
  match last beforeSnapshots, afterSnapshots with
  | Some beforeSnapshot, _ :: _ =>
      let afterSnapshot := firstAfter (Alert.Timestamp alert) afterSnapshots in
      if String.eqb (MarketSnapshot.MarketTicker afterSnapshot) "" then (b, noStats)
      else
        let priceMove :=
          (MarketSnapshot.MidPrice afterSnapshot - MarketSnapshot.MidPrice beforeSnapshot)%float in
        let hit := isHit alert priceMove in
        let key := statsKey (Alert.Type_ alert) (Alert.MarketTicker alert) in
        let old := default noStats (stats b !! key) in
        let sampleSize := int_add (AlertStats.SampleSize old) 1 in
        let previous := float64_of_int (int_sub sampleSize 1) in
        let hitRate :=
          if hit then ((AlertStats.HitRate old * previous + 1) / float64_of_int sampleSize)%float
          else ((AlertStats.HitRate old * previous) / float64_of_int sampleSize)%float in
        let avgMove :=
          ((AlertStats.AvgMove old * previous + priceMove) / float64_of_int sampleSize)%float in
        let confidence :=
          if sampleSize <? 10 then (hitRate * 0.5)%float
          else if sampleSize <? 50 then (hitRate * 0.75)%float
          else hitRate in
        let new := {| AlertStats.HitRate := hitRate; AlertStats.SampleSize := sampleSize;
                      AlertStats.AvgMove := avgMove; AlertStats.Confidence := confidence |} in
        ({| stats := <[key := new]> (stats b) |}, new)
  | _, _ => (b, noStats)
  end.

End BacktestHarness.

Module AlertEngine.

Record t := mk {
  backtest : BacktestHarness.t;
  alertHistory : gmap string (list Alert.t)   (* market_ticker -> alerts *)
}.

Definition NewEngine : t :=
  {| backtest := BacktestHarness.NewBacktestHarness; alertHistory := ∅ |}.

Definition absFloat (x : float) : float :=
  if PrimFloat.ltb x 0 then (- x)%float else x.

Section Formatting.

(** [t.Format("20060102150405")] and [FormatViolation], both built by the
    Go standard library's formatting. *)
Variable formatStamp : Time -> string.
Variable FormatViolation : NoArbViolation.t -> string.

Definition generateAlertID (now : Time) (marketTicker : string) (alertType : AlertType)
    : string :=
  (marketTicker +:+ "_" +:+ alertType +:+ "_" +:+ formatStamp now)%string.

(** The alert literal of the four market rules before the statistics are
    filled in; [now_id] is the clock read by [generateAlertID]. *)
Definition marketAlert (now_id now_stamp : Time) (opp : MarketOpportunity.t)
    (alertType : AlertType) (reason : string) (inputs : gmap string InputValue)
    (threshold currentValue : float) (suggestion action : string)
    (canExecute : bool) (estimatedSlippage : float) (recommendedSize : Z)
    (b : BacktestHarness.t) : Alert.t :=
  let '(confidence, hitRate, sampleSize) :=
    BacktestHarness.GetAlertStats (MarketOpportunity.MarketTicker opp) alertType b in
  {| Alert.ID := generateAlertID now_id (MarketOpportunity.MarketTicker opp) alertType;
     Alert.Type_ := alertType;
     Alert.MarketTicker := MarketOpportunity.MarketTicker opp;
     Alert.Title := MarketOpportunity.Title opp;
     Alert.Timestamp := now_stamp;
     Alert.Reason := reason;
     Alert.Inputs := inputs;
     Alert.Threshold := threshold;
     Alert.CurrentValue := currentValue;
     Alert.Suggestion := suggestion;
     Alert.Action := action;
     Alert.Confidence := confidence;
     Alert.HitRate := hitRate;
     Alert.SampleSize := sampleSize;
     Alert.EstimatedEdge := 0;
     Alert.EstimatedSlippage := estimatedSlippage;
     Alert.CanExecute := canExecute;
     Alert.RecommendedSize := recommendedSize;
     Alert.TimeToExpiry := 0;
     Alert.CurrentExposure := 0 |}.

(** [clock k] is the k-th reading of the clock during the call. *)
Definition checkMarketAlerts (clock : nat -> Time) (opp : MarketOpportunity.t)
    (b : BacktestHarness.t) : list Alert.t :=
  let slippage := (float64_of_int (MarketOpportunity.EstimatedSlippage100 opp) / 100)%float in
  (* 1. spread tightened *)
  (if PrimFloat.ltb (MarketOpportunity.SpreadPercent opp) 0.5
      && float_gtb (MarketOpportunity.SpreadPercent opp) 0
   then [marketAlert (clock 0%nat) (clock 1%nat) opp AlertTypeSpreadTightened
           "Spread tightened below 0.5%"
           {["spread_percent" := InputFloat (MarketOpportunity.SpreadPercent opp)]}
           0.5 (MarketOpportunity.SpreadPercent opp)
           "Liquidity improved: easier to enter/exit" "watch"
           (MarketOpportunity.CanExecute100 opp) slippage 0 b]
   else [])
  (* 2. depth increased *)
  ++ (if 500 <? MarketOpportunity.DepthAtTop5 opp
      then [marketAlert (clock 2%nat) (clock 3%nat) opp AlertTypeDepthIncreased
              "Depth at top-5 levels exceeds 500 contracts"
              {["depth_at_top5" := InputInt (MarketOpportunity.DepthAtTop5 opp)]}
              500 (float64_of_int (MarketOpportunity.DepthAtTop5 opp))
              "High liquidity: can execute larger size" "watch"
              true 0 (Z.quot (MarketOpportunity.DepthAtTop5 opp) 2) b]
      else [])
  (* 3. imbalance pressure *)
  ++ (if float_gtb (absFloat (MarketOpportunity.Imbalance opp)) 0.6
         && float_gtb (absFloat (MarketOpportunity.MicropriceDiff opp)) 1
      then
        let direction :=
          if PrimFloat.ltb (MarketOpportunity.Imbalance opp) 0 then "sell" else "buy" in
        [marketAlert (clock 4%nat) (clock 5%nat) opp AlertTypeImbalancePressure
           "Strong orderbook imbalance detected with price lag"
           (<["microprice_diff" := InputFloat (MarketOpportunity.MicropriceDiff opp)]>
              {["imbalance" := InputFloat (MarketOpportunity.Imbalance opp)]})
           0.6 (absFloat (MarketOpportunity.Imbalance opp))
           "Pressure detected: watch for price movement" direction
           (MarketOpportunity.CanExecute100 opp) slippage 0 b]
      else [])
  (* 4. execution ready *)
  ++ (if float_gtb (MarketOpportunity.LiquidityScore opp) 0.7
         && PrimFloat.ltb (MarketOpportunity.SpreadPercent opp) 1
         && MarketOpportunity.CanExecute100 opp
      then [marketAlert (clock 6%nat) (clock 7%nat) opp AlertTypeExecutionReady
              "Optimal execution conditions: tight spread + good depth"
              (<["spread_percent" := InputFloat (MarketOpportunity.SpreadPercent opp)]>
                 {["liquidity_score" := InputFloat (MarketOpportunity.LiquidityScore opp)]})
              0.7 (MarketOpportunity.LiquidityScore opp)
              "Good entry/exit conditions" "watch"
              true slippage 100 b]
      else []).

Definition createNoArbAlert (now_id now_stamp : Time) (violation : NoArbViolation.t)
    (b : BacktestHarness.t) : Alert.t :=
  let '(confidence, hitRate, sampleSize) :=
    BacktestHarness.GetAlertStats (NoArbViolation.EventTicker violation)
      AlertTypeNoArbViolation b in
  {| Alert.ID :=
       generateAlertID now_id (NoArbViolation.EventTicker violation) AlertTypeNoArbViolation;
     Alert.Type_ := AlertTypeNoArbViolation;
     Alert.MarketTicker := NoArbViolation.EventTicker violation;
     Alert.Title := FormatViolation violation;
     Alert.Timestamp := now_stamp;
     Alert.Reason := "Arbitrage opportunity detected";
     Alert.Inputs :=
       <["net_arb" := InputFloat (NoArbViolation.NetArb violation)]>
         (<["sum_sell_price" := InputFloat (NoArbViolation.SumSellPrice violation)]>
            {["sum_buy_price" := InputFloat (NoArbViolation.SumBuyPrice violation)]});
     Alert.Threshold := 0.02;
     Alert.CurrentValue := NoArbViolation.NetArb violation;
     Alert.Suggestion := "Systematic arbitrage: execute if liquidity sufficient";
     Alert.Action := "buy";
     Alert.Confidence := confidence;
     Alert.HitRate := hitRate;
     Alert.SampleSize := sampleSize;
     Alert.EstimatedEdge := (NoArbViolation.NetArb violation * 100)%float;
     Alert.EstimatedSlippage := (NoArbViolation.EstimatedSlippage violation * 100)%float;
     Alert.CanExecute := 10 <=? NoArbViolation.Liquidity violation;
     Alert.RecommendedSize := NoArbViolation.Liquidity violation;
     Alert.TimeToExpiry := 0;
     Alert.CurrentExposure := 0 |}.

(** The alerts of one check, before they are stored: those of every
    opportunity, then those of the actionable violations. The [i]-th
    opportunity reads the clock through [oppClock i], the [j]-th violation
    through [arbClock j]. *)
Definition newAlerts (oppClock arbClock : nat -> nat -> Time)
    (opportunities : list MarketOpportunity.t) (violations : list NoArbViolation.t)
    (b : BacktestHarness.t) : list Alert.t :=
  fold_left
    (fun alerts jv =>
       let violation : NoArbViolation.t := jv.2 in
       if NoArbViolation.Actionable violation
       then alerts ++ [createNoArbAlert (arbClock jv.1 0%nat) (arbClock jv.1 1%nat) violation b]
       else alerts)
    (imap (fun j v => (j, v)) violations)
    (fold_left
       (fun alerts io => alerts ++ checkMarketAlerts (oppClock io.1) io.2 b)
       (imap (fun i o => (i, o)) opportunities) []).

Definition storeAlerts (alerts : list Alert.t) (history : gmap string (list Alert.t))
    : gmap string (list Alert.t) :=
  fold_left
    (fun history alert =>
       <[Alert.MarketTicker alert :=
           default [] (history !! Alert.MarketTicker alert) ++ [alert]]> history)
    alerts history.

(** [scanMarkets] and [arbMarkets] are the slices returned by the two calls
    of [GetAllMarkets]; the remaining clocks are those of the scanner and of
    the no-arbitrage detector. *)
Definition CheckAlerts (state : Engine.t)
    (scanClock : nat -> nat -> Time) (scanMarkets : list Market.t)
    (groupClock : string -> Time) (arbMarkets : list Market.t)
    (oppClock arbClock : nat -> nat -> Time) (e : t) : t * list Alert.t :=
  let opportunities := Scanner.ScanMarkets state scanClock scanMarkets in
  let violations := NoArbEngine.CheckNoArbViolations groupClock state arbMarkets in
  let alerts := newAlerts oppClock arbClock opportunities violations (backtest e) in
  ({| backtest := backtest e; alertHistory := storeAlerts alerts (alertHistory e) |}, alerts).

End Formatting.

End AlertEngine.


(** ** package ingestion: stream frames and the REST poll *)

(** A value decoded by [encoding/json] into [interface{}]. *)
#[warnings="-register-all"] Inductive JSON :=
  | JNull
  | JBool (b : bool)
  | JNumber (f : float)
  | JString (s : string)
  | JArray (items : list JSON)
  | JObject (fields : gmap string JSON).

Definition parseMarketStatus (s : string) : MarketStatus :=
  if String.eqb s "initialized" then StatusInitialized
  else if String.eqb s "inactive" then StatusInactive
  else if String.eqb s "active" then StatusActive
  else if String.eqb s "closed" then StatusClosed
  else if String.eqb s "determined" then StatusDetermined
  else if String.eqb s "disputed" then StatusDisputed
  else if String.eqb s "amended" then StatusAmended
  else if String.eqb s "finalized" then StatusFinalized
  else StatusInactive.

Module Stream.

Section Handlers.

Variable ParseFloat : string -> option float.

(** [fmt.Sprintf("%.4f", f)] *)
Variable formatFloat4 : float -> string.

(** The strings of one level: string items as they are, numbers
    formatted, anything else dropped. *)
Definition levelStrings (arr : list JSON) : list string :=
  fold_left
    (fun level v =>
       match v with
       | JString s => level ++ [s]
       | JNumber f => level ++ [formatFloat4 f]
       | _ => level
       end)
    arr [].

Definition convertToOrderbookLevels (data : list JSON) : list (list string) :=
  fold_left
    (fun result item =>
       match item with
       | JArray arr =>
           let level := levelStrings arr in
           if (2 <=? length level)%nat then result ++ [level] else result
       | _ => result
       end)
    data [].

(** [v.([]interface{})] with the result discarded on failure. *)
Definition asArray (v : option JSON) : list JSON :=
  match v with
  | Some (JArray items) => items
  | _ => []
  end.

(** [now_new], [now_update], [now_trades] and [now_snapshot] are the clocks
    read by [NewOrderbook], [UpdateFromKalshi] and the two reads of
    [UpdateOrderbook]. *)
Definition handleOrderbookUpdate (now_new now_update now_trades now_snapshot : Time)
    (msg : gmap string JSON) (state : Engine.t) : Engine.t :=
  match msg !! "ticker" with
  | Some (JString ticker) =>
      match msg !! "orderbook_fp" with
      | Some (JObject orderbookData) =>
          let yesDollars := asArray (orderbookData !! "yes_dollars") in
          let noDollars := asArray (orderbookData !! "no_dollars") in
          let orderbook := Orderbook.NewOrderbook now_new ticker in
          let orderbookResp :=
            {| OrderbookFp :=
                 {| YesDollars := convertToOrderbookLevels yesDollars;
                    NoDollars := convertToOrderbookLevels noDollars |} |} in
          let orderbook := Orderbook.UpdateFromKalshi ParseFloat now_update orderbookResp orderbook in
          Engine.UpdateOrderbook now_trades now_snapshot ticker orderbook state
      | _ => state
      end
  | _ => state
  end.

(** [v.(float64)] and [v.(string)] with the zero value on failure. *)
Definition asNumber (v : option JSON) : float :=
  match v with
  | Some (JNumber f) => f
  | _ => 0%float
  end.

Definition asString (v : option JSON) : string :=
  match v with
  | Some (JString s) => s
  | _ => ""
  end.

Definition handleTradeUpdate (now : Time) (msg : gmap string JSON) (state : Engine.t)
    : Engine.t :=
  match msg !! "ticker" with
  | Some (JString ticker) =>
      let price := asNumber (msg !! "price") in
      let quantity := asNumber (msg !! "count") in
      let side := asString (msg !! "side") in
      let trade :=
        {| Trade.MarketTicker := ticker;
           Trade.Side := if String.eqb side "yes" then SideYes else SideNo;
           Trade.Price := int_of_float64 (price * 100)%float;   (* to cents *)
           Trade.Quantity := int_of_float64 quantity;
           Trade.Timestamp := now |} in
      Engine.AddTrade trade state
  | _ => state
  end.

(** [decoded] is the result of [json.Unmarshal] on the frame, [None] when it
    fails. [clock k] is the k-th reading of the clock. *)
Definition handleMessage (clock : nat -> Time) (decoded : option (gmap string JSON))
    (state : Engine.t) : Engine.t :=
  match decoded with
  | None => state
  | Some msg =>
      match msg !! "type" with
      | Some (JString msgType) =>
          if String.eqb msgType "orderbook" || String.eqb msgType "orderbook_update" then
            handleOrderbookUpdate (clock 0%nat) (clock 1%nat) (clock 2%nat) (clock 3%nat) msg state
          else if String.eqb msgType "trade" || String.eqb msgType "trade_update" then
            handleTradeUpdate (clock 0%nat) msg state
          else state   (* unknown message type, ignore *)
      | _ => state
      end
  end.

(** The loop of [fetchAllOrderbooks]. [markets] is the slice returned by
    [GetAllMarkets]; [fetch i] is the outcome of the REST request made for
    the [i]-th market, [None] when it fails. *)
Definition fetchAllOrderbooks (clock : nat -> nat -> Time)
    (fetch : nat -> option KalshiOrderbookResponse)
    (markets : list Market.t) (state : Engine.t) : Engine.t :=
  fold_left
    (fun state im =>
       let market : Market.t := im.2 in
       if negb (String.eqb (Market.Status market) StatusActive) then state
       else
         match fetch im.1 with
         | None => state
         | Some orderbook =>
             let ob := Orderbook.NewOrderbook (clock im.1 0%nat) (Market.Ticker market) in
             let ob := Orderbook.UpdateFromKalshi ParseFloat (clock im.1 1%nat) orderbook ob in
             Engine.UpdateOrderbook (clock im.1 2%nat) (clock im.1 3%nat)
               (Market.Ticker market) ob state
         end)
    (imap (fun i m => (i, m)) markets) state.

End Handlers.

End Stream.

(** ** package api: the rolling windows of the server *)

Module Server.

Record t := mk {
  signals : list Signal.t;
  alerts : list Alert.t
}.

(** One receive of [collectSignals]. *)
Definition collectSignal (signal : Signal.t) (s : t) : t :=
  let appended := signals s ++ [signal] in
  {| signals := if (1000 <? length appended)%nat then last_n 1000 appended else appended;
     alerts := alerts s |}.

(** One tick of [collectAlerts] that produced [newAlerts]. *)
Definition collectAlerts (newAlerts : list Alert.t) (s : t) : t :=
  match newAlerts with
  | [] => s
  | _ =>
      let appended := alerts s ++ newAlerts in
      {| signals := signals s;
         alerts := if (1000 <? length appended)%nat then last_n 1000 appended else appended |}
  end.

(** The slice that [getSignals] encodes. [limit] is the outcome of
    [parseInt] on the limit parameter: [None] when the parameter is empty or
    does not parse. *)
Definition getSignals (marketTicker signalType : string) (limit : option Z) (s : t)
    : list Signal.t :=
  let filtered :=
    fold_left
      (fun filtered sig =>
         if negb (String.eqb marketTicker "")
            && negb (String.eqb (Signal.MarketTicker sig) marketTicker) then filtered
         else if negb (String.eqb signalType "")
                 && negb (String.eqb (Signal.Type_ sig) signalType) then filtered
         else filtered ++ [sig])
      (signals s) [] in
  let limit :=
    match limit with
    | Some l =>
        if 0 <? l
        then (if Z.of_nat (length filtered) <? l then length filtered else Z.to_nat l)
        else length filtered
    | None => length filtered
    end in
  if (limit <? length filtered)%nat then last_n limit filtered else filtered.

End Server.


(** ** Definitions used to state the properties *)

(** A plain decimal numeral [[+-]ddd[.ddd]] read the way
    [strconv.ParseFloat] reads it on its exact path: the digits form an
    integer mantissa below 2^53, which is converted and divided by the power
    of ten (below 10^23) that the fraction calls for; one correctly rounded
    division gives the nearest binary64. Any other string is not covered
    ([None]); the function instantiates [ParseFloat] in examples only. *)
Definition digitValue (c : ascii) : option Z :=
  let n := Z.of_N (Ascii.N_of_ascii c) in
  if (48 <=? n) && (n <=? 57) then Some (n - 48) else None.

Fixpoint readDigits (s : string) (sawdot : bool) (mantissa : Z) (ndigits nfrac : nat)
    : option (Z * nat * nat) :=
  match s with
  | EmptyString => Some (mantissa, ndigits, nfrac)
  | String c rest =>
      if Ascii.eqb c "."%char then
        if sawdot then None else readDigits rest true mantissa ndigits nfrac
      else
        match digitValue c with
        | Some d =>
            readDigits rest sawdot (10 * mantissa + d) (S ndigits)
              (if sawdot then S nfrac else nfrac)
        | None => None
        end
  end.

Definition atof64exact (mantissa : Z) (nfrac : nat) (neg : bool) : option float :=
  if (mantissa <? 2 ^ 53) && (nfrac <=? 22)%nat then
    let f := float64_of_int mantissa in
    let f := if neg then (- f)%float else f in
    Some (if (nfrac =? 0)%nat then f else (f / float64_of_int (10 ^ Z.of_nat nfrac))%float)
  else None.

Definition parseDecimal (s : string) : option float :=
  let '(neg, body) :=
    match s with
    | String "-"%char rest => (true, rest)
    | String "+"%char rest => (false, rest)
    | _ => (false, s)
    end in
  match readDigits body false 0 0 0 with
  | Some (mantissa, S _, nfrac) => atof64exact mantissa nfrac neg
  | _ => None
  end.

(** The entry of an upstream level that is well formed: it has at least two
    strings, the first parses as a dollar amount and the second as a count.
    The result is (price in cents, quantity). *)
Definition wellFormed (ParseFloat : string -> option float) (level : list string)
    : option (Z * Z) :=
  match level with
  | s0 :: s1 :: _ =>
      match Orderbook.parseDollarToCents ParseFloat s0,
            Orderbook.parseFixedPointCount ParseFloat s1 with
      | Some p, Some q => Some (p, q)
      | _, _ => None
      end
  | _ => None
  end.

Definition bidOf (pq : Z * Z) : PriceLevel.t :=
  {| PriceLevel.Price := pq.1; PriceLevel.Quantity := pq.2 |}.

Definition askOf (pq : Z * Z) : PriceLevel.t :=
  {| PriceLevel.Price := int_sub 10000 pq.1; PriceLevel.Quantity := pq.2 |}.

Definition descending (a b : PriceLevel.t) : Prop :=
  PriceLevel.Price b <= PriceLevel.Price a.

Definition ascending (a b : PriceLevel.t) : Prop :=
  PriceLevel.Price a <= PriceLevel.Price b.

(** The book message of scenario S1. *)
Definition S1_response : KalshiOrderbookResponse :=
  {| OrderbookFp :=
       {| YesDollars := [["0.60"; "100"]; ["0.59"; "50"]];
          NoDollars := [["0.39"; "80"]] |} |}.

(** The log after a sequence of [Add] calls on a fresh log. *)
Definition addAll (added : list Trade.t) : TradeLog.t :=
  fold_left (fun tl trade => TradeLog.Add trade tl) added TradeLog.NewTradeLog.

(** A book with no bids and one ask of 10 contracts at 50 cents. *)
Definition askOnlyBook : Orderbook.t :=
  {| Orderbook.MarketTicker := "T"; Orderbook.Bids := [];
     Orderbook.Asks := [PriceLevel.mk 50 10]; Orderbook.LastUpdate := 0 |}.

(** A crossed book: best bid 60 cents, best ask 50 cents, one contract each. *)
Definition crossedBook : Orderbook.t :=
  {| Orderbook.MarketTicker := "T"; Orderbook.Bids := [PriceLevel.mk 60 1];
     Orderbook.Asks := [PriceLevel.mk 50 1]; Orderbook.LastUpdate := 0 |}.

(** An uncrossed book whose best ask has no quantity. *)
Definition thinAskBook : Orderbook.t :=
  {| Orderbook.MarketTicker := "T"; Orderbook.Bids := [PriceLevel.mk 5 3];
     Orderbook.Asks := [PriceLevel.mk 10 0]; Orderbook.LastUpdate := 0 |}.

(** Rounding of binary64, as [SpecFloat] specifies it for the primitive
    floats: the position of [N / D] between two integers, as the rounding
    records it. *)
Definition loc_of (N D : Z) : location :=
  if N mod D =? 0 then loc_Exact else loc_Inexact (2 * (N mod D) ?= D).

(** The record [mrs] of a mantissa being shifted holds [N / D]: its integer
    part, and in its two flags how the remainder compares with a half. *)
Definition located (N D : Z) (mrs : shr_record) : Prop :=
  0 < D /\ 0 <= N /\ shr_m mrs = N / D /\ loc_of_shr_record mrs = loc_of N D.

(** [2^e] as a real number. *)
Definition pow2 (e : Z) : R := powerRZ 2 e.

(** The factor of a sign bit. *)
Definition sgn (s : bool) : R := if s then (-1)%R else 1%R.

(** The real number a float stands for (0 for infinities and NaN). *)
Definition SF2R (f : spec_float) : R :=
  match f with
  | S754_finite s m e => (sgn s * (IZR (Zpos m) * pow2 e))%R
  | _ => 0%R
  end.

(** The real value of a float64. *)
Definition F2R (f : float) : R := SF2R (Prim2SF f).

(** The unit roundoff of binary64. *)
Definition u64 : R := (/ 9007199254740992)%R.

(** A zero of either sign. *)
Definition sf_is_zero (f : spec_float) : Prop := exists s, f = S754_zero s.

(** A normal number of binary64, of either sign. *)
Definition normal (f : spec_float) : Prop :=
  exists s m e, f = S754_finite s m e /\ Zpos (digits2_pos m) = 53 /\ -1074 <= e <= 971.

(** [f] is a zero or a normal number: neither an infinity, nor a NaN, nor a
    subnormal. *)
Definition finite64 (f : float) : Prop := sf_is_zero (Prim2SF f) \/ normal (Prim2SF f).

(** [f] is a zero, or a normal number of magnitude between [2^lo] and
    [2^hi]. *)
Definition okr (f : float) (lo hi : Z) : Prop :=
  sf_is_zero (Prim2SF f)
  \/ (normal (Prim2SF f) /\ (pow2 lo <= Rabs (F2R f) <= pow2 hi)%R).

(** [y] is [x] rounded: within a relative error of [u64]. *)
Definition rel (x y : R) : Prop := (Rabs (y - x) <= u64 * Rabs x)%R.

(** [y] approximates [x], a number of magnitude at most [w], within
    [c * w]. *)
Definition err (c w x y : R) : Prop := (Rabs (y - x) <= c * w /\ Rabs x <= w)%R.

(** The error bound after one more rounding. *)
Definition rnd (c : R) : R := (c + u64 * (1 + c))%R.

(** The error accepted for the whole computation: [2^-49]. *)
Definition u49 : R := (/ 562949953421312)%R.

(** A price in cents, in dollars. *)
Definition dollars (cents : Z) : R := (IZR cents / 100)%R.

(** The microprice of the specification in exact real arithmetic, in
    dollars: (best_bid * ask_qty + best_ask * bid_qty) / (bid_qty + ask_qty),
    the simple mid when the total quantity is 0, undefined when a side is
    empty. *)
Definition Microprice_spec (ob : Orderbook.t) : option R :=
  match Orderbook.Bids ob, Orderbook.Asks ob with
  | bid :: _, ask :: _ =>
      let best_bid := dollars (PriceLevel.Price bid) in
      let best_ask := dollars (PriceLevel.Price ask) in
      let bid_qty := IZR (PriceLevel.Quantity bid) in
      let ask_qty := IZR (PriceLevel.Quantity ask) in
      if PriceLevel.Quantity bid + PriceLevel.Quantity ask =? 0
      then Some ((best_bid + best_ask) / 2)%R
      else Some ((best_bid * ask_qty + best_ask * bid_qty) / (bid_qty + ask_qty))%R
  | _, _ => None
  end.

(** The snapshot ring of a ticker. *)
Definition snapshotsOf (ticker : string) (e : Engine.t) : list MarketSnapshot.t :=
  default [] (TimeSeriesStore.snapshots (Engine.timeSeries e) !! ticker).

(** The trades logged for a ticker. *)
Definition tradesOf (ticker : string) (e : Engine.t) : list Trade.t :=
  match Engine.tradeLogs e !! ticker with
  | Some log => TradeLog.trades log
  | None => []
  end.

(** A state in which market T is active, has a two-sided book and two
    trades of 10 contracts at time 100 s; the default thresholds. *)
Definition surgeMarket : Market.t :=
  Market.mk "T" "title" "Politics" StatusActive None "E" "" "".

Definition surgeState : Engine.t :=
  Engine.AddTrade (Trade.mk "T" SideYes 55 10 (100 * Second))
    (Engine.AddTrade (Trade.mk "T" SideYes 55 10 (100 * Second))
       (Engine.UpdateOrderbook 0 0 "T"
          (Orderbook.mk "T" [PriceLevel.mk 55 800] [PriceLevel.mk 56 200] 0)
          (Engine.RegisterMarket 0 surgeMarket Engine.NewEngine))).

Definition defaultSignalConfig : SignalConfig :=
  {| ComputationIntervalSecs := 1; DriftWindowSecs := 60; DriftThreshold := 2;
     ImbalanceThreshold := 0.3; VolumeSurgeThreshold := 3; VolumeWindowSecs := 30 |}.

Definition surgeSignal : Signal.t :=
  {| Signal.MarketTicker := "T";
     Signal.Type_ := SignalTypeVolumeSurge;
     Signal.Value := 5;
     Signal.Timestamp := 100 * Second;
     Signal.Metadata :=
       {| SignalMetadata.PreviousValue := Some 4%float;
          SignalMetadata.ThresholdCrossed := true;
          SignalMetadata.Confidence := 1 |};
     Signal.ImpliedProbabilityDrift := None;
     Signal.OrderbookImbalance := None;
     Signal.VolumeSurge := Some {| VolumeMultiplier := 5; surge_WindowSecs := 30 |} |}.

(** The best ask and the best bid of a ticker in dollars, and the top
    quantities, when its book has both sides. *)
Definition topOfBook (state : Engine.t) (ticker : string)
    : option (PriceLevel.t * PriceLevel.t) :=
  match Engine.orderbooks state !! ticker with
  | Some ob =>
      match Orderbook.Bids ob, Orderbook.Asks ob with
      | bid :: _, ask :: _ => Some (bid, ask)
      | _, _ => None
      end
  | None => None
  end.

(** sumBuy: the sum of best asks over the members, in dollars, added in the
    order of the group. *)
Definition sumBuy (state : Engine.t) (tickers : list string) : float :=
  fold_left
    (fun sum ticker =>
       match topOfBook state ticker with
       | Some (_, ask) => (sum + float64_of_int (PriceLevel.Price ask) / 100)%float
       | None => sum
       end)
    tickers 0%float.

(** sumSell: the sum of best bids over the members, in dollars. *)
Definition sumSell (state : Engine.t) (tickers : list string) : float :=
  fold_left
    (fun sum ticker =>
       match topOfBook state ticker with
       | Some (bid, _) => (sum + float64_of_int (PriceLevel.Price bid) / 100)%float
       | None => sum
       end)
    tickers 0%float.

(** Scenario S4: markets A, B, C of event E with best asks 30, 45 and 20
    cents (best bids one cent below, 100 contracts on every level). *)
Definition S4_market (ticker : string) : Market.t :=
  Market.mk ticker "title" "Politics" StatusActive None "E" "" "".

Definition S4_book (ticker : string) (ask : Z) : Orderbook.t :=
  Orderbook.mk ticker [PriceLevel.mk (ask - 1) 100] [PriceLevel.mk ask 100] 0.

Definition S4_markets : list Market.t := [S4_market "A"; S4_market "B"; S4_market "C"].

Definition S4_state : Engine.t :=
  Engine.UpdateOrderbook 0 0 "C" (S4_book "C" 20)
    (Engine.UpdateOrderbook 0 0 "B" (S4_book "B" 45)
       (Engine.UpdateOrderbook 0 0 "A" (S4_book "A" 30)
          (fold_left (fun e m => Engine.RegisterMarket 0 m e) S4_markets Engine.NewEngine))).

(** The delays of [n] consecutive reconnects that double from [delay] up
    to the cap and are never reset. *)
Fixpoint backoff (n : nat) (delay : Duration) : list Duration :=
  match n with
  | O => []
  | S n' =>
      let doubled := int_mul delay 2 in
      delay :: backoff n' (if WebSocketHandler.maxDelay <? doubled
                           then WebSocketHandler.maxDelay else doubled)
  end.

(** A handler configured with the default base delay of 5 seconds. *)
Definition defaultHandler : WebSocketHandler.t :=
  WebSocketHandler.NewWebSocketHandler "wss://stream"
    {| WebSocketHandler.WebSocketReconnectDelaySecs := 5;
       WebSocketHandler.RESTPollIntervalSecs := 60;
       WebSocketHandler.RateLimitPerSecond := 10 |}.

(** The received signals whose metadata marks the threshold as crossed. *)
Definition crossedOnly (received : list (Time * Time * Signal.t)) : list (Time * Time * Signal.t) :=
  filter (fun r => SignalMetadata.ThresholdCrossed (Signal.Metadata r.2) = true) received.

(** The capacity of the trade log of a ticker: that of its log, or of the
    log that [AddTrade] creates for it. *)
Definition capacityOf (ticker : string) (e : Engine.t) : nat :=
  TradeLog.maxLen (default TradeLog.NewTradeLog (Engine.tradeLogs e !! ticker)).


(** Whether a signal passes the two filters of [getSignals]; an empty
    filter passes everything. *)
Definition matchesQuery (marketTicker signalType : string) (sig : Signal.t) : Prop :=
  (marketTicker = ""%string \/ Signal.MarketTicker sig = marketTicker)
  /\ (signalType = ""%string \/ Signal.Type_ sig = signalType).

#[local] Instance matchesQuery_dec marketTicker signalType sig :
  Decision (matchesQuery marketTicker signalType sig).
Proof. unfold matchesQuery. apply _. Defined.

(** The server after receiving the signals of [received], in order. *)
Definition collectAll (received : list Signal.t) (s : Server.t) : Server.t :=
  fold_left (fun s signal => Server.collectSignal signal s) received s.


(** The states of the engine: the fresh engine and whatever its three
    mutators make of a state. *)
Inductive reachable : Engine.t -> Prop :=
  | reachable_new : reachable Engine.NewEngine
  | reachable_register now market e :
      reachable e -> reachable (Engine.RegisterMarket now market e)
  | reachable_update now_trades now_snapshot ticker orderbook e :
      reachable e ->
      reachable (Engine.UpdateOrderbook now_trades now_snapshot ticker orderbook e)
  | reachable_trade trade e :
      reachable e -> reachable (Engine.AddTrade trade e).

(** The trades of a ticker mirrored into the time-series store. *)
Definition mirrorOf (ticker : string) (e : Engine.t) : list Trade.t :=
  default [] (TimeSeriesStore.trades (Engine.timeSeries e) !! ticker).

(** What every reachable state satisfies. *)
Record engineInv (e : Engine.t) : Prop := {
  inv_market_key : forall k m, Engine.markets e !! k = Some m -> Market.Ticker m = k;
  inv_market_book : forall k, is_Some (Engine.markets e !! k) -> is_Some (Engine.orderbooks e !! k);
  inv_log_cap : forall k log, Engine.tradeLogs e !! k = Some log -> TradeLog.maxLen log = 1000%nat;
  inv_log_mirror : forall k, tradesOf k e = last_n 1000 (mirrorOf k e);
  inv_log_ticker : forall k, Forall (fun t => Trade.MarketTicker t = k) (mirrorOf k e);
  inv_mirror_cap :
    TimeSeriesStore.maxTradesPerMarket (Engine.timeSeries e) = 10000%nat;
  inv_mirror_len : forall k, (length (mirrorOf k e) <= 10000)%nat;
  inv_snapshot_cap :
    TimeSeriesStore.maxSnapshotsPerMarket (Engine.timeSeries e) = 10000%nat;
  inv_snapshot_len : forall k, (length (snapshotsOf k e) <= 10000)%nat;
  inv_snapshot_ticker :
    forall k, Forall (fun s => MarketSnapshot.MarketTicker s = k
                               /\ MarketSnapshot.Spread s
                                  = int_sub (MarketSnapshot.BestAsk s) (MarketSnapshot.BestBid s))
                (snapshotsOf k e)
}.


(** The exact sum of the quantities of the levels of a side that [keep]
    accepts, and of all its levels. *)
Definition quantityWhere (keep : PriceLevel.t -> bool) (side : list PriceLevel.t) : Z :=
  foldr (fun level sum => if keep level then PriceLevel.Quantity level + sum else sum) 0 side.

Definition totalQuantity (side : list PriceLevel.t) : Z :=
  quantityWhere (fun _ => true) side.

(** Prices of a magnitude far below the range of the integers, and
    quantities that are not negative. *)
Definition modestLevel (level : PriceLevel.t) : Prop :=
  - 2 ^ 61 <= PriceLevel.Price level <= 2 ^ 61 /\ 0 <= PriceLevel.Quantity level.


(** The tickers of the active markets of an event, in the order of the
    slice of markets. *)
Definition membersOf (eventTicker : string) (markets : list Market.t) : list string :=
  Market.Ticker <$>
    filter (fun market =>
              String.eqb (Market.Status market) StatusActive
              && String.eqb (Market.EventTicker market) eventTicker = true)
           markets.

(** A market the scanner reports: active, with a book that has both sides. *)
Definition scannable (state : Engine.t) (market : Market.t) : bool :=
  String.eqb (Market.Status market) StatusActive
  && match topOfBook state (Market.Ticker market) with Some _ => true | None => false end.

(** The four alert types of [checkMarketAlerts], in the order of its rules. *)
Definition marketAlertTypes : list AlertType :=
  [AlertTypeSpreadTightened; AlertTypeDepthIncreased; AlertTypeImbalancePressure;
   AlertTypeExecutionReady].

(** The statistics an alert carries when the harness has no entry for it. *)
Definition defaultStatistics (alert : Alert.t) : Prop :=
  Alert.Confidence alert = 0.3%float /\ Alert.HitRate alert = 0%float
  /\ Alert.SampleSize alert = 0.

(** The alerts of a list that are about one market, in order. *)
Definition alertsFor (ticker : string) (alerts : list Alert.t) : list Alert.t :=
  filter (fun alert => Alert.MarketTicker alert = ticker) alerts.

(** The webhook deliveries of one handled signal: one per configured
    client, Slack first. *)
Definition deliveries (m : Manager.t) (message : string) : list (Manager.Sink * string) :=
  match Manager.slackClient m with Some _ => [(Manager.Slack, message)] | None => [] end
  ++ match Manager.discordClient m with Some _ => [(Manager.Discord, message)] | None => [] end.

(** The key of the cool-down map for a signal. *)
Definition cooldownKey (signal : Signal.t) : string :=
  (Signal.MarketTicker signal +:+ Signal.Type_ signal)%string.

(** What the markets of one tick offer to the signal channel, in order. *)
Definition offeredSignals (config : SignalConfig) (state : Engine.t)
    (clock : nat -> nat -> Time) (markets : list Market.t) : list Signal.t :=
  concat (imap (fun i market => Processor.marketSignals config state (clock i) market) markets).

(** A book message whose only level is a NO bid at 0.29 dollars for 80
    contracts. *)
Definition S29_response : KalshiOrderbookResponse :=
  {| OrderbookFp := {| YesDollars := []; NoDollars := [["0.29"; "80"]] |} |}.

(** The calls that change the engine, and the engine after a sequence of
    them on a fresh engine. *)
Inductive EngineOp :=
  | OpRegister (now : Time) (market : Market.t)
  | OpUpdate (now_trades now_snapshot : Time) (ticker : string) (orderbook : Orderbook.t)
  | OpTrade (trade : Trade.t).

Definition applyOp (e : Engine.t) (op : EngineOp) : Engine.t :=
  match op with
  | OpRegister now market => Engine.RegisterMarket now market e
  | OpUpdate now_trades now_snapshot ticker orderbook =>
      Engine.UpdateOrderbook now_trades now_snapshot ticker orderbook e
  | OpTrade trade => Engine.AddTrade trade e
  end.

Definition runOps (ops : list EngineOp) : Engine.t :=
  fold_left applyOp ops Engine.NewEngine.

(** The market of the last [RegisterMarket] call of a sequence that was
    about the given ticker. *)
Definition registeredAs (ticker : string) (op : EngineOp) : option Market.t :=
  match op with
  | OpRegister _ market =>
      if String.eqb (Market.Ticker market) ticker then Some market else None
  | _ => None
  end.

Definition lastRegistered (ticker : string) (ops : list EngineOp) : option Market.t :=
  last (omap (registeredAs ticker) ops).

(** * Properties *)

(** ** Machine integers *)

Lemma wrap64_id z : int_min <= z <= int_max -> wrap64 z = z.
Proof.
  unfold wrap64, int_min, int_max. intros Hz.
  rewrite Z.mod_small by lia. lia.
Qed.

Lemma wrap64_range z : int_min <= wrap64 z <= int_max.
Proof.
  unfold wrap64, int_min, int_max.
  pose proof (Z.mod_pos_bound (z + 2 ^ 63) (2 ^ 64) ltac:(lia)). lia.
Qed.

Lemma int_of_float64_range f : int_min <= int_of_float64 f <= int_max.
Proof.
  unfold int_of_float64.
  destruct (Prim2SF f) as [s|s| |s m e]; try (unfold int_min, int_max; lia).
  cbv zeta.
  destruct (_ && _) eqn:Hb; [|unfold int_min, int_max; lia].
  apply andb_true_iff in Hb as [H1 H2]. lia.
Qed.

(** ** Sorting *)

Section SortSliceFacts.
Context {A : Type} (less : A -> A -> bool).

Lemma sift_left_perm x r : Permutation (sift_left less x r) (x :: r).
Proof.
  induction r as [|y r IH]; simpl; [done|].
  destruct (less x y); [|done].
  rewrite IH. apply perm_swap.
Qed.

Lemma sift_all_perm data acc :
  Permutation (fold_left (fun r x => sift_left less x r) data acc) (data ++ acc).
Proof.
  revert acc. induction data as [|x data IH]; intros acc; simpl; [done|].
  rewrite IH, sift_left_perm. symmetry. apply Permutation_middle.
Qed.

Lemma sort_Slice_perm data : Permutation (sort_Slice less data) data.
Proof.
  unfold sort_Slice. rewrite <- Permutation_rev, sift_all_perm.
  by rewrite app_nil_r.
Qed.

(** [R] is the order that [less] decides: [less x y] puts [x] before [y],
    and its failure allows [y] before [x]. *)
Context (R : relation A) `{!Transitive R}.
Hypothesis less_sound : forall x y, less x y = true -> R x y.
Hypothesis less_total : forall x y, less x y = false -> R y x.

Lemma sift_left_sorted x r :
  StronglySorted (flip R) r -> StronglySorted (flip R) (sift_left less x r).
Proof.
  induction 1 as [|y r Hr IH Hy]; simpl.
  - repeat constructor.
  - destruct (less x y) eqn:Hxy.
    + constructor; [done|].
      apply Forall_forall. intros z Hz.
      apply list_elem_of_In, (Permutation_in _ (sift_left_perm x r)) in Hz.
      destruct Hz as [<-|Hz]; [by apply less_sound|].
      rewrite Forall_forall in Hy. apply Hy. by apply list_elem_of_In.
    + constructor; [by constructor|].
      constructor; [by apply less_total|].
      eapply Forall_impl; [exact Hy|].
      intros z Hz. unfold flip in *. etrans; [exact Hz|by apply less_total].
Qed.

Lemma sift_all_sorted data acc :
  StronglySorted (flip R) acc ->
  StronglySorted (flip R) (fold_left (fun r x => sift_left less x r) data acc).
Proof.
  revert acc. induction data as [|x data IH]; intros acc Hacc; simpl; [done|].
  by apply IH, sift_left_sorted.
Qed.

Lemma StronglySorted_flip_rev (l : list A) :
  StronglySorted (flip R) l -> StronglySorted R (rev l).
Proof.
  induction 1 as [|y l Hl IH Hy]; simpl; [constructor|].
  apply StronglySorted_app_2; [|done|repeat constructor].
  intros x1 x2 Hx1 Hx2. apply list_elem_of_singleton in Hx2 as ->.
  rewrite Forall_forall in Hy. apply Hy.
  apply list_elem_of_In, in_rev. by apply list_elem_of_In.
Qed.

Lemma sort_Slice_sorted data : StronglySorted R (sort_Slice less data).
Proof.
  apply StronglySorted_flip_rev, sift_all_sorted. constructor.
Qed.

End SortSliceFacts.

(** ** Order book: derivation of asks from the NO side *)

Section Derivation.
Variable ParseFloat : string -> option float.

Lemma appendYes_all side acc :
  fold_left (Orderbook.appendYes ParseFloat) side acc
  = acc ++ map bidOf (omap (wellFormed ParseFloat) side).
Proof.
  revert acc. induction side as [|level side IH]; intros acc; simpl.
  - by rewrite app_nil_r.
  - rewrite IH. unfold Orderbook.appendYes, wellFormed.
    destruct level as [|s0 [|s1 rest]]; try done.
    destruct (Orderbook.parseDollarToCents ParseFloat s0) as [p|]; [|done].
    destruct (Orderbook.parseFixedPointCount ParseFloat s1) as [q|]; [|done].
    simpl. by rewrite <- app_assoc.
Qed.

Lemma appendNo_all side acc :
  fold_left (Orderbook.appendNo ParseFloat) side acc
  = acc ++ map askOf (omap (wellFormed ParseFloat) side).
Proof.
  revert acc. induction side as [|level side IH]; intros acc; simpl.
  - by rewrite app_nil_r.
  - rewrite IH. unfold Orderbook.appendNo, wellFormed.
    destruct level as [|s0 [|s1 rest]]; try done.
    destruct (Orderbook.parseDollarToCents ParseFloat s0) as [p|]; [|done].
    destruct (Orderbook.parseFixedPointCount ParseFloat s1) as [q|]; [|done].
    simpl. by rewrite <- app_assoc.
Qed.

Lemma wellFormed_price_range (side : list (list string)) (p q : Z) :
  (p, q) ∈ omap (wellFormed ParseFloat) side -> int_min <= p <= int_max.
Proof.
  rewrite list_elem_of_omap. intros (level & _ & Hwf).
  unfold wellFormed, Orderbook.parseDollarToCents in Hwf.
  destruct level as [|s0 [|s1 rest]]; try done.
  destruct (ParseFloat s0) as [f|]; [|done].
  destruct (Orderbook.parseFixedPointCount ParseFloat s1); [|done].
  injection Hwf as <- _. apply int_of_float64_range.
Qed.

End Derivation.

#[local] Instance descending_trans : Transitive descending.
Proof. unfold descending. intros a b c ??. lia. Qed.

#[local] Instance ascending_trans : Transitive ascending.
Proof. unfold ascending. intros a b c ??. lia. Qed.

(** The derivation relative to the cents that [parseDollarToCents]
    returns: after [UpdateFromKalshi] the asks are the well-formed entries
    of the NO side, each mapped to (10000 - cents, quantity) by the
    subtraction of Go's [int], which is the exact difference unless it
    wraps; the bids are the well-formed entries of the
    YES side; bids are sorted descending and asks ascending. For the book
    message of scenario S1, read with a [ParseFloat] that returns the
    nearest binary64 of its six numerals, the result is bids
    [(60,100),(59,50)] and asks [(9961,80)]. *)
Theorem UpdateFromKalshi_derivation
    (ParseFloat : string -> option float) (now : Time)
    (resp : KalshiOrderbookResponse) (ob : Orderbook.t) :
  let ob' := Orderbook.UpdateFromKalshi ParseFloat now resp ob in
  let Y := omap (wellFormed ParseFloat) (YesDollars (OrderbookFp resp)) in
  let N := omap (wellFormed ParseFloat) (NoDollars (OrderbookFp resp)) in
  Permutation (Orderbook.Asks ob') (map askOf N)
  /\ length (Orderbook.Asks ob') = length N
  /\ (forall p q, (p, q) ∈ N -> int_min + 10000 < p ->
        {| PriceLevel.Price := 10000 - p; PriceLevel.Quantity := q |} ∈ Orderbook.Asks ob')
  /\ Permutation (Orderbook.Bids ob') (map bidOf Y)
  /\ StronglySorted descending (Orderbook.Bids ob')
  /\ StronglySorted ascending (Orderbook.Asks ob')
  /\ (ParseFloat "0.60" = Some 0.60%float -> ParseFloat "100" = Some 100%float ->
      ParseFloat "0.59" = Some 0.59%float -> ParseFloat "50" = Some 50%float ->
      ParseFloat "0.39" = Some 0.39%float -> ParseFloat "80" = Some 80%float ->
      let s1 := Orderbook.UpdateFromKalshi ParseFloat now S1_response ob in
      Orderbook.Bids s1 = [PriceLevel.mk 60 100; PriceLevel.mk 59 50]
      /\ Orderbook.Asks s1 = [PriceLevel.mk 9961 80]).
Proof.
  intros ob' Y N.
  assert (Hasks : Permutation (Orderbook.Asks ob') (map askOf N)).
  { unfold ob', Orderbook.UpdateFromKalshi; simpl.
    rewrite sort_Slice_perm, appendNo_all. done. }
  assert (Hbids : Permutation (Orderbook.Bids ob') (map bidOf Y)).
  { unfold ob', Orderbook.UpdateFromKalshi; simpl.
    rewrite sort_Slice_perm, appendYes_all. done. }
  split; [done|]. split.
  { rewrite (Permutation_length Hasks). apply length_map. }
  split.
  { intros p q Hpq Hp. rewrite Hasks.
    apply (wellFormed_price_range ParseFloat) in Hpq as Hrange.
    apply list_elem_of_fmap. exists (p, q). split; [|done].
    unfold askOf, int_sub; simpl. f_equal.
    rewrite wrap64_id; [done|]. unfold int_min, int_max in *. lia. }
  split; [done|]. split.
  { unfold ob', Orderbook.UpdateFromKalshi; simpl.
    apply sort_Slice_sorted; [apply _| |]; unfold descending; intros x y Hxy; lia. }
  split.
  { unfold ob', Orderbook.UpdateFromKalshi; simpl.
    apply sort_Slice_sorted; [apply _| |]; unfold ascending; intros x y Hxy; lia. }
  intros H060 H100 H059 H50 H039 H80 s1.
  unfold s1, Orderbook.UpdateFromKalshi, S1_response; simpl.
  unfold Orderbook.appendYes, Orderbook.appendNo,
    Orderbook.parseDollarToCents, Orderbook.parseFixedPointCount.
  rewrite H060, H100, H059, H50, H039, H80.
  split; vm_compute; reflexivity.
Qed.

Lemma UpdateFromKalshi_derivation_witness :
  let ob' := Orderbook.UpdateFromKalshi parseDecimal 0 S1_response (Orderbook.NewOrderbook 0 "T") in
  Orderbook.Bids ob' = [PriceLevel.mk 60 100; PriceLevel.mk 59 50]
  /\ Orderbook.Asks ob' = [PriceLevel.mk 9961 80].
Proof.
  apply (UpdateFromKalshi_derivation parseDecimal 0 S1_response (Orderbook.NewOrderbook 0 "T"));
    vm_compute; reflexivity.
Defined.

(** C1: [parseDollarToCents] truncates the product of the parsed dollars
    and 100 instead of rounding it, and 0.29 * 100 is 28.999999999999996 in
    binary64: a NO bid at 0.29 dollars for 80 contracts becomes the ask
    (9972, 80), and the ask (10000 - 29, 80) of the claim is not in the
    book. [ParseFloat] is any parser that returns the nearest binary64 of
    the two numerals, as [strconv.ParseFloat] does. *)
Theorem UpdateFromKalshi_truncates_cents
    (ParseFloat : string -> option float) (now : Time) (ob : Orderbook.t) :
  ParseFloat "0.29" = Some 0.29%float -> ParseFloat "80" = Some 80%float ->
  let ob' := Orderbook.UpdateFromKalshi ParseFloat now S29_response ob in
  Orderbook.parseDollarToCents ParseFloat "0.29" = Some 28
  /\ wellFormed ParseFloat ["0.29"; "80"] = Some (28, 80)
  /\ Orderbook.Asks ob' = [PriceLevel.mk 9972 80]
  /\ PriceLevel.mk (10000 - 29) 80 ∉ Orderbook.Asks ob'.
Proof.
  intros H029 H80 ob'.
  assert (Hcents : Orderbook.parseDollarToCents ParseFloat "0.29" = Some 28).
  { unfold Orderbook.parseDollarToCents. rewrite H029. vm_compute. reflexivity. }
  assert (Hcount : Orderbook.parseFixedPointCount ParseFloat "80" = Some 80).
  { unfold Orderbook.parseFixedPointCount. rewrite H80. vm_compute. reflexivity. }
  assert (Hasks : Orderbook.Asks ob' = [PriceLevel.mk 9972 80]).
  { unfold ob', Orderbook.UpdateFromKalshi, S29_response. simpl.
    unfold Orderbook.appendNo. rewrite Hcents, Hcount. vm_compute. reflexivity. }
  split; [done|]. split; [unfold wellFormed; by rewrite Hcents, Hcount|].
  split; [done|]. rewrite Hasks. intros Hin.
  apply list_elem_of_singleton in Hin. discriminate.
Qed.

Lemma UpdateFromKalshi_truncates_cents_witness :
  Orderbook.Asks
    (Orderbook.UpdateFromKalshi parseDecimal 0 S29_response (Orderbook.NewOrderbook 0 "T"))
  = [PriceLevel.mk 9972 80].
Proof.
  assert (H029 : parseDecimal "0.29" = Some 0.29%float) by (vm_compute; reflexivity).
  assert (H80 : parseDecimal "80" = Some 80%float) by (vm_compute; reflexivity).
  exact (proj1 (proj2 (proj2 (UpdateFromKalshi_truncates_cents parseDecimal 0
                                (Orderbook.NewOrderbook 0 "T") H029 H80)))).
Defined.

(** The same truncation loses a cent on 0.57 and 0.58 dollars. *)
Example parseDollarToCents_truncates :
  Orderbook.parseDollarToCents parseDecimal "0.57" = Some 56
  /\ Orderbook.parseDollarToCents parseDecimal "0.58" = Some 57
  /\ Orderbook.parseDollarToCents parseDecimal "0.39" = Some 39.
Proof. repeat split; vm_compute; reflexivity. Qed.

(** ** Trade log *)

Lemma last_n_all {A : Type} (n : nat) (s : list A) :
  (length s <= n)%nat -> last_n n s = s.
Proof. intros H. unfold last_n. by replace (length s - n)%nat with 0%nat by lia. Qed.

Lemma last_n_length {A : Type} (n : nat) (s : list A) :
  length (last_n n s) = Nat.min (length s) n.
Proof. unfold last_n. rewrite length_drop. lia. Qed.

Lemma last_n_app_last_n {A : Type} (n : nat) (s r : list A) :
  last_n n (last_n n s ++ r) = last_n n (s ++ r).
Proof.
  destruct (decide (length s <= n)%nat) as [Hle|Hgt].
  - by rewrite (last_n_all n s).
  - unfold last_n. rewrite !length_app, length_drop.
    replace (length s - (length s - n) + length r - n)%nat with (length r) by lia.
    replace (length s + length r - n)%nat with ((length s - n) + length r)%nat by lia.
    rewrite <- drop_drop. f_equal. rewrite drop_app_le; [done|lia].
Qed.

Lemma TradeLog_Add_trades trade tl :
  TradeLog.trades (TradeLog.Add trade tl)
  = last_n (TradeLog.maxLen tl) (TradeLog.trades tl ++ [trade])
  /\ TradeLog.maxLen (TradeLog.Add trade tl) = TradeLog.maxLen tl.
Proof.
  unfold TradeLog.Add.
  destruct (Nat.ltb_spec (TradeLog.maxLen tl) (length (TradeLog.trades tl ++ [trade])));
    simpl; [done|].
  by rewrite last_n_all.
Qed.

Lemma TradeLog_Add_all added tl :
  (length (TradeLog.trades tl) <= TradeLog.maxLen tl)%nat ->
  let tl' := fold_left (fun tl trade => TradeLog.Add trade tl) added tl in
  TradeLog.trades tl' = last_n (TradeLog.maxLen tl) (TradeLog.trades tl ++ added)
  /\ TradeLog.maxLen tl' = TradeLog.maxLen tl.
Proof.
  revert tl. induction added as [|trade added IH]; intros tl Hlen; simpl.
  - by rewrite app_nil_r, last_n_all.
  - destruct (TradeLog_Add_trades trade tl) as [Htrades Hmax].
    destruct (IH (TradeLog.Add trade tl)) as [IH1 IH2].
    { rewrite Htrades, Hmax, last_n_length. lia. }
    rewrite IH1, IH2, Htrades, Hmax, last_n_app_last_n, <- app_assoc. done.
Qed.

(** C8: after any sequence of [Add] calls on a fresh per-market trade log,
    the log holds at most 1000 trades, and they are exactly the last 1000
    trades added (all of them when fewer were added), in the order in which
    they were added. *)
Theorem TradeLog_keeps_most_recent (added : list Trade.t) :
  let tl := addAll added in
  (length (TradeLog.trades tl) <= 1000)%nat
  /\ length (TradeLog.trades tl) = Nat.min (length added) 1000
  /\ TradeLog.trades tl = drop (length added - 1000) added
  /\ exists older, added = older ++ TradeLog.trades tl.
Proof.
  intros tl.
  destruct (TradeLog_Add_all added TradeLog.NewTradeLog) as [Htrades _]; [simpl; lia|].
  fold (addAll added) in Htrades. fold tl in Htrades. simpl in Htrades.
  assert (Hdrop : TradeLog.trades tl = drop (length added - 1000) added) by done.
  split; [|split; [|split; [done|]]].
  - rewrite Hdrop, length_drop. lia.
  - rewrite Hdrop, length_drop. lia.
  - exists (take (length added - 1000) added). by rewrite Hdrop, take_drop.
Qed.

(** ** Engine: registration *)

(** C6: [RegisterMarket] is idempotent and never resets an existing book.
    It sets the market record of the ticker to [m]; it creates an empty
    book only when the ticker has none; registering the same market a
    second time changes nothing, whatever the clock reads. *)
Theorem RegisterMarket_idempotent (now1 now2 : Time) (m : Market.t) (e : Engine.t) :
  let e1 := Engine.RegisterMarket now1 m e in
  Engine.RegisterMarket now2 m e1 = e1
  /\ Engine.markets e1 = <[Market.Ticker m := m]> (Engine.markets e)
  /\ (forall ob, Engine.orderbooks e !! Market.Ticker m = Some ob ->
        Engine.orderbooks e1 = Engine.orderbooks e)
  /\ (Engine.orderbooks e !! Market.Ticker m = None ->
        Engine.orderbooks e1
        = <[Market.Ticker m := Orderbook.NewOrderbook now1 (Market.Ticker m)]> (Engine.orderbooks e))
  /\ Engine.tradeLogs e1 = Engine.tradeLogs e
  /\ Engine.timeSeries e1 = Engine.timeSeries e.
Proof.
  intros e1. unfold e1, Engine.RegisterMarket; simpl.
  split; [|split; [done|split; [|split; [|done]]]].
  - f_equal.
    + apply insert_insert_eq.
    + destruct (Engine.orderbooks e !! Market.Ticker m) as [ob|] eqn:Hob.
      * by rewrite Hob.
      * by rewrite lookup_insert_eq.
  - by intros ob ->.
  - by intros ->.
Qed.

Lemma RegisterMarket_idempotent_witness :
  let m := Market.mk "T" "title" "Politics" StatusActive None "E" "" "" in
  let ob := Orderbook.mk "T" [PriceLevel.mk 60 100] [PriceLevel.mk 61 5] 7 in
  let e := Engine.mk ∅ {["T" := ob]} ∅ TimeSeriesStore.NewTimeSeriesStore in
  Engine.orderbooks (Engine.RegisterMarket 9 m e) = Engine.orderbooks e.
Proof.
  intros m ob e.
  apply (RegisterMarket_idempotent 9 9 m e) with (ob := ob).
  apply lookup_singleton_eq.
Defined.

(** ** Order book: metrics *)

(** C2, as stated, fails: a book with no bids and one ask has an
    imbalance ratio of -1, not 0. *)
Lemma ImbalanceRatio_one_sided_counterexample :
  ~ (forall ob : Orderbook.t,
       Orderbook.Bids ob = [] \/ Orderbook.Asks ob = [] ->
       Orderbook.Spread ob = None
       /\ Orderbook.Microprice ob = None
       /\ PrimFloat.eqb (Orderbook.ImbalanceRatio ob) 0 = true).
Proof.
  intros H. destruct (H askOnlyBook) as (_ & _ & Hratio); [by left|].
  vm_compute in Hratio. discriminate.
Qed.

Example ImbalanceRatio_askOnlyBook : Orderbook.ImbalanceRatio askOnlyBook = (-1)%float.
Proof. vm_compute. reflexivity. Qed.

(** C2, amended: with an empty bids side or an empty asks side, Spread and
    Microprice return no value; ImbalanceRatio is 0 when both sides are
    empty (more generally when both depths are 0). *)
Theorem empty_side_metrics (ob : Orderbook.t) :
  (Orderbook.Bids ob = [] \/ Orderbook.Asks ob = [] ->
     Orderbook.Spread ob = None /\ Orderbook.Microprice ob = None)
  /\ (Orderbook.Bids ob = [] -> Orderbook.Asks ob = [] ->
        Orderbook.ImbalanceRatio ob = 0%float)
  /\ (Orderbook.BidDepth ob = 0 -> Orderbook.AskDepth ob = 0 ->
        Orderbook.ImbalanceRatio ob = 0%float).
Proof.
  assert (Hdepth : Orderbook.BidDepth ob = 0 -> Orderbook.AskDepth ob = 0 ->
                   Orderbook.ImbalanceRatio ob = 0%float).
  { intros Hb Ha. unfold Orderbook.ImbalanceRatio. rewrite Hb, Ha. reflexivity. }
  split; [|split; [|done]].
  - unfold Orderbook.Spread, Orderbook.Microprice.
    intros [-> | ->]; [done|]. by destruct (Orderbook.Bids ob).
  - intros Hb Ha. apply Hdepth.
    + unfold Orderbook.BidDepth. by rewrite Hb.
    + unfold Orderbook.AskDepth. by rewrite Ha.
Qed.

Lemma empty_side_metrics_witness :
  Orderbook.Spread askOnlyBook = None /\ Orderbook.Microprice askOnlyBook = None.
Proof. apply (empty_side_metrics askOnlyBook). by left. Defined.

(** C5, as stated, fails: on a crossed book (bid 60, ask 50, one contract
    each) the microprice is 0.55, outside the interval from 0.60 to 0.50. *)
Lemma Microprice_crossed_counterexample :
  ~ (forall (ob : Orderbook.t) bid bids ask asks,
       Orderbook.Bids ob = bid :: bids -> Orderbook.Asks ob = ask :: asks ->
       Forall (fun l => 0 <= PriceLevel.Quantity l) (Orderbook.Bids ob ++ Orderbook.Asks ob) ->
       exists m, Orderbook.Microprice ob = Some m
         /\ PrimFloat.leb (float64_of_int (PriceLevel.Price bid) / 100) m = true
         /\ PrimFloat.leb m (float64_of_int (PriceLevel.Price ask) / 100) = true).
Proof.
  intros H.
  destruct (H crossedBook (PriceLevel.mk 60 1) [] (PriceLevel.mk 50 1) [])
    as (m & Hm & Hlo & _); [done|done|repeat constructor; simpl; lia|].
  vm_compute in Hm. injection Hm as <-.
  vm_compute in Hlo. discriminate.
Qed.

(** Rounding alone can also leave the interval: on an uncrossed book whose
    best ask has no quantity the float64 result exceeds the best ask. *)
Example Microprice_rounding_example :
  exists m, Orderbook.Microprice thinAskBook = Some m
    /\ PrimFloat.ltb (float64_of_int 10 / 100) m = true.
Proof. eexists. split; vm_compute; reflexivity. Qed.

(** ** Rounding of binary64

    The error of one float64 operation, from the IEEE 754 specification of
    the operations ([SpecFloat]) that the primitive floats obey. *)

Lemma digits2_pos_bounds (p : positive) :
  2 ^ (Zpos (digits2_pos p) - 1) <= Zpos p < 2 ^ Zpos (digits2_pos p).
Proof.
  induction p as [p IH|p IH|]; cbn [digits2_pos].
  - rewrite Pos2Z.inj_succ.
    replace (Z.succ (Zpos (digits2_pos p)) - 1) with (Z.succ (Zpos (digits2_pos p) - 1)) by lia.
    rewrite !Z.pow_succ_r by lia. lia.
  - rewrite Pos2Z.inj_succ.
    replace (Z.succ (Zpos (digits2_pos p)) - 1) with (Z.succ (Zpos (digits2_pos p) - 1)) by lia.
    rewrite !Z.pow_succ_r by lia. lia.
  - simpl. lia.
Qed.

Lemma Zdigits2_bounds (m : Z) : 0 < m -> 2 ^ (Zdigits2 m - 1) <= m < 2 ^ Zdigits2 m.
Proof. destruct m as [|p|p]; try lia. intros _. apply digits2_pos_bounds. Qed.

Lemma Zdigits2_unique (m d : Z) : 2 ^ (d - 1) <= m < 2 ^ d -> 0 < m -> Zdigits2 m = d.
Proof.
  intros Hd Hm. pose proof (Zdigits2_bounds m Hm) as Hb.
  assert (Hpos : 0 < Zdigits2 m) by (destruct m; simpl; lia).
  destruct (Z.lt_trichotomy (Zdigits2 m) d) as [Hlt|[Heq|Hgt]]; [|done|].
  - assert (2 ^ Zdigits2 m <= 2 ^ (d - 1)) by (apply Z.pow_le_mono_r; lia). lia.
  - assert (0 <= d).
    { destruct (Z.le_gt_cases 0 d); [done|]. rewrite (Z.pow_neg_r 2 d) in Hd by lia. lia. }
    assert (2 ^ d <= 2 ^ (Zdigits2 m - 1)) by (apply Z.pow_le_mono_r; lia). lia.
Qed.

Lemma shr_1_located (N D : Z) (mrs : shr_record) :
  located N D mrs -> located N (D * 2) (shr_1 mrs).
Proof.
  destruct mrs as [m r s]. intros (HD & HN & Hm & Hloc). simpl in Hm.
  assert (Hdiv : N / (D * 2) = m / 2) by (rewrite Hm; apply eq_sym, Z.div_div; lia).
  assert (Hmod : N mod (D * 2) = N mod D + D * (m mod 2))
    by (rewrite Hm; apply Z.rem_mul_r; lia).
  assert (HR : 0 <= N mod D < D) by (apply Z.mod_pos_bound; lia).
  assert (Hm0 : 0 <= m) by (rewrite Hm; apply Z.div_pos; lia).
  unfold located, loc_of in *. rewrite Hdiv, Hmod.
  split; [lia|]. split; [done|].
  revert Hloc. generalize (N mod D) HR. intros R HR'. clear Hdiv Hmod Hm HR.
  destruct m as [|[p|p|]|p]; try lia.
  all: cbn [shr_1 shr_m].
  all: intros Hloc.
  - (* m = 0 *)
    split; [done|]. change (0 mod 2) with 0. rewrite Z.mul_0_r, Z.add_0_r.
    destruct r, s; simpl in *; destruct (Z.eqb_spec R 0); try discriminate;
      destruct (Z.compare_spec (2 * R) D); try discriminate;
      destruct (Z.compare_spec (2 * R) (D * 2)); first [reflexivity|exfalso; lia].
  - (* m = 2p+1 *)
    assert (H1 : Z.pos p~1 / 2 = Z.pos p) by (symmetry; apply (Z.div_unique _ 2 _ 1); lia).
    assert (H2 : Z.pos p~1 mod 2 = 1) by (symmetry; apply (Z.mod_unique _ 2 (Z.pos p) 1); lia).
    rewrite H1, H2. split; [done|].
    destruct r, s; simpl in *; destruct (Z.eqb_spec R 0); try discriminate;
      destruct (Z.compare_spec (2 * R) D); try discriminate;
      destruct (Z.eqb_spec (R + D * 1) 0); try lia;
      destruct (Z.compare_spec (2 * (R + D * 1)) (D * 2)); first [reflexivity|exfalso; lia].
  - assert (H1 : Z.pos p~0 / 2 = Z.pos p) by (symmetry; apply (Z.div_unique _ 2 _ 0); lia).
    assert (H2 : Z.pos p~0 mod 2 = 0) by (symmetry; apply (Z.mod_unique _ 2 (Z.pos p) 0); lia).
    rewrite H1, H2. split; [done|]. rewrite Z.mul_0_r, Z.add_0_r.
    destruct r, s; simpl in *; destruct (Z.eqb_spec R 0); try discriminate;
      destruct (Z.compare_spec (2 * R) D); try discriminate;
      destruct (Z.compare_spec (2 * R) (D * 2)); first [reflexivity|exfalso; lia].
  - change (1 / 2) with 0. change (1 mod 2) with 1. split; [done|].
    destruct r, s; simpl in *; destruct (Z.eqb_spec R 0); try discriminate;
      destruct (Z.compare_spec (2 * R) D); try discriminate;
      destruct (Z.eqb_spec (R + D * 1) 0); try lia;
      destruct (Z.compare_spec (2 * (R + D * 1)) (D * 2)); first [reflexivity|exfalso; lia].
Qed.

Lemma iter_shr_1_located (p : positive) (N D : Z) (mrs : shr_record) :
  located N D mrs -> located N (D * 2 ^ Zpos p) (SpecFloat.iter_pos shr_1 p mrs).
Proof.
  revert D mrs. induction p as [p IH|p IH|]; intros D mrs Hl; cbn [SpecFloat.iter_pos].
  - apply shr_1_located, IH, IH in Hl.
    replace (D * 2 ^ Z.pos p~1) with (D * 2 * 2 ^ Z.pos p * 2 ^ Z.pos p); [done|].
    rewrite Pos2Z.inj_xI, Z.pow_add_r, Z.pow_mul_r by lia.
    replace (2 ^ 2) with 4 by done. rewrite Z.pow_1_r.
    replace (4 ^ Z.pos p) with (2 ^ Z.pos p * 2 ^ Z.pos p); [ring|].
    rewrite <- Z.pow_add_r by lia. replace (Z.pos p + Z.pos p) with (2 * Z.pos p) by lia.
    by rewrite Z.pow_mul_r by lia.
  - apply IH, IH in Hl.
    replace (D * 2 ^ Z.pos p~0) with (D * 2 ^ Z.pos p * 2 ^ Z.pos p); [done|].
    rewrite Pos2Z.inj_xO, <- Z.mul_assoc, <- Z.pow_add_r by lia.
    do 2 f_equal. lia.
  - apply shr_1_located in Hl. by rewrite Z.pow_1_r.
Qed.

Lemma located_of_loc (N D : Z) :
  0 < D -> 0 <= N -> located N D (shr_record_of_loc (N / D) (loc_of N D)).
Proof.
  intros HD HN. unfold located. split; [done|]. split; [done|].
  by destruct (loc_of N D) as [|[]].
Qed.

Lemma round_nearest_even_located (N D : Z) (mrs : shr_record) :
  located N D mrs ->
  let mr := round_nearest_even (shr_m mrs) (loc_of_shr_record mrs) in
  N / D <= mr <= N / D + 1 /\ 2 * Z.abs (mr * D - N) <= D.
Proof.
  intros (HD & HN & Hm & Hloc) mr. unfold mr. rewrite Hloc, Hm. unfold loc_of.
  pose proof (Z.div_mod N D ltac:(lia)) as Hdm.
  pose proof (Z.mod_pos_bound N D HD) as HR.
  set (Qt := N / D) in *. set (R := N mod D) in *.
  destruct (Z.eqb_spec R 0); simpl; [lia|].
  destruct (Z.compare_spec (2 * R) D); simpl; [|lia|lia].
  destruct (Z.even Qt); lia.
Qed.

Lemma round_aux_normal (s : bool) (N D e : Z) :
  0 < D -> 0 < N / D ->
  let q := N / D in
  let dq := Zdigits2 q in
  53 <= dq -> -1074 <= dq + e - 53 -> dq + e + 1 <= 1024 ->
  exists (m' : positive) (e' : Z),
    binary_round_aux 53 1024 s q e (loc_of N D) = S754_finite s m' e'
    /\ Zpos (digits2_pos m') = 53
    /\ dq + e - 53 <= e' <= dq + e - 52
    /\ 2 * Z.abs (Zpos m' * 2 ^ (e' - e) * D - N) <= D * 2 ^ (dq - 53).
Proof.
  intros HD Hq q dq Hdq Hlo Hhi.
  assert (HN : 0 <= N).
  { destruct (Z.le_gt_cases 0 N); [done|].
    assert (N / D < 0) by (apply Z.div_lt_upper_bound; lia). lia. }
  set (n := dq - 53).
  assert (Hn : 0 <= n) by (unfold n; lia).
  assert (Hfexp : fexp 53 1024 (Zdigits2 q + e) - e = n)
    by (unfold fexp, emin; fold dq; unfold n; lia).
  unfold binary_round_aux, shr_fexp. rewrite Hfexp.
  assert (Hshift : exists mrs',
            shr (shr_record_of_loc q (loc_of N D)) e n = (mrs', e + n)
            /\ located N (D * 2 ^ n) mrs').
  { pose proof (located_of_loc N D HD HN) as Hinit. fold q in Hinit.
    destruct n as [|p|p] eqn:Hp; [| |lia].
    - eexists. split; [simpl; by rewrite Z.add_0_r|]. by rewrite Z.mul_1_r.
    - eexists. split; [reflexivity|]. by apply iter_shr_1_located. }
  destruct Hshift as (mrs' & -> & Hloc').
  pose proof (round_nearest_even_located _ _ _ Hloc') as Hmr. cbv zeta in Hmr.
  destruct Hloc' as (HD' & _ & Hm1 & _).
  set (mr := round_nearest_even (shr_m mrs') (loc_of_shr_record mrs')) in *.
  assert (Hpow : 0 < 2 ^ n) by (apply Z.pow_pos_nonneg; lia).
  assert (Hm1q : N / (D * 2 ^ n) = q / 2 ^ n) by (unfold q; symmetry; apply Z.div_div; lia).
  assert (Hm1b : 2 ^ 52 <= N / (D * 2 ^ n) < 2 ^ 53).
  { rewrite Hm1q. pose proof (Zdigits2_bounds q Hq) as Hb. fold dq in Hb.
    replace (dq - 1) with (52 + n) in Hb by (unfold n; lia).
    replace dq with (53 + n) in Hb by (unfold n; lia).
    rewrite !Z.pow_add_r in Hb by lia.
    split.
    - apply Z.div_le_lower_bound; lia.
    - apply Z.div_lt_upper_bound; lia. }
  destruct Hmr as (Hmr1 & Hmr2).
  assert (Herr : 2 * Z.abs (mr * 2 ^ n * D - N) <= D * 2 ^ (dq - 53)).
  { fold n. replace (mr * 2 ^ n * D) with (mr * (D * 2 ^ n)) by ring. done. }
  destruct (Z.eq_dec mr (2 ^ 53)) as [Htop|Hnot].
  - (* rounding reached the next binade *)
    rewrite Htop.
    replace (fexp 53 1024 (Zdigits2 (2 ^ 53) + (e + n)) - (e + n)) with 1
      by (unfold fexp, emin; simpl Zdigits2; unfold n; lia).
    cbn [shr_record_of_loc shr SpecFloat.iter_pos]. 
    change (shr_m (shr_1 {| shr_m := 2 ^ 53; shr_r := false; shr_s := false |}))
      with (Zpos 4503599627370496).
    replace (e + n + 1 <=? 1024 - 53) with true by (symmetry; apply Z.leb_le; unfold n; lia).
    exists 4503599627370496%positive, (e + n + 1).
    split; [done|]. split; [reflexivity|]. split; [unfold n; lia|].
    replace (e + n + 1 - e) with (n + 1) by lia.
    rewrite Z.pow_add_r, Z.pow_1_r by lia.
    replace (Z.pos 4503599627370496 * (2 ^ n * 2)) with (mr * 2 ^ n) by (rewrite Htop; lia).
    done.
  - assert (Hd : Zdigits2 mr = 53) by (apply Zdigits2_unique; simpl; lia).
    rewrite Hd.
    replace (fexp 53 1024 (53 + (e + n)) - (e + n)) with 0
      by (unfold fexp, emin; unfold n; lia).
    cbn [shr_record_of_loc shr shr_m].
    destruct mr as [|m|m] eqn:Hmr; [lia| |lia].
    replace (e + n <=? 1024 - 53) with true by (symmetry; apply Z.leb_le; unfold n; lia).
    exists m, (e + n).
    split; [done|]. split; [done|]. split; [unfold n; lia|].
    replace (e + n - e) with n by lia. done.
Qed.

(** ** Real values *)

Lemma pow2_pos e : (0 < pow2 e)%R.
Proof. apply powerRZ_lt. lra. Qed.

Lemma pow2_add a b : pow2 (a + b) = (pow2 a * pow2 b)%R.
Proof. apply powerRZ_add. lra. Qed.

Lemma pow2_IZR n : 0 <= n -> pow2 n = IZR (2 ^ n).
Proof.
  intros Hn. unfold pow2. rewrite <- (Z2Nat.id n) at 1 by done.
  rewrite <- pow_powerRZ, pow_IZR. by rewrite Z2Nat.id.
Qed.

Lemma pow2_le a b : a <= b -> (pow2 a <= pow2 b)%R.
Proof.
  intros Hab. replace b with (a + (b - a)) by lia.
  rewrite pow2_add, (pow2_IZR (b - a)) by lia.
  assert (H1 : (1 <= IZR (2 ^ (b - a)))%R).
  { apply IZR_le. pose proof (Z.pow_pos_nonneg 2 (b - a)). lia. }
  pose proof (pow2_pos a). nra.
Qed.

Lemma pow2_lt a b : a < b -> (pow2 a < pow2 b)%R.
Proof.
  intros Hab. replace b with (a + (b - a)) by lia.
  rewrite pow2_add, (pow2_IZR (b - a)) by lia.
  assert (H1 : (2 <= IZR (2 ^ (b - a)))%R).
  { apply IZR_le. replace (b - a) with (Z.succ (b - a - 1)) by lia.
    rewrite Z.pow_succ_r by lia. pose proof (Z.pow_pos_nonneg 2 (b - a - 1)). lia. }
  pose proof (pow2_pos a). nra.
Qed.

Lemma pow2_lt_inv a b : (pow2 a < pow2 b)%R -> a < b.
Proof.
  intros H. destruct (Z.lt_ge_cases a b); [done|].
  pose proof (pow2_le b a ltac:(lia)). lra.
Qed.

Lemma pow2_le_inv a b : (pow2 a <= pow2 b)%R -> a <= b.
Proof.
  intros H. destruct (Z.le_gt_cases a b); [done|].
  pose proof (pow2_lt b a ltac:(lia)). lra.
Qed.

Lemma normal_bounds (m : positive) (e : Z) :
  Zpos (digits2_pos m) = 53 ->
  (pow2 (52 + e) <= IZR (Zpos m) * pow2 e < pow2 (53 + e))%R.
Proof.
  intros Hd. pose proof (digits2_pos_bounds m) as Hb. rewrite Hd in Hb.
  rewrite !pow2_add, (pow2_IZR 52), (pow2_IZR 53) by lia.
  destruct Hb as [Hlo Hhi]. apply IZR_le in Hlo. apply IZR_lt in Hhi.
  change (2 ^ (53 - 1)) with 4503599627370496 in Hlo.
  change (2 ^ 53) with 9007199254740992 in *.
  change (2 ^ 52) with 4503599627370496.
  pose proof (pow2_pos e). nra.
Qed.

(** Rounding in the normal range: the result is a normal number within a
    relative error of [u64] of the rounded value [N / D * 2 ^ e]. *)
Lemma round_aux_real (s : bool) (N D e : Z) :
  0 < D -> 0 < N / D ->
  let dq := Zdigits2 (N / D) in
  53 <= dq -> -1074 <= dq + e - 53 -> dq + e + 1 <= 1024 ->
  exists (m' : positive) (e' : Z),
    binary_round_aux 53 1024 s (N / D) e (loc_of N D) = S754_finite s m' e'
    /\ Zpos (digits2_pos m') = 53
    /\ -1074 <= e' <= 971
    /\ (Rabs (IZR (Zpos m') * pow2 e' - IZR N / IZR D * pow2 e)
        <= u64 * (IZR N / IZR D * pow2 e))%R.
Proof.
  intros HD Hq dq Hdq Hlo Hhi.
  destruct (round_aux_normal s N D e HD Hq Hdq Hlo Hhi)
    as (m' & e' & Hround & Hdig & He' & Herr).
  exists m', e'. split; [done|]. split; [done|]. split; [lia|]. fold dq in He', Herr.
  set (n := dq - 53) in *.
  assert (Hn : 0 <= n) by (unfold n; lia).
  pose proof (Zdigits2_bounds _ Hq) as Hb. fold dq in Hb.
  replace (dq - 1) with (52 + n) in Hb by (unfold n; lia).
  rewrite Z.pow_add_r in Hb by lia.
  pose proof (Z.mul_div_le N D HD) as Hfloor.
  assert (HND : 2 ^ 52 * 2 ^ n * D <= N) by nia.
  set (V := Zpos m' * 2 ^ (e' - e)) in *.
  assert (HV : (IZR (Zpos m') * pow2 e' = IZR V * pow2 e)%R).
  { unfold V. rewrite mult_IZR, <- pow2_IZR by lia.
    replace e' with ((e' - e) + e) at 1 by lia. rewrite pow2_add. ring. }
  rewrite HV.
  assert (HdR : (0 < IZR D)%R) by (by apply IZR_lt).
  pose proof (pow2_pos e) as HE.
  replace (IZR V * pow2 e - IZR N / IZR D * pow2 e)%R
    with ((IZR V * IZR D - IZR N) * (pow2 e / IZR D))%R by (field; lra).
  rewrite Rabs_mult.
  assert (Hfac : (0 < pow2 e / IZR D)%R) by (apply Rdiv_lt_0_compat; lra).
  rewrite (Rabs_pos_eq (pow2 e / IZR D)) by lra.
  replace (u64 * (IZR N / IZR D * pow2 e))%R
    with (u64 * IZR N * (pow2 e / IZR D))%R by (field; lra).
  apply Rmult_le_compat_r; [lra|].
  assert (HerrR : (2 * Rabs (IZR V * IZR D - IZR N) <= IZR D * IZR (2 ^ n))%R).
  { rewrite <- mult_IZR, <- minus_IZR, <- abs_IZR.
    change 2%R with (IZR 2). rewrite <- !mult_IZR. by apply IZR_le. }
  assert (HNDR : (IZR (2 ^ 52) * IZR (2 ^ n) * IZR D <= IZR N)%R).
  { rewrite <- !mult_IZR. by apply IZR_le. }
  unfold u64. change (IZR (2 ^ 52)) with 4503599627370496%R in HNDR.
  lra.
Qed.

Lemma Zdigits2_range (m a b : Z) :
  0 < m -> 2 ^ a <= m < 2 ^ b -> 0 <= a -> 0 <= b -> a + 1 <= Zdigits2 m <= b.
Proof.
  intros Hm [Hlo Hhi] Ha Hb. pose proof (Zdigits2_bounds m Hm) as [Hd1 Hd2].
  assert (Hpos : 0 < Zdigits2 m) by (destruct m; simpl; lia).
  split.
  - assert (a < Zdigits2 m); [|lia]. apply (Z.pow_lt_mono_r_iff 2); lia.
  - assert (Zdigits2 m - 1 < b); [|lia]. apply (Z.pow_lt_mono_r_iff 2); lia.
Qed.

Lemma round_exact_real (s : bool) (p : positive) (e : Z) :
  let d := Zpos (digits2_pos p) in
  53 <= d -> -1074 <= d + e - 53 -> d + e + 1 <= 1024 ->
  exists (m' : positive) (e' : Z),
    binary_round_aux 53 1024 s (Zpos p) e loc_Exact = S754_finite s m' e'
    /\ Zpos (digits2_pos m') = 53
    /\ -1074 <= e' <= 971
    /\ (Rabs (IZR (Zpos m') * pow2 e' - IZR (Zpos p) * pow2 e)
        <= u64 * (IZR (Zpos p) * pow2 e))%R.
Proof.
  intros d Hd Hlo Hhi.
  pose proof (round_aux_real s (Zpos p) 1 e) as H.
  rewrite Z.div_1_r in H. unfold loc_of in H. rewrite Z.mod_1_r in H. simpl (0 =? 0) in H.
  cbv iota in H. simpl Zdigits2 in H.
  destruct H as (m' & e' & Hr & Hdig & He & Herr); try done.
  exists m', e'. split; [done|]. split; [done|]. split; [done|].
  replace (IZR (Z.pos p) / 1)%R with (IZR (Z.pos p)) in Herr by field. done.
Qed.

Lemma Pos_iter_xO (p k : positive) : Zpos (Pos.iter xO p k) = Zpos p * 2 ^ Zpos k.
Proof.
  induction k as [|k IH] using Pos.peano_ind.
  - simpl. lia.
  - rewrite Pos.iter_succ, Pos2Z.inj_xO, IH, Pos2Z.inj_succ, Z.pow_succ_r by lia. ring.
Qed.

Lemma shl_align_value (m : positive) (e e' : Z) :
  e' <= e ->
  (shl_align m e e').2 = e' /\ Zpos (shl_align m e e').1 = Zpos m * 2 ^ (e - e').
Proof.
  intros He. unfold shl_align. destruct (e' - e) as [|d|d] eqn:Hd; [|lia|].
  - simpl. replace (e - e') with 0 by lia. lia.
  - simpl. split; [done|]. rewrite Pos_iter_xO. f_equal. f_equal. lia.
Qed.

Lemma sgn_abs (s : bool) (t : R) : Rabs (sgn s * t) = Rabs t.
Proof.
  destruct s; unfold sgn.
  - replace (-1 * t)%R with (- t)%R by ring. apply Rabs_Ropp.
  - by rewrite Rmult_1_l.
Qed.

Lemma sgn_xorb (s1 s2 : bool) : sgn (xorb s1 s2) = (sgn s1 * sgn s2)%R.
Proof. destruct s1, s2; unfold sgn; simpl; ring. Qed.

(** Rounding an integer multiple of a power of two. *)
Lemma normalize_real (s : bool) (p : positive) (e : Z) :
  let d := Zpos (digits2_pos p) in
  -1074 <= d + e - 53 -> d + e + 1 <= 1024 ->
  exists (m' : positive) (e' : Z),
    binary_normalize 53 1024 (cond_Zopp s (Zpos p)) e false = S754_finite s m' e'
    /\ Zpos (digits2_pos m') = 53
    /\ -1074 <= e' <= 971
    /\ (Rabs (IZR (Zpos m') * pow2 e' - IZR (Zpos p) * pow2 e)
        <= u64 * (IZR (Zpos p) * pow2 e))%R.
Proof.
  intros d Hlo Hhi.
  assert (Hbn : binary_normalize 53 1024 (cond_Zopp s (Zpos p)) e false
                = binary_round 53 1024 s p e) by (by destruct s).
  rewrite Hbn. unfold binary_round. fold d.
  assert (Hfexp : fexp 53 1024 (d + e) = d + e - 53) by (unfold fexp, emin; lia).
  rewrite Hfexp.
  pose proof (digits2_pos_bounds p) as Hb. fold d in Hb.
  assert (Hdpos : 0 < d) by (unfold d; lia).
  destruct (Z.le_gt_cases 53 d) as [Hbig|Hsmall].
  - assert (Hal : shl_align p e (d + e - 53) = (p, e)).
    { unfold shl_align. destruct (d + e - 53 - e) eqn:Hs; [done|done|lia]. }
    rewrite Hal. by apply round_exact_real.
  - destruct (shl_align_value p e (d + e - 53) ltac:(lia)) as [Hex Hmz].
    destruct (shl_align p e (d + e - 53)) as [mz ez]. simpl in Hex, Hmz. subst ez.
    replace (e - (d + e - 53)) with (53 - d) in Hmz by lia.
    assert (Hdz : Zpos (digits2_pos mz) = 53).
    { apply (Zdigits2_unique (Zpos mz) 53); [|lia]. rewrite Hmz.
      replace (2 ^ (53 - 1)) with (2 ^ (d - 1) * 2 ^ (53 - d))
        by (rewrite <- Z.pow_add_r by lia; f_equal; lia).
      replace (2 ^ 53) with (2 ^ d * 2 ^ (53 - d))
        by (rewrite <- Z.pow_add_r by lia; f_equal; lia).
      assert (0 < 2 ^ (53 - d)) by (apply Z.pow_pos_nonneg; lia). nia. }
    destruct (round_exact_real s mz (d + e - 53)) as (m' & e' & Hr & Hdig & He & Herr);
      [lia|lia|lia|].
    exists m', e'. split; [done|]. split; [done|]. split; [done|].
    replace (IZR (Z.pos p) * pow2 e)%R with (IZR (Z.pos mz) * pow2 (d + e - 53))%R; [done|].
    rewrite Hmz, mult_IZR, <- pow2_IZR by lia.
    replace e with ((53 - d) + (d + e - 53)) at 2 by lia. rewrite pow2_add. ring.
Qed.

Lemma SFmul_real (s1 s2 : bool) (m1 m2 : positive) (e1 e2 : Z) :
  Zpos (digits2_pos m1) = 53 -> Zpos (digits2_pos m2) = 53 ->
  -1126 <= e1 + e2 <= 917 ->
  exists (m' : positive) (e' : Z),
    SFmul 53 1024 (S754_finite s1 m1 e1) (S754_finite s2 m2 e2)
    = S754_finite (xorb s1 s2) m' e'
    /\ Zpos (digits2_pos m') = 53
    /\ -1074 <= e' <= 971
    /\ (Rabs (IZR (Zpos m') * pow2 e'
              - (IZR (Zpos m1) * pow2 e1) * (IZR (Zpos m2) * pow2 e2))
        <= u64 * ((IZR (Zpos m1) * pow2 e1) * (IZR (Zpos m2) * pow2 e2)))%R.
Proof.
  intros H1 H2 He. cbn [SFmul].
  pose proof (digits2_pos_bounds m1) as B1. pose proof (digits2_pos_bounds m2) as B2.
  rewrite H1 in B1. rewrite H2 in B2.
  change (2 ^ (53 - 1)) with 4503599627370496 in *.
  change (2 ^ 53) with 9007199254740992 in *.
  assert (Hd : 105 <= Zpos (digits2_pos (m1 * m2)) <= 106).
  { apply (Zdigits2_range (Zpos (m1 * m2)) 104 106); [lia| |lia|lia].
    rewrite Pos2Z.inj_mul.
    change (2 ^ 104) with (4503599627370496 * 4503599627370496).
    change (2 ^ 106) with (9007199254740992 * 9007199254740992). nia. }
  destruct (round_exact_real (xorb s1 s2) (m1 * m2) (e1 + e2))
    as (m' & e' & Hr & Hdig & He' & Herr); [lia|lia|lia|].
  exists m', e'. split; [done|]. split; [done|]. split; [done|].
  replace (IZR (Z.pos m1) * pow2 e1 * (IZR (Z.pos m2) * pow2 e2))%R
    with (IZR (Z.pos (m1 * m2)) * pow2 (e1 + e2))%R; [done|].
  rewrite Pos2Z.inj_mul, mult_IZR, pow2_add. ring.
Qed.

Lemma cond_Zopp_IZR (s : bool) (z : Z) : IZR (cond_Zopp s z) = (sgn s * IZR z)%R.
Proof. destruct s; unfold sgn; simpl; [rewrite opp_IZR|]; ring. Qed.

(** The sum of two normal numbers is exactly zero, or a normal number within
    [u64] of the exact sum, which is not below the smaller unit of the
    operands. *)
Lemma SFadd_real (s1 s2 : bool) (m1 m2 : positive) (e1 e2 : Z) :
  Zpos (digits2_pos m1) = 53 -> Zpos (digits2_pos m2) = 53 ->
  -1021 <= e1 <= 960 -> -1021 <= e2 <= 960 ->
  let r := SFadd 53 1024 (S754_finite s1 m1 e1) (S754_finite s2 m2 e2) in
  let v := (sgn s1 * (IZR (Zpos m1) * pow2 e1) + sgn s2 * (IZR (Zpos m2) * pow2 e2))%R in
  (r = S754_zero false /\ v = 0%R)
  \/ exists (s : bool) (m' : positive) (e' : Z),
       r = S754_finite s m' e'
       /\ Zpos (digits2_pos m') = 53
       /\ -1074 <= e' <= 971
       /\ (Rabs (sgn s * (IZR (Zpos m') * pow2 e') - v) <= u64 * Rabs v)%R
       /\ (pow2 (Z.min e1 e2) <= Rabs v)%R.
Proof.
  intros H1 H2 He1 He2 r v. unfold r. cbn [SFadd].
  set (ez := Z.min e1 e2).
  destruct (shl_align_value m1 e1 ez ltac:(unfold ez; lia)) as [_ Ha].
  destruct (shl_align_value m2 e2 ez ltac:(unfold ez; lia)) as [_ Hb].
  set (a := (shl_align m1 e1 ez).1) in *. set (b := (shl_align m2 e2 ez).1) in *.
  pose proof (digits2_pos_bounds m1) as B1. pose proof (digits2_pos_bounds m2) as B2.
  rewrite H1 in B1. rewrite H2 in B2.
  change (2 ^ (53 - 1)) with 4503599627370496 in *.
  change (2 ^ 53) with 9007199254740992 in *.
  set (dmax := Z.max e1 e2 - ez).
  assert (Hdmax : 0 <= dmax) by (unfold dmax, ez; lia).
  assert (Hp1 : 0 < 2 ^ (e1 - ez)) by (apply Z.pow_pos_nonneg; unfold ez; lia).
  assert (Hp2 : 0 < 2 ^ (e2 - ez)) by (apply Z.pow_pos_nonneg; unfold ez; lia).
  assert (Hsum : Zpos a + Zpos b < 2 ^ (54 + dmax)).
  { rewrite Ha, Hb, !Z.pow_add_r by lia.
    change (2 ^ 54) with (2 * 9007199254740992).
    destruct (Z.le_ge_cases e1 e2) as [Hle|Hge].
    - replace (e1 - ez) with 0 in * by (unfold ez; lia).
      replace (e2 - ez) with dmax in * by (unfold dmax, ez; lia).
      rewrite Z.pow_0_r. nia.
    - replace (e2 - ez) with 0 in * by (unfold ez; lia).
      replace (e1 - ez) with dmax in * by (unfold dmax, ez; lia).
      rewrite Z.pow_0_r. nia. }
  set (M := cond_Zopp s1 (Zpos a) + cond_Zopp s2 (Zpos b)).
  assert (HM : Z.abs M < 2 ^ (54 + dmax)) by (unfold M; destruct s1, s2; simpl cond_Zopp; lia).
  assert (Hv : v = (IZR M * pow2 ez)%R).
  { unfold v, M. rewrite plus_IZR, !cond_Zopp_IZR, Ha, Hb, !mult_IZR,
      <- !pow2_IZR by (unfold ez; lia).
    replace e1 with ((e1 - ez) + ez) at 1 by lia.
    replace e2 with ((e2 - ez) + ez) at 1 by lia.
    rewrite !pow2_add. ring. }
  pose proof (pow2_pos ez) as Hez.
  assert (Hcase : forall (s : bool) (p : positive),
             M = cond_Zopp s (Zpos p) ->
             exists (m' : positive) (e' : Z),
               binary_normalize 53 1024 M ez false = S754_finite s m' e'
               /\ Zpos (digits2_pos m') = 53
               /\ -1074 <= e' <= 971
               /\ (Rabs (sgn s * (IZR (Zpos m') * pow2 e') - v) <= u64 * Rabs v)%R
               /\ (pow2 ez <= Rabs v)%R).
  { intros s p HMp.
    assert (Hp : Zpos p < 2 ^ (54 + dmax)) by (rewrite HMp in HM; destruct s; simpl in HM; lia).
    pose proof (Zdigits2_range (Zpos p) 0 (54 + dmax) ltac:(lia)
                  ltac:(rewrite Z.pow_0_r; lia) ltac:(lia) ltac:(lia)) as Hd.
    simpl Zdigits2 in Hd.
    destruct (normalize_real s p ez) as (m' & e' & Hr & Hdig & He' & Herr);
      [unfold dmax, ez in *; lia|unfold dmax, ez in *; lia|].
    exists m', e'. rewrite HMp. split; [done|]. split; [done|]. split; [done|].
    assert (Hv' : v = (sgn s * (IZR (Zpos p) * pow2 ez))%R).
    { rewrite Hv, HMp, cond_Zopp_IZR. ring. }
    assert (Hpos : (1 <= IZR (Zpos p))%R) by (apply IZR_le; lia).
    rewrite Hv'. split.
    - rewrite <- Rmult_minus_distr_l, !sgn_abs.
      rewrite (Rabs_pos_eq (IZR (Zpos p) * pow2 ez)) by nra. done.
    - rewrite sgn_abs, Rabs_pos_eq by nra. nra. }
  destruct M as [|p|p] eqn:HMeq.
  - left. split; [done|]. rewrite Hv. simpl. ring.
  - right. destruct (Hcase false p eq_refl) as (m' & e' & H). by exists false, m', e'.
  - right. destruct (Hcase true p eq_refl) as (m' & e' & H). by exists true, m', e'.
Qed.

Lemma new_location_loc_of (N D : Z) : 0 < D -> new_location D (N mod D) = loc_of N D.
Proof.
  intros HD. unfold new_location, loc_of, new_location_even, new_location_odd.
  pose proof (Z.mod_pos_bound N D HD) as HR. set (R := N mod D) in *.
  destruct (Z.even D) eqn:Hev; [done|].
  destruct (Z.eqb_spec R 0); [done|]. f_equal.
  destruct (Z.compare_spec (2 * R + 1) D), (Z.compare_spec (2 * R) D);
    try reflexivity; try lia.
  clearbody R. subst D. rewrite Z.even_mul in Hev. discriminate.
Qed.

Lemma div_eucl_div_mod (a b : Z) : Z.div_eucl a b = (a / b, a mod b).
Proof. unfold Z.div, Z.modulo. by destruct (Z.div_eucl a b). Qed.

Lemma SFdiv_real (s1 s2 : bool) (m1 m2 : positive) (e1 e2 : Z) :
  Zpos (digits2_pos m1) = 53 -> Zpos (digits2_pos m2) = 53 ->
  -1021 <= e1 - e2 <= 968 ->
  exists (m' : positive) (e' : Z),
    SFdiv 53 1024 (S754_finite s1 m1 e1) (S754_finite s2 m2 e2)
    = S754_finite (xorb s1 s2) m' e'
    /\ Zpos (digits2_pos m') = 53
    /\ -1074 <= e' <= 971
    /\ (Rabs (IZR (Zpos m') * pow2 e'
              - (IZR (Zpos m1) * pow2 e1) / (IZR (Zpos m2) * pow2 e2))
        <= u64 * ((IZR (Zpos m1) * pow2 e1) / (IZR (Zpos m2) * pow2 e2)))%R.
Proof.
  intros H1 H2 He. cbn [SFdiv]. unfold SFdiv_core_binary.
  simpl Zdigits2. rewrite H1, H2.
  replace (fexp 53 1024 (53 + e1 - (53 + e2))) with (e1 - e2 - 53)
    by (unfold fexp, emin; lia).
  replace (Z.min (e1 - e2 - 53) (e1 - e2)) with (e1 - e2 - 53) by lia.
  replace (e1 - e2 - (e1 - e2 - 53)) with 53 by lia.
  cbv iota. rewrite Z.shiftl_mul_pow2 by lia.
  rewrite div_eucl_div_mod. rewrite new_location_loc_of by lia.
  pose proof (digits2_pos_bounds m1) as B1. pose proof (digits2_pos_bounds m2) as B2.
  rewrite H1 in B1. rewrite H2 in B2.
  change (2 ^ (53 - 1)) with 4503599627370496 in *.
  change (2 ^ 53) with 9007199254740992 in *.
  set (N := Z.pos m1 * 9007199254740992).
  assert (Hq : 2 ^ 52 <= N / Zpos m2 < 2 ^ 54).
  { change (2 ^ 52) with 4503599627370496. change (2 ^ 54) with 18014398509481984.
    split.
    - apply Z.div_le_lower_bound; unfold N; lia.
    - apply Z.div_lt_upper_bound; unfold N; lia. }
  assert (Hq0 : 0 < N / Zpos m2) by (change (2 ^ 52) with 4503599627370496 in Hq; lia).
  pose proof (Zdigits2_range _ 52 54 Hq0 Hq ltac:(lia) ltac:(lia)) as Hd.
  destruct (round_aux_real (xorb s1 s2) N (Zpos m2) (e1 - e2 - 53))
    as (m' & e' & Hr & Hdig & He' & Herr); [lia|done|lia|lia|lia|].
  exists m', e'. split; [done|]. split; [done|]. split; [done|].
  replace (IZR (Z.pos m1) * pow2 e1 / (IZR (Z.pos m2) * pow2 e2))%R
    with (IZR N / IZR (Z.pos m2) * pow2 (e1 - e2 - 53))%R; [done|].
  unfold N. rewrite mult_IZR.
  assert (Hpow : (pow2 e1 = pow2 (e1 - e2 - 53) * pow2 e2 * 9007199254740992)%R).
  { replace e1 with ((e1 - e2 - 53) + e2 + 53) at 1 by lia.
    rewrite !pow2_add, (pow2_IZR 53) by lia. done. }
  rewrite Hpow.
  pose proof (pow2_pos e2). pose proof (pow2_pos (e1 - e2 - 53)).
  assert (0 < IZR (Z.pos m2))%R by (apply IZR_lt; lia).
  field. lra.
Qed.

(** ** Operations on floats that are zero or normal *)

Lemma u64_bounds : (0 < u64 < / 1000)%R.
Proof. unfold u64. lra. Qed.

Lemma rel_bounds (x y : R) :
  rel x y -> ((1 - u64) * Rabs x <= Rabs y <= (1 + u64) * Rabs x)%R.
Proof.
  unfold rel. intros H.
  pose proof (Rabs_triang_inv y x). pose proof (Rabs_triang_inv x y).
  rewrite (Rabs_minus_sym x y) in *. lra.
Qed.

Lemma rel_refl (x : R) : rel x x.
Proof.
  unfold rel. replace (x - x)%R with 0%R by ring. rewrite Rabs_R0.
  pose proof u64_bounds. pose proof (Rabs_pos x). nra.
Qed.

(** A rounded magnitude, with its sign put back. *)
Lemma rel_sgn (s : bool) (X Y : R) :
  (0 <= X)%R -> (Rabs (Y - X) <= u64 * X)%R -> rel (sgn s * X) (sgn s * Y).
Proof.
  intros HX H. unfold rel.
  rewrite <- Rmult_minus_distr_l, !sgn_abs, (Rabs_pos_eq X) by done. done.
Qed.

Lemma pow2_m1 : pow2 (-1) = (/ 2)%R.
Proof. unfold pow2. simpl. lra. Qed.

Lemma pow2_1 : pow2 1 = 2%R.
Proof. unfold pow2. simpl. lra. Qed.

Lemma pow2_opp (e : Z) : pow2 (- e) = (/ pow2 e)%R.
Proof.
  pose proof (pow2_pos e).
  apply Rmult_eq_reg_r with (pow2 e); [|lra].
  rewrite <- pow2_add, Rinv_l by lra. by replace (- e + e) with 0 by lia.
Qed.

Lemma F2R_zero (f : float) : sf_is_zero (Prim2SF f) -> F2R f = 0%R.
Proof. unfold F2R. by intros [s ->]. Qed.

Lemma F2R_finite (f : float) (s : bool) (m : positive) (e : Z) :
  Prim2SF f = S754_finite s m e -> F2R f = (sgn s * (IZR (Zpos m) * pow2 e))%R.
Proof. unfold F2R. by intros ->. Qed.

Lemma mag_pos (m : positive) (e : Z) : (0 < IZR (Zpos m) * pow2 e)%R.
Proof. apply Rmult_lt_0_compat; [apply IZR_lt; lia|apply pow2_pos]. Qed.

Lemma F2R_abs (f : float) (s : bool) (m : positive) (e : Z) :
  Prim2SF f = S754_finite s m e -> Rabs (F2R f) = (IZR (Zpos m) * pow2 e)%R.
Proof.
  intros Hf. rewrite (F2R_finite _ _ _ _ Hf), sgn_abs.
  apply Rabs_pos_eq, Rlt_le, mag_pos.
Qed.

Lemma normal_nonzero (f : float) : normal (Prim2SF f) -> (0 < Rabs (F2R f))%R.
Proof. intros (s & m & e & Hf & _). rewrite (F2R_abs _ _ _ _ Hf). apply mag_pos. Qed.

Lemma finite64_zero_iff (f : float) : finite64 f -> sf_is_zero (Prim2SF f) <-> F2R f = 0%R.
Proof.
  intros [Hz|Hn]; [split; [by apply F2R_zero|done]|].
  pose proof (normal_nonzero _ Hn) as Hpos.
  split.
  - intros [z Hz]. destruct Hn as (s & m & e & Hf & _). congruence.
  - intros H0. rewrite H0, Rabs_R0 in Hpos. lra.
Qed.

Lemma okr_finite64 (f : float) (lo hi : Z) : okr f lo hi -> finite64 f.
Proof. intros [?|[? _]]; [by left|by right]. Qed.

Lemma okr_exponent (f : float) (lo hi : Z) (s : bool) (m : positive) (e : Z) :
  Prim2SF f = S754_finite s m e -> Zpos (digits2_pos m) = 53 ->
  (pow2 lo <= Rabs (F2R f) <= pow2 hi)%R -> lo - 52 <= e <= hi - 52.
Proof.
  intros Hf Hd [Hlo Hhi]. rewrite (F2R_abs _ _ _ _ Hf) in Hlo, Hhi.
  pose proof (normal_bounds m e Hd) as [Hb1 Hb2].
  assert (lo < 53 + e) by (apply pow2_lt_inv; lra).
  assert (52 + e <= hi) by (apply pow2_le_inv; lra).
  lia.
Qed.

Lemma valid_normal (s : bool) (m : positive) (e : Z) :
  Zpos (digits2_pos m) = 53 -> -1074 <= e <= 971 ->
  valid_binary (S754_finite s m e) = true.
Proof.
  intros Hd He. unfold valid_binary, SpecFloat.valid_binary.
  change FloatOps.prec with 53. change FloatOps.emax with 1024.
  unfold SpecFloat.bounded, SpecFloat.canonical_mantissa.
  rewrite Hd. unfold fexp, emin.
  apply andb_true_intro. split; [apply Z.eqb_eq|apply Z.leb_le]; lia.
Qed.

(** [float64(n)] for a machine integer [n]. *)
Lemma F_of_int (n : Z) :
  - 2 ^ 63 <= n < 2 ^ 63 ->
  okr (float64_of_int n) (-1) 64 /\ rel (IZR n) (F2R (float64_of_int n)).
Proof.
  intros Hn. unfold float64_of_int.
  change FloatOps.prec with 53. change FloatOps.emax with 1024.
  assert (Hcase : forall (s : bool) (p : positive),
             Zpos p <= 2 ^ 63 ->
             okr (SF2Prim (binary_normalize 53 1024 (cond_Zopp s (Zpos p)) 0 false)) (-1) 64
             /\ rel (IZR (cond_Zopp s (Zpos p)))
                  (F2R (SF2Prim (binary_normalize 53 1024 (cond_Zopp s (Zpos p)) 0 false)))).
  { intros s p Hp.
    assert (Hd : 1 <= Zpos (digits2_pos p) <= 64).
    { pose proof (Zdigits2_range (Zpos p) 0 64 ltac:(lia)
                    ltac:(change (2 ^ 63) with 9223372036854775808 in Hp;
                          change (2 ^ 64) with 18446744073709551616; simpl (2 ^ 0); lia)
                    ltac:(lia) ltac:(lia)) as H. simpl Zdigits2 in H. lia. }
    destruct (normalize_real s p 0) as (m & e & Hr & Hdig & He & Herr); [lia|lia|].
    rewrite Hr.
    assert (Hf : Prim2SF (SF2Prim (S754_finite s m e)) = S754_finite s m e)
      by (apply Prim2SF_SF2Prim; by apply valid_normal).
    replace (pow2 0) with 1%R in Herr by done. rewrite !Rmult_1_r in Herr.
    assert (Hpos : (1 <= IZR (Zpos p) <= 9223372036854775808)%R).
    { split; apply IZR_le; change (2 ^ 63) with 9223372036854775808 in Hp; lia. }
    assert (Hrel : rel (IZR (cond_Zopp s (Zpos p))) (F2R (SF2Prim (S754_finite s m e)))).
    { rewrite (F2R_finite _ _ _ _ Hf), cond_Zopp_IZR. apply rel_sgn; [lra|done]. }
    split; [|done].
    right. split; [exists s, m, e; by rewrite Hf|].
    apply rel_bounds in Hrel. rewrite cond_Zopp_IZR, sgn_abs in Hrel.
    rewrite (Rabs_pos_eq (IZR (Zpos p))) in Hrel by lra.
    rewrite pow2_m1, (pow2_IZR 64) by lia.
    change (2 ^ 64) with 18446744073709551616.
    pose proof u64_bounds. nra. }
  destruct n as [|p|p].
  - simpl binary_normalize.
    assert (Hz : Prim2SF (SF2Prim (S754_zero false)) = S754_zero false)
      by (by apply Prim2SF_SF2Prim).
    split; [left; by exists false|].
    rewrite (F2R_zero _ ltac:(by exists false)). apply rel_refl.
  - apply (Hcase false p). lia.
  - apply (Hcase true p). lia.
Qed.

Lemma F_mul (f1 f2 : float) (l1 h1 l2 h2 : Z) :
  okr f1 l1 h1 -> okr f2 l2 h2 ->
  -400 <= l1 -> h1 <= 400 -> -400 <= l2 -> h2 <= 400 ->
  okr (f1 * f2) (l1 + l2 - 1) (h1 + h2 + 1)
  /\ rel (F2R f1 * F2R f2) (F2R (f1 * f2)).
Proof.
  intros H1 H2 Hl1 Hh1 Hl2 Hh2.
  pose proof (mul_spec f1 f2) as Hspec. unfold SF64mul in Hspec.
  change FloatOps.prec with 53 in Hspec. change FloatOps.emax with 1024 in Hspec.
  destruct H1 as [[z1 Hz1]|[(s1 & m1 & e1 & Hf1 & Hd1 & He1) Hr1]].
  { assert (Hz : sf_is_zero (Prim2SF (f1 * f2))).
    { rewrite Hspec, Hz1.
      destruct H2 as [[z2 ->]|[(s2 & m2 & e2 & -> & _) _]]; by eexists. }
    split; [by left|].
    rewrite (F2R_zero _ Hz), (F2R_zero f1) by (by exists z1).
    rewrite Rmult_0_l. apply rel_refl. }
  destruct H2 as [[z2 Hz2]|[(s2 & m2 & e2 & Hf2 & Hd2 & He2) Hr2]].
  { assert (Hz : sf_is_zero (Prim2SF (f1 * f2))) by (rewrite Hspec, Hf1, Hz2; by eexists).
    split; [by left|].
    rewrite (F2R_zero _ Hz), (F2R_zero f2) by (by exists z2).
    rewrite Rmult_0_r. apply rel_refl. }
  pose proof (okr_exponent _ _ _ _ _ _ Hf1 Hd1 Hr1) as Hx1.
  pose proof (okr_exponent _ _ _ _ _ _ Hf2 Hd2 Hr2) as Hx2.
  destruct (SFmul_real s1 s2 m1 m2 e1 e2 Hd1 Hd2 ltac:(lia)) as (m & e & Hm & Hd & He & Herr).
  rewrite Hf1, Hf2, Hm in Hspec.
  pose proof (mag_pos m1 e1). pose proof (mag_pos m2 e2).
  assert (Hrel : rel (F2R f1 * F2R f2) (F2R (f1 * f2))).
  { rewrite (F2R_finite _ _ _ _ Hspec), (F2R_finite _ _ _ _ Hf1), (F2R_finite _ _ _ _ Hf2).
    replace (sgn s1 * (IZR (Z.pos m1) * pow2 e1) * (sgn s2 * (IZR (Z.pos m2) * pow2 e2)))%R
      with (sgn (xorb s1 s2) * (IZR (Z.pos m1) * pow2 e1 * (IZR (Z.pos m2) * pow2 e2)))%R
      by (rewrite sgn_xorb; ring).
    apply rel_sgn; [nra|done]. }
  split; [|done]. right. split; [by exists (xorb s1 s2), m, e|].
  apply rel_bounds in Hrel. rewrite Rabs_mult in Hrel.
  replace (l1 + l2 - 1) with (l1 + l2 + -1) by lia.
  rewrite !pow2_add, pow2_m1, pow2_1.
  pose proof (pow2_pos l1). pose proof (pow2_pos l2).
  pose proof (pow2_pos h1). pose proof (pow2_pos h2).
  pose proof u64_bounds.
  assert (pow2 l1 * pow2 l2 <= Rabs (F2R f1) * Rabs (F2R f2))%R
    by (apply Rmult_le_compat; lra).
  assert (Rabs (F2R f1) * Rabs (F2R f2) <= pow2 h1 * pow2 h2)%R
    by (apply Rmult_le_compat; lra).
  nra.
Qed.

Lemma F_div (f1 f2 : float) (l1 h1 l2 h2 : Z) :
  okr f1 l1 h1 -> normal (Prim2SF f2) -> (pow2 l2 <= Rabs (F2R f2) <= pow2 h2)%R ->
  -400 <= l1 -> h1 <= 400 -> -400 <= l2 -> h2 <= 400 ->
  okr (f1 / f2) (l1 - h2 - 1) (h1 - l2 + 1)
  /\ rel (F2R f1 / F2R f2) (F2R (f1 / f2)).
Proof.
  intros H1 (s2 & m2 & e2 & Hf2 & Hd2 & He2) Hr2 Hl1 Hh1 Hl2 Hh2.
  pose proof (div_spec f1 f2) as Hspec. unfold SF64div in Hspec.
  change FloatOps.prec with 53 in Hspec. change FloatOps.emax with 1024 in Hspec.
  destruct H1 as [[z1 Hz1]|[(s1 & m1 & e1 & Hf1 & Hd1 & He1) Hr1]].
  { assert (Hz : sf_is_zero (Prim2SF (f1 / f2))) by (rewrite Hspec, Hz1, Hf2; by eexists).
    split; [by left|].
    rewrite (F2R_zero _ Hz), (F2R_zero f1) by (by exists z1).
    unfold Rdiv. rewrite Rmult_0_l. apply rel_refl. }
  pose proof (okr_exponent _ _ _ _ _ _ Hf1 Hd1 Hr1) as Hx1.
  pose proof (okr_exponent _ _ _ _ _ _ Hf2 Hd2 Hr2) as Hx2.
  destruct (SFdiv_real s1 s2 m1 m2 e1 e2 Hd1 Hd2 ltac:(lia)) as (m & e & Hm & Hd & He & Herr).
  rewrite Hf1, Hf2, Hm in Hspec.
  pose proof (mag_pos m1 e1) as Hp1. pose proof (mag_pos m2 e2) as Hp2.
  assert (Hs2 : (sgn s2 <> 0)%R) by (destruct s2; unfold sgn; lra).
  assert (Hrel : rel (F2R f1 / F2R f2) (F2R (f1 / f2))).
  { rewrite (F2R_finite _ _ _ _ Hspec), (F2R_finite _ _ _ _ Hf1), (F2R_finite _ _ _ _ Hf2).
    replace (sgn s1 * (IZR (Z.pos m1) * pow2 e1) / (sgn s2 * (IZR (Z.pos m2) * pow2 e2)))%R
      with (sgn (xorb s1 s2) * (IZR (Z.pos m1) * pow2 e1 / (IZR (Z.pos m2) * pow2 e2)))%R.
    - apply rel_sgn; [|done]. apply Rlt_le, Rdiv_lt_0_compat; lra.
    - pose proof (pow2_pos e2). assert (0 < IZR (Z.pos m2))%R by (apply IZR_lt; lia).
      rewrite sgn_xorb. destruct s1, s2; unfold sgn; field; split; lra. }
  split; [|done]. right. split; [by exists (xorb s1 s2), m, e|].
  apply rel_bounds in Hrel.
  assert (Hx2pos : (0 < Rabs (F2R f2))%R) by (rewrite (F2R_abs _ _ _ _ Hf2); lra).
  assert (Hne : (F2R f2 <> 0)%R) by (intros H0; rewrite H0, Rabs_R0 in Hx2pos; lra).
  unfold Rdiv in Hrel. rewrite Rabs_mult, Rabs_inv in Hrel.
  pose proof (pow2_pos l1). pose proof (pow2_pos l2).
  pose proof (pow2_pos h1). pose proof (pow2_pos h2).
  pose proof u64_bounds.
  replace (l1 - h2 - 1) with (l1 + - h2 + -1) by lia.
  replace (h1 - l2 + 1) with (h1 + - l2 + 1) by lia.
  rewrite !pow2_add, pow2_m1, pow2_1, !pow2_opp.
  set (x1 := Rabs (F2R f1)) in *. set (x2 := Rabs (F2R f2)) in *.
  assert (Hlo : (pow2 l1 * / pow2 h2 <= x1 * / x2)%R).
  { apply Rmult_le_compat; [lra| |lra|].
    - apply Rlt_le, Rinv_0_lt_compat. lra.
    - apply Rinv_le_contravar; lra. }
  assert (Hhi : (x1 * / x2 <= pow2 h1 * / pow2 l2)%R).
  { apply Rmult_le_compat; [lra| |lra|].
    - apply Rlt_le, Rinv_0_lt_compat. lra.
    - apply Rinv_le_contravar; lra. }
  assert (0 < pow2 l1 * / pow2 h2)%R.
  { apply Rmult_lt_0_compat; [lra|]. apply Rinv_0_lt_compat. lra. }
  nra.
Qed.

Lemma F_add (f1 f2 : float) (l1 h1 l2 h2 : Z) :
  okr f1 l1 h1 -> okr f2 l2 h2 ->
  -400 <= l1 -> h1 <= 400 -> -400 <= l2 -> h2 <= 400 ->
  okr (f1 + f2) (Z.min l1 l2 - 53) (Z.max h1 h2 + 2)
  /\ rel (F2R f1 + F2R f2) (F2R (f1 + f2)).
Proof.
  intros H1 H2 Hl1 Hh1 Hl2 Hh2.
  pose proof (add_spec f1 f2) as Hspec. unfold SF64add in Hspec.
  change FloatOps.prec with 53 in Hspec. change FloatOps.emax with 1024 in Hspec.
  destruct H1 as [[z1 Hz1]|[(s1 & m1 & e1 & Hf1 & Hd1 & He1) Hr1]].
  { destruct H2 as [[z2 Hz2]|[(s2 & m2 & e2 & Hf2 & Hd2 & He2) Hr2]].
    - assert (Hz : sf_is_zero (Prim2SF (f1 + f2))).
      { rewrite Hspec, Hz1, Hz2. destruct z1, z2; by eexists. }
      split; [by left|].
      rewrite (F2R_zero _ Hz), (F2R_zero f1), (F2R_zero f2) by (by eexists).
      rewrite Rplus_0_l. apply rel_refl.
    - assert (Hs : Prim2SF (f1 + f2) = Prim2SF f2) by (by rewrite Hspec, Hz1, Hf2).
      assert (HR : F2R (f1 + f2) = F2R f2) by (unfold F2R; by rewrite Hs).
      split.
      + right. rewrite Hs, HR. split; [by exists s2, m2, e2|].
        pose proof (pow2_le (Z.min l1 l2 - 53) l2 ltac:(lia)).
        pose proof (pow2_le h2 (Z.max h1 h2 + 2) ltac:(lia)). lra.
      + rewrite HR, (F2R_zero f1), Rplus_0_l by (by eexists). apply rel_refl. }
  destruct H2 as [[z2 Hz2]|[(s2 & m2 & e2 & Hf2 & Hd2 & He2) Hr2]].
  { assert (Hs : Prim2SF (f1 + f2) = Prim2SF f1) by (by rewrite Hspec, Hf1, Hz2).
    assert (HR : F2R (f1 + f2) = F2R f1) by (unfold F2R; by rewrite Hs).
    split.
    + right. rewrite Hs, HR. split; [by exists s1, m1, e1|].
      pose proof (pow2_le (Z.min l1 l2 - 53) l1 ltac:(lia)).
      pose proof (pow2_le h1 (Z.max h1 h2 + 2) ltac:(lia)). lra.
    + rewrite HR, (F2R_zero f2), Rplus_0_r by (by eexists). apply rel_refl. }
  pose proof (okr_exponent _ _ _ _ _ _ Hf1 Hd1 Hr1) as Hx1.
  pose proof (okr_exponent _ _ _ _ _ _ Hf2 Hd2 Hr2) as Hx2.
  pose proof (SFadd_real s1 s2 m1 m2 e1 e2 Hd1 Hd2 ltac:(lia) ltac:(lia)) as Hadd.
  cbv zeta in Hadd. rewrite Hf1, Hf2 in Hspec. rewrite <- Hspec in Hadd.
  rewrite <- (F2R_finite _ _ _ _ Hf1), <- (F2R_finite _ _ _ _ Hf2) in Hadd.
  destruct Hadd as [[Hz Hv]|(s & m & e & Hm & Hd & He & Herr & Hmin)].
  { split; [left; by exists false|].
    rewrite (F2R_zero (f1 + f2)), Hv by (by exists false). apply rel_refl. }
  assert (Hrel : rel (F2R f1 + F2R f2) (F2R (f1 + f2))).
  { unfold rel. by rewrite (F2R_finite _ _ _ _ Hm). }
  split; [|done]. right. split; [by exists s, m, e|].
  apply rel_bounds in Hrel.
  pose proof (pow2_le (Z.min l1 l2 - 52) (Z.min e1 e2) ltac:(lia)) as Hlo.
  pose proof (pow2_le h1 (Z.max h1 h2) ltac:(lia)) as Hhi1.
  pose proof (pow2_le h2 (Z.max h1 h2) ltac:(lia)) as Hhi2.
  pose proof (Rabs_triang (F2R f1) (F2R f2)) as Htri.
  replace (Z.min l1 l2 - 52) with (Z.min l1 l2 - 53 + 1) in Hlo by lia.
  replace (Z.max h1 h2 + 2) with (Z.max h1 h2 + 1 + 1) by lia.
  rewrite !pow2_add, pow2_1 in *.
  pose proof (pow2_pos (Z.min l1 l2 - 53)). pose proof (pow2_pos (Z.max h1 h2)).
  pose proof u64_bounds.
  nra.
Qed.

Lemma F_hundred :
  normal (Prim2SF 100%float) /\ F2R 100%float = 100%R.
Proof.
  assert (Hf : Prim2SF 100%float = S754_finite false 7036874417766400 (-46))
    by (vm_compute; reflexivity).
  split.
  - exists false, 7036874417766400%positive, (-46).
    split; [done|]. split; [by vm_compute|lia].
  - rewrite (F2R_finite _ _ _ _ Hf). unfold sgn. rewrite Rmult_1_l.
    apply Rmult_eq_reg_r with (pow2 46); [|pose proof (pow2_pos 46); lra].
    rewrite Rmult_assoc, <- pow2_add. replace (-46 + 46) with 0 by lia.
    rewrite (pow2_IZR 46) by lia. change (pow2 0) with 1%R.
    change (2 ^ 46) with 70368744177664. lra.
Qed.

Lemma F_two :
  normal (Prim2SF 2%float) /\ F2R 2%float = 2%R.
Proof.
  assert (Hf : Prim2SF 2%float = S754_finite false 4503599627370496 (-51))
    by (vm_compute; reflexivity).
  split.
  - exists false, 4503599627370496%positive, (-51).
    split; [done|]. split; [by vm_compute|lia].
  - rewrite (F2R_finite _ _ _ _ Hf). unfold sgn. rewrite Rmult_1_l.
    apply Rmult_eq_reg_r with (pow2 51); [|pose proof (pow2_pos 51); lra].
    rewrite Rmult_assoc, <- pow2_add. replace (-51 + 51) with 0 by lia.
    rewrite (pow2_IZR 51) by lia. change (pow2 0) with 1%R.
    change (2 ^ 51) with 2251799813685248. lra.
Qed.

(** Go's [f == 0] holds of the two zeros only. *)
Lemma F_eqb_zero (f : float) :
  finite64 f -> PrimFloat.eqb f 0 = true <-> sf_is_zero (Prim2SF f).
Proof.
  intros Hf. rewrite FloatAxioms.eqb_spec.
  change (Prim2SF 0) with (S754_zero false).
  destruct Hf as [[z ->]|(s & m & e & -> & _)].
  - split; [by eexists|]. by destruct z.
  - split; [by destruct s|]. by intros [z Hz].
Qed.

(** ** Accumulated rounding error *)

Lemma err_rel (x y : R) : rel x y -> err u64 (Rabs x) x y.
Proof. intros H. split; [exact H|lra]. Qed.

Lemma err_weight (c w x y : R) : err c w x y -> (0 <= w)%R.
Proof. intros [_ H]. pose proof (Rabs_pos x). lra. Qed.

Lemma err_rnd (c w x y z : R) :
  (0 <= c)%R -> err c w x y -> rel y z -> err (rnd c) w x z.
Proof.
  unfold err, rel, rnd. intros Hc [H1 H2] H3. split; [|done].
  pose proof (Rabs_triang (z - y) (y - x)) as Ht.
  replace (z - y + (y - x))%R with (z - x)%R in Ht by ring.
  pose proof (Rabs_triang (y - x) x) as Hy.
  replace (y - x + x)%R with y in Hy by ring.
  pose proof u64_bounds. pose proof (Rabs_pos (y - x)). pose proof (Rabs_pos x).
  nra.
Qed.

Lemma err_scale (c w x y k : R) :
  (0 <= k)%R -> err c w x y -> err c (w * k) (x * k) (y * k).
Proof.
  unfold err. intros Hk [H1 H2].
  rewrite <- Rmult_minus_distr_r, !Rabs_mult, (Rabs_pos_eq k) by done.
  split; nra.
Qed.

Lemma err_add (c w1 w2 x1 y1 x2 y2 : R) :
  err c w1 x1 y1 -> err c w2 x2 y2 -> err c (w1 + w2) (x1 + x2) (y1 + y2).
Proof.
  unfold err. intros [H1 H2] [H3 H4].
  pose proof (Rabs_triang (y1 - x1) (y2 - x2)) as Ht.
  replace (y1 - x1 + (y2 - x2))%R with (y1 + y2 - (x1 + x2))%R in Ht by ring.
  pose proof (Rabs_triang x1 x2). split; lra.
Qed.

Lemma err_mul (c1 c2 w1 w2 x1 y1 x2 y2 : R) :
  (0 <= c1)%R -> (0 <= c2)%R ->
  err c1 w1 x1 y1 -> err c2 w2 x2 y2 ->
  err (c1 + c2 + c1 * c2) (w1 * w2) (x1 * x2) (y1 * y2).
Proof.
  unfold err. intros Hc1 Hc2 [H1 H2] [H3 H4].
  pose proof (Rabs_pos x1). pose proof (Rabs_pos x2).
  pose proof (Rabs_pos (y1 - x1)). pose proof (Rabs_pos (y2 - x2)).
  split; [|rewrite Rabs_mult; nra].
  replace (y1 * y2 - x1 * x2)%R with ((y1 - x1) * y2 + x1 * (y2 - x2))%R by ring.
  pose proof (Rabs_triang ((y1 - x1) * y2) (x1 * (y2 - x2))) as Ht.
  rewrite !Rabs_mult in Ht.
  pose proof (Rabs_triang (y2 - x2) x2) as Hy.
  replace (y2 - x2 + x2)%R with y2 in Hy by ring.
  pose proof (Rabs_pos y2).
  assert (Rabs (y1 - x1) * Rabs y2 <= c1 * w1 * (w2 + c2 * w2))%R.
  { apply Rmult_le_compat; lra. }
  assert (Rabs x1 * Rabs (y2 - x2) <= w1 * (c2 * w2))%R.
  { apply Rmult_le_compat; lra. }
  nra.
Qed.

Lemma err_div (c cT w s S D T : R) :
  (0 <= c)%R -> (0 <= cT < 1)%R -> (0 < D)%R ->
  err c w s S -> (Rabs (T - D) <= cT * D)%R ->
  err ((c + cT) / (1 - cT)) (w / D) (s / D) (S / T).
Proof.
  intros Hc HcT HD [H1 H2] HT.
  pose proof (Rabs_pos s) as Hs0.
  assert (Hw : (0 <= w)%R) by lra.
  pose proof (Rle_abs (T - D)) as Ha1.
  pose proof (Rle_abs (- (T - D))) as Ha2. rewrite Rabs_Ropp in Ha2.
  assert (HTlo : ((1 - cT) * D <= T)%R) by lra.
  assert (HTpos : (0 < T)%R) by nra.
  assert (HDinv : (0 < / D)%R) by (by apply Rinv_0_lt_compat).
  split.
  - replace (S / T - s / D)%R with (((S - s) * D - s * (T - D)) * / (T * D))%R
      by (field; lra).
    assert (HTD : (0 < T * D)%R) by nra.
    rewrite Rabs_mult, Rabs_inv, (Rabs_pos_eq (T * D)) by lra.
    assert (Hnum : (Rabs ((S - s) * D - s * (T - D)) <= (c + cT) * w * D)%R).
    { pose proof (Rabs_triang ((S - s) * D) (- (s * (T - D)))) as Ht.
      replace ((S - s) * D + - (s * (T - D)))%R with ((S - s) * D - s * (T - D))%R
        in Ht by ring.
      rewrite Rabs_Ropp, !Rabs_mult, (Rabs_pos_eq D) in Ht by lra.
      pose proof (Rabs_pos (S - s)). pose proof (Rabs_pos (T - D)).
      assert (Rabs (S - s) * D <= c * w * D)%R by nra.
      assert (Rabs s * Rabs (T - D) <= w * (cT * D))%R by (apply Rmult_le_compat; lra).
      lra. }
    apply Rle_trans with ((c + cT) * w * D * / (T * D))%R.
    { apply Rmult_le_compat_r; [|done]. apply Rlt_le, Rinv_0_lt_compat. lra. }
    replace ((c + cT) * w * D * / (T * D))%R with ((c + cT) * w * / T)%R by (field; lra).
    replace ((c + cT) / (1 - cT) * (w / D))%R
      with ((c + cT) * w * / ((1 - cT) * D))%R by (field; lra).
    apply Rmult_le_compat_l; [nra|].
    apply Rinv_le_contravar; [nra|lra].
  - unfold Rdiv. rewrite Rabs_mult, Rabs_inv, (Rabs_pos_eq D) by lra. nra.
Qed.

Lemma err_bound (c c' w x y : R) :
  (c <= c')%R -> err c w x y -> (Rabs (y - x) <= c' * w)%R.
Proof. intros Hc H. pose proof (err_weight _ _ _ _ H). destruct H as [H _]. nra. Qed.

(** ** The rounding error of the microprice *)

Lemma price_dollars (p : Z) :
  - 2 ^ 63 <= p < 2 ^ 63 ->
  okr (float64_of_int p / 100) (-9) 59
  /\ err (rnd u64) (Rabs (IZR p) / 100) (IZR p / 100) (F2R (float64_of_int p / 100)).
Proof.
  intros Hp. destruct (F_of_int p Hp) as [Hok Hrel].
  destruct F_hundred as [Hn H100].
  destruct (F_div (float64_of_int p) 100 (-1) 64 6 7 Hok Hn) as [Hok' Hrel'];
    try lia.
  { rewrite H100, (pow2_IZR 6), (pow2_IZR 7), Rabs_pos_eq by (lia || lra). simpl. lra. }
  split; [exact Hok'|].
  rewrite H100 in Hrel'. pose proof u64_bounds.
  apply (err_rnd _ _ _ (F2R (float64_of_int p) / 100)); [lra| |done].
  unfold Rdiv. apply err_scale; [lra|]. by apply err_rel.
Qed.

Lemma quantity_float (q : Z) :
  0 <= q < 2 ^ 63 ->
  okr (float64_of_int q) (-1) 64 /\ err u64 (IZR q) (IZR q) (F2R (float64_of_int q)).
Proof.
  intros Hq. destruct (F_of_int q ltac:(lia)) as [Hok Hrel].
  split; [done|]. apply err_rel in Hrel.
  rewrite Rabs_pos_eq in Hrel; [done|]. apply IZR_le. lia.
Qed.

Lemma totalQty_spec (qb qa : Z) :
  0 <= qb < 2 ^ 63 -> 0 <= qa < 2 ^ 63 ->
  let totalQty := (float64_of_int qb + float64_of_int qa)%float in
  okr totalQty (-54) 66
  /\ (Rabs (F2R totalQty - (IZR qb + IZR qa)) <= rnd u64 * (IZR qb + IZR qa))%R
  /\ (PrimFloat.eqb totalQty 0 = true <-> qb + qa = 0).
Proof.
  intros Hqb Hqa totalQty.
  destruct (quantity_float qb Hqb) as [Hokb Herrb].
  destruct (quantity_float qa Hqa) as [Hoka Herra].
  destruct (F_add _ _ (-1) 64 (-1) 64 Hokb Hoka) as [Hok Hrel]; try lia.
  pose proof u64_bounds as Hu.
  assert (Herr : err (rnd u64) (IZR qb + IZR qa) (IZR qb + IZR qa) (F2R totalQty)).
  { apply (err_rnd _ _ _ (F2R (float64_of_int qb) + F2R (float64_of_int qa))); [lra| |done].
    by apply err_add. }
  split; [exact Hok|]. split; [apply Herr|].
  unfold totalQty. rewrite (F_eqb_zero _ (okr_finite64 _ _ _ Hok)).
  rewrite (finite64_zero_iff _ (okr_finite64 _ _ _ Hok)).
  destruct Herr as [Herr _]. fold totalQty.
  assert (HD : (0 <= IZR qb + IZR qa)%R).
  { rewrite <- plus_IZR. apply IZR_le. lia. }
  assert (Hc : (rnd u64 < 1)%R) by (unfold rnd; nra).
  split.
  - intros H0. rewrite H0 in Herr.
    replace (0 - (IZR qb + IZR qa))%R with (- (IZR qb + IZR qa))%R in Herr by ring.
    rewrite Rabs_Ropp, Rabs_pos_eq in Herr by done.
    assert (H : (IZR qb + IZR qa = 0)%R) by nra.
    rewrite <- plus_IZR in H. by apply eq_IZR in H.
  - intros H0. rewrite <- plus_IZR, H0 in Herr.
    rewrite Rmult_0_r, Rminus_0_r in Herr.
    pose proof (Rabs_pos (F2R totalQty)).
    destruct (Req_dec (F2R totalQty) 0) as [|Hne]; [done|].
    apply Rabs_pos_lt in Hne. lra.
Qed.

(** The float64 computation of the microprice returns a zero or a normal
    number. Its distance to the exact value is at most [2^-49] times the
    value of the formula on the magnitudes of the two prices. *)
Lemma Microprice_error (pb pa qb qa : Z) :
  - 2 ^ 63 <= pb < 2 ^ 63 -> - 2 ^ 63 <= pa < 2 ^ 63 ->
  0 <= qb < 2 ^ 63 -> 0 <= qa < 2 ^ 63 ->
  let bestBid := (float64_of_int pb / 100)%float in
  let bestAsk := (float64_of_int pa / 100)%float in
  let bidQty := float64_of_int qb in
  let askQty := float64_of_int qa in
  let totalQty := (bidQty + askQty)%float in
  let m := if PrimFloat.eqb totalQty 0 then ((bestBid + bestAsk) / 2)%float
           else ((bestBid * askQty + bestAsk * bidQty) / totalQty)%float in
  let x := if qb + qa =? 0 then ((IZR pb / 100 + IZR pa / 100) / 2)%R
           else ((IZR pb / 100 * IZR qa + IZR pa / 100 * IZR qb)
                 / (IZR qb + IZR qa))%R in
  let w := if qb + qa =? 0 then ((Rabs (IZR pb) / 100 + Rabs (IZR pa) / 100) / 2)%R
           else ((Rabs (IZR pb) / 100 * IZR qa + Rabs (IZR pa) / 100 * IZR qb)
                 / (IZR qb + IZR qa))%R in
  finite64 m /\ (Rabs (F2R m - x) <= u49 * w)%R.
Proof.
  intros Hpb Hpa Hqb Hqa bestBid bestAsk bidQty askQty totalQty m x w.
  destruct (price_dollars pb Hpb) as [HokB HeB]. fold bestBid in HokB, HeB.
  destruct (price_dollars pa Hpa) as [HokA HeA]. fold bestAsk in HokA, HeA.
  destruct (quantity_float qb Hqb) as [Hokb Heb]. fold bidQty in Hokb, Heb.
  destruct (quantity_float qa Hqa) as [Hoka Hea]. fold askQty in Hoka, Hea.
  destruct (totalQty_spec qb qa Hqb Hqa) as (HokT & HeT & HzT).
  fold bidQty askQty totalQty in HokT, HeT, HzT.
  pose proof u64_bounds as Hu.
  assert (Hc1 : (0 <= rnd u64 < / 100)%R) by (unfold rnd; nra).
  unfold m, x, w. destruct (Z.eqb_spec (qb + qa) 0) as [Hz|Hnz].
  - rewrite (proj2 HzT Hz).
    destruct (F_add bestBid bestAsk (-9) 59 (-9) 59 HokB HokA) as [HokS HrelS]; try lia.
    destruct F_two as [Hn2 H2].
    destruct (F_div (bestBid + bestAsk) 2 _ _ 1 1 HokS Hn2) as [HokM HrelM]; try lia.
    { rewrite H2, pow2_1, Rabs_pos_eq by lra. lra. }
    split; [by apply okr_finite64 in HokM|].
    rewrite H2 in HrelM.
    assert (He : err (rnd (rnd (rnd u64)))
                   ((Rabs (IZR pb) / 100 + Rabs (IZR pa) / 100) / 2)
                   ((IZR pb / 100 + IZR pa / 100) / 2)
                   (F2R ((bestBid + bestAsk) / 2))).
    { apply (err_rnd _ _ _ (F2R (bestBid + bestAsk) / 2)); [unfold rnd; nra| |done].
      unfold Rdiv. apply err_scale; [lra|].
      apply (err_rnd _ _ _ (F2R bestBid + F2R bestAsk)); [lra| |done].
      by apply err_add. }
    apply (err_bound (rnd (rnd (rnd u64)))); [unfold rnd, u49, u64; lra|exact He].
  - assert (HT : PrimFloat.eqb totalQty 0 = false).
    { destruct (PrimFloat.eqb totalQty 0) eqn:E; [|done]. exfalso. by apply Hnz, HzT. }
    rewrite HT.
    assert (HD : (0 < IZR qb + IZR qa)%R).
    { rewrite <- plus_IZR. apply IZR_lt. lia. }
    assert (HnT : normal (Prim2SF totalQty)
                  /\ (pow2 (-54) <= Rabs (F2R totalQty) <= pow2 66)%R).
    { destruct HokT as [Hz0|H]; [|done].
      apply F_eqb_zero in Hz0; [congruence|by left]. }
    destruct HnT as [HnT HrT].
    destruct (F_mul bestBid askQty _ _ _ _ HokB Hoka) as [HokP1 HrelP1]; try lia.
    destruct (F_mul bestAsk bidQty _ _ _ _ HokA Hokb) as [HokP2 HrelP2]; try lia.
    destruct (F_add _ _ _ _ _ _ HokP1 HokP2) as [HokS HrelS]; try lia.
    destruct (F_div _ totalQty _ _ _ _ HokS HnT HrT) as [HokM HrelM]; try lia.
    split; [by apply okr_finite64 in HokM|].
    set (cP := rnd (rnd u64 + u64 + rnd u64 * u64)).
    assert (HcP : (0 <= cP < / 100)%R) by (unfold cP, rnd; nra).
    assert (HeP1 : err cP (Rabs (IZR pb) / 100 * IZR qa) (IZR pb / 100 * IZR qa)
                     (F2R (bestBid * askQty))).
    { apply (err_rnd _ _ _ (F2R bestBid * F2R askQty)); [nra| |done].
      apply err_mul; [lra|lra|done|done]. }
    assert (HeP2 : err cP (Rabs (IZR pa) / 100 * IZR qb) (IZR pa / 100 * IZR qb)
                     (F2R (bestAsk * bidQty))).
    { apply (err_rnd _ _ _ (F2R bestAsk * F2R bidQty)); [nra| |done].
      apply err_mul; [lra|lra|done|done]. }
    assert (HeS : err (rnd cP)
                    (Rabs (IZR pb) / 100 * IZR qa + Rabs (IZR pa) / 100 * IZR qb)
                    (IZR pb / 100 * IZR qa + IZR pa / 100 * IZR qb)
                    (F2R (bestBid * askQty + bestAsk * bidQty))).
    { apply (err_rnd _ _ _ (F2R (bestBid * askQty) + F2R (bestAsk * bidQty))); [lra| |done].
      by apply err_add. }
    assert (HeQ : err (rnd ((rnd cP + rnd u64) / (1 - rnd u64)))
                    ((Rabs (IZR pb) / 100 * IZR qa + Rabs (IZR pa) / 100 * IZR qb)
                     / (IZR qb + IZR qa))
                    ((IZR pb / 100 * IZR qa + IZR pa / 100 * IZR qb) / (IZR qb + IZR qa))
                    (F2R ((bestBid * askQty + bestAsk * bidQty) / totalQty))).
    { apply (err_rnd _ _ _ (F2R (bestBid * askQty + bestAsk * bidQty) / F2R totalQty));
        [|by apply err_div; [unfold rnd; nra|lra|..]|done].
      apply Rmult_le_pos; [unfold rnd; nra|].
      apply Rlt_le, Rinv_0_lt_compat. lra. }
    apply (err_bound (rnd ((rnd cP + rnd u64) / (1 - rnd u64))));
      [unfold cP, rnd, u49, u64; lra|exact HeQ].
Qed.

(** A mean of two numbers with weights that are not negative lies between
    them. *)
Lemma weighted_mean_bounds (qb qa : Z) (B A : R) :
  (B <= A)%R -> 0 <= qb -> 0 <= qa ->
  let x := if qb + qa =? 0 then ((B + A) / 2)%R
           else ((B * IZR qa + A * IZR qb) / (IZR qb + IZR qa))%R in
  (B <= x <= A)%R.
Proof.
  intros HP Hqb Hqa x. unfold x.
  assert (Hxb : (0 <= IZR qb)%R) by (by apply IZR_le).
  assert (Hxa : (0 <= IZR qa)%R) by (by apply IZR_le).
  destruct (Z.eqb_spec (qb + qa) 0) as [Hz|Hnz]; [lra|].
  assert (Hden : (0 < IZR qb + IZR qa)%R).
  { rewrite <- plus_IZR. apply IZR_lt. lia. }
  split.
  - apply Rmult_le_reg_r with (IZR qb + IZR qa)%R; [done|].
    unfold Rdiv. rewrite Rmult_assoc, Rinv_l by lra. nra.
  - apply Rmult_le_reg_r with (IZR qb + IZR qa)%R; [done|].
    unfold Rdiv. rewrite Rmult_assoc, Rinv_l by lra. nra.
Qed.

(** The same mean of two magnitudes is at most the larger one. *)
Lemma weighted_mean_max (qb qa : Z) (B A : R) :
  (0 <= B)%R -> (0 <= A)%R -> 0 <= qb -> 0 <= qa ->
  let w := if qb + qa =? 0 then ((B + A) / 2)%R
           else ((B * IZR qa + A * IZR qb) / (IZR qb + IZR qa))%R in
  (w <= Rmax B A)%R.
Proof.
  intros HB HA Hqb Hqa w. unfold w.
  assert (Hxb : (0 <= IZR qb)%R) by (by apply IZR_le).
  assert (Hxa : (0 <= IZR qa)%R) by (by apply IZR_le).
  pose proof (Rmax_l B A). pose proof (Rmax_r B A).
  destruct (Z.eqb_spec (qb + qa) 0) as [Hz|Hnz]; [lra|].
  assert (Hden : (0 < IZR qb + IZR qa)%R).
  { rewrite <- plus_IZR. apply IZR_lt. lia. }
  apply Rmult_le_reg_r with (IZR qb + IZR qa)%R; [done|].
  unfold Rdiv. rewrite Rmult_assoc, Rinv_l by lra. nra.
Qed.

(** C5, amended: with both sides non-empty, Microprice is defined. When the
    top quantities are >= 0, the float64 it returns is a zero or a normal
    number (no infinity, no NaN), and its distance to the exact value of
    (best_bid * ask_qty + best_ask * bid_qty) / (bid_qty + ask_qty) in
    dollars (of the simple mid when the total quantity is 0) is at most 2^-49
    times the larger magnitude of the two prices in dollars; at most 2^-49
    times the exact value itself when neither price is negative. When
    moreover best_bid <= best_ask, the exact value lies within
    [best_bid/100, best_ask/100], and the float64 within that interval
    widened by 2^-49 times the larger magnitude; within
    [best_bid/100 * (1 - 2^-49), best_ask/100 * (1 + 2^-49)] when best_bid
    is not negative. *)
Theorem Microprice_defined_and_bounded (ob : Orderbook.t) bid bids ask asks :
  Orderbook.Bids ob = bid :: bids -> Orderbook.Asks ob = ask :: asks ->
  exists m, Orderbook.Microprice ob = Some m
    /\ (int_min <= PriceLevel.Price bid <= int_max ->
        int_min <= PriceLevel.Price ask <= int_max ->
        0 <= PriceLevel.Quantity bid <= int_max ->
        0 <= PriceLevel.Quantity ask <= int_max ->
        exists x best_bid best_ask larger,
          Microprice_spec ob = Some x
          /\ best_bid = dollars (PriceLevel.Price bid)
          /\ best_ask = dollars (PriceLevel.Price ask)
          /\ larger = Rmax (Rabs best_bid) (Rabs best_ask)
          /\ finite64 m
          /\ (Rabs (F2R m - x) <= u49 * larger)%R
          /\ (0 <= PriceLevel.Price bid -> 0 <= PriceLevel.Price ask ->
              (Rabs (F2R m - x) <= u49 * x)%R)
          /\ (PriceLevel.Price bid <= PriceLevel.Price ask ->
              (best_bid <= x <= best_ask)%R
              /\ (best_bid - u49 * larger <= F2R m <= best_ask + u49 * larger)%R
              /\ (0 <= PriceLevel.Price bid ->
                  (best_bid * (1 - u49) <= F2R m <= best_ask * (1 + u49))%R))).
Proof.
  intros Hbids Hasks. unfold Orderbook.Microprice, Microprice_spec. rewrite Hbids, Hasks.
  set (pb := PriceLevel.Price bid). set (pa := PriceLevel.Price ask).
  set (qb := PriceLevel.Quantity bid). set (qa := PriceLevel.Quantity ask).
  pose proof (Microprice_error pb pa qb qa) as Herr.
  pose proof (weighted_mean_bounds qb qa (dollars pb) (dollars pa)) as Hbnd.
  pose proof (weighted_mean_max qb qa (Rabs (IZR pb) / 100) (Rabs (IZR pa) / 100)) as Hmax.
  cbv zeta in Herr, Hbnd, Hmax. fold (dollars pb) (dollars pa) in Herr.
  set (m := if PrimFloat.eqb _ _ then _ else _) in Herr.
  set (x := if qb + qa =? 0 then _ else _) in Herr, Hbnd.
  set (w := if qb + qa =? 0 then _ else _) in Herr, Hmax.
  exists m. split; [unfold m; by destruct (PrimFloat.eqb _ _)|].
  unfold int_min, int_max. intros Hpb Hpa Hqb Hqa.
  exists x, (dollars pb), (dollars pa), (Rmax (Rabs (dollars pb)) (Rabs (dollars pa))).
  split; [unfold x; by destruct (qb + qa =? 0)|].
  do 3 (split; [reflexivity|]).
  destruct Herr as [Hfin Herr]; [lia..|].
  split; [exact Hfin|].
  assert (Hu : (0 < u49 < 1)%R) by (unfold u49; lra).
  assert (Habs : forall p, (Rabs (dollars p) = Rabs (IZR p) / 100)%R).
  { intros p. unfold dollars, Rdiv. rewrite Rabs_mult, (Rabs_pos_eq (/ 100)); [done|lra]. }
  assert (Hw : (w <= Rmax (Rabs (dollars pb)) (Rabs (dollars pa)))%R).
  { rewrite !Habs. apply Hmax; [| |lia|lia].
    - pose proof (Rabs_pos (IZR pb)). lra.
    - pose proof (Rabs_pos (IZR pa)). lra. }
  assert (Hw0 : (0 <= w)%R).
  { pose proof (Rabs_pos (F2R m - x)). nra. }
  assert (Hlarger : (Rabs (F2R m - x) <= u49 * Rmax (Rabs (dollars pb)) (Rabs (dollars pa)))%R)
    by nra.
  assert (Hnonneg : 0 <= pb -> 0 <= pa -> (Rabs (F2R m - x) <= u49 * x)%R).
  { intros H0b H0a.
    assert (Hxw : w = x).
    { unfold w, x, dollars. by rewrite !Rabs_pos_eq by (apply IZR_le; lia). }
    by rewrite <- Hxw at 2. }
  split; [exact Hlarger|]. split; [exact Hnonneg|].
  intros Hp.
  assert (HP : (dollars pb <= dollars pa)%R).
  { unfold dollars. apply IZR_le in Hp. lra. }
  specialize (Hbnd HP ltac:(lia) ltac:(lia)).
  pose proof (Rle_abs (F2R m - x)) as H1.
  pose proof (Rle_abs (- (F2R m - x))) as H2. rewrite Rabs_Ropp in H2.
  split; [exact Hbnd|]. split; [lra|].
  intros H0b. specialize (Hnonneg H0b ltac:(lia)).
  assert (HB : (0 <= dollars pb)%R).
  { unfold dollars. apply Rmult_le_pos; [apply IZR_le; lia|lra]. }
  nra.
Qed.

Lemma Microprice_defined_and_bounded_witness :
  let ob := Orderbook.mk "T" [PriceLevel.mk 55 800] [PriceLevel.mk 56 200] 0 in
  exists m, Orderbook.Microprice ob = Some m
    /\ finite64 m
    /\ (dollars 55 * (1 - u49) <= F2R m <= dollars 56 * (1 + u49))%R.
Proof.
  intros ob.
  destruct (Microprice_defined_and_bounded ob (PriceLevel.mk 55 800) [] (PriceLevel.mk 56 200) [])
    as (m & Hm & Hrest); [reflexivity|reflexivity|].
  exists m. split; [exact Hm|].
  destruct Hrest as (x & bb & ba & larger & _ & -> & -> & _ & Hfin & _ & _ & Hint);
    [simpl; unfold int_min, int_max; lia..|].
  split; [exact Hfin|].
  apply Hint; simpl; lia.
Defined.

(** ** Engine: snapshots *)

Lemma GetSince_filter cutoff tl :
  TradeLog.GetSince cutoff tl
  = filter (fun trade => cutoff <= Trade.Timestamp trade) (TradeLog.trades tl).
Proof.
  unfold TradeLog.GetSince.
  assert (H : forall l acc,
    fold_left (fun result trade =>
      if not_before (Trade.Timestamp trade) cutoff then result ++ [trade] else result) l acc
    = acc ++ filter (fun trade => cutoff <= Trade.Timestamp trade) l).
  { induction l as [|trade l IH]; intros acc; simpl.
    - by rewrite app_nil_r.
    - rewrite IH. unfold not_before.
      destruct (Z.leb_spec cutoff (Trade.Timestamp trade)).
      + rewrite filter_cons_True by done. by rewrite <- app_assoc.
      + rewrite filter_cons_False by lia. done. }
  by rewrite H.
Qed.

Lemma GetRecentTrades_filter now ticker window e :
  Engine.GetRecentTrades now ticker window e
  = filter (fun trade => now + int_neg window <= Trade.Timestamp trade) (tradesOf ticker e).
Proof.
  unfold Engine.GetRecentTrades, tradesOf.
  destruct (Engine.tradeLogs e !! ticker); [|done].
  by rewrite GetSince_filter.
Qed.

(** C4, as stated, fails: updating a ticker with a book that has an empty
    side records no snapshot. *)
Lemma UpdateOrderbook_empty_book_counterexample :
  ~ (forall (now_trades now_snapshot : Time) ticker ob e,
       exists snapshot,
         last (snapshotsOf ticker (Engine.UpdateOrderbook now_trades now_snapshot ticker ob e))
         = Some snapshot
         /\ MarketSnapshot.Timestamp snapshot = now_snapshot).
Proof.
  intros H.
  destruct (H 0 0 "T"%string (Orderbook.NewOrderbook 0 "T") Engine.NewEngine)
    as (snapshot & Hlast & _).
  vm_compute in Hlast. discriminate.
Qed.

(** C4, amended: [UpdateOrderbook] installs the book of every ticker. When
    the book has both sides non-empty it appends to the ticker's snapshot
    ring (dropping the oldest entries beyond its capacity) a snapshot built
    from that book and from the ticker's trades of the last five minutes.
    When the bids or the asks of the book are empty it records no snapshot:
    the time-series store is left as it was. *)
Theorem UpdateOrderbook_records_snapshot
    (now_trades now_snapshot : Time) (ticker : string) (ob : Orderbook.t) (e : Engine.t) :
  let e' := Engine.UpdateOrderbook now_trades now_snapshot ticker ob e in
  let recent :=
    filter (fun trade => now_trades - 300000000000 <= Trade.Timestamp trade) (tradesOf ticker e) in
  Engine.orderbooks e' !! ticker = Some ob
  /\ (forall bid bids ask asks,
        Orderbook.Bids ob = bid :: bids -> Orderbook.Asks ob = ask :: asks ->
        exists snapshot,
          snapshotsOf ticker e'
          = last_n (TimeSeriesStore.maxSnapshotsPerMarket (Engine.timeSeries e))
              (snapshotsOf ticker e ++ [snapshot])
          /\ MarketSnapshot.Timestamp snapshot = now_snapshot
          /\ MarketSnapshot.MarketTicker snapshot = ticker
          /\ MarketSnapshot.BestBid snapshot = PriceLevel.Price bid
          /\ MarketSnapshot.BestAsk snapshot = PriceLevel.Price ask
          /\ Some (MarketSnapshot.Spread snapshot) = Orderbook.Spread ob
          /\ MarketSnapshot.MidPrice snapshot
             = (float64_of_int (int_add (PriceLevel.Price bid) (PriceLevel.Price ask)) / 200)%float
          /\ MarketSnapshot.BidDepth snapshot = Orderbook.BidDepth ob
          /\ MarketSnapshot.AskDepth snapshot = Orderbook.AskDepth ob
          /\ MarketSnapshot.Imbalance snapshot = Orderbook.ImbalanceRatio ob
          /\ (exists m, Orderbook.Microprice ob = Some m
                /\ MarketSnapshot.Microprice snapshot = (m * 100)%float)
          /\ MarketSnapshot.TradeCount snapshot = length recent
          /\ MarketSnapshot.LastTrade snapshot = last recent)
  /\ (Orderbook.Bids ob = [] \/ Orderbook.Asks ob = [] ->
      Engine.timeSeries e' = Engine.timeSeries e
      /\ forall k, snapshotsOf k e' = snapshotsOf k e).
Proof.
  intros e' recent.
  assert (Hrecent : Engine.GetRecentTrades now_trades ticker (int_mul 5 Minute)
            {| Engine.markets := Engine.markets e;
               Engine.orderbooks := <[ticker := ob]> (Engine.orderbooks e);
               Engine.tradeLogs := Engine.tradeLogs e;
               Engine.timeSeries := Engine.timeSeries e |} = recent).
  { rewrite GetRecentTrades_filter. unfold recent, tradesOf. simpl.
    replace (int_neg (int_mul 5 Minute)) with (-300000000000) by (vm_compute; reflexivity).
    done. }
  split; [unfold e', Engine.UpdateOrderbook; simpl; apply lookup_insert_eq|].
  split.
  - intros bid bids ask asks Hbids Hasks.
    exists (TimeSeriesStore.makeSnapshot now_snapshot ticker ob bid ask recent).
    split.
    { unfold e', Engine.UpdateOrderbook, snapshotsOf. simpl. rewrite Hrecent.
      unfold TimeSeriesStore.RecordSnapshot. rewrite Hbids, Hasks. simpl.
      rewrite lookup_insert_eq. simpl.
      destruct (Nat.ltb_spec (TimeSeriesStore.maxSnapshotsPerMarket (Engine.timeSeries e))
                  (length (default [] (TimeSeriesStore.snapshots (Engine.timeSeries e) !! ticker)
                           ++ [TimeSeriesStore.makeSnapshot now_snapshot ticker ob bid ask recent])));
        [done|].
      by rewrite last_n_all. }
    unfold TimeSeriesStore.makeSnapshot; simpl.
    repeat (split; [try done|]); try done.
    + unfold Orderbook.Spread. by rewrite Hbids, Hasks.
    + unfold Orderbook.Microprice. rewrite Hbids, Hasks.
      destruct (PrimFloat.eqb _ _); eexists; split; reflexivity.
  - intros Hempty.
    assert (Hts : Engine.timeSeries e' = Engine.timeSeries e).
    { unfold e', Engine.UpdateOrderbook, TimeSeriesStore.RecordSnapshot. simpl.
      destruct Hempty as [-> | ->]; [done|]. by destruct (Orderbook.Bids ob). }
    split; [done|]. intros k. unfold snapshotsOf. by rewrite Hts.
Qed.

Lemma UpdateOrderbook_records_snapshot_witness :
  let ob := Orderbook.mk "T" [PriceLevel.mk 55 800] [PriceLevel.mk 56 200] 0 in
  exists snapshot,
    snapshotsOf "T" (Engine.UpdateOrderbook 10 11 "T" ob Engine.NewEngine) = [snapshot]
    /\ MarketSnapshot.BestBid snapshot = 55 /\ MarketSnapshot.BestAsk snapshot = 56.
Proof.
  intros ob.
  destruct (proj1 (proj2 (UpdateOrderbook_records_snapshot 10 11 "T" ob Engine.NewEngine))
              (PriceLevel.mk 55 800) [] (PriceLevel.mk 56 200) [])
    as (snapshot & Hring & _ & _ & Hbid & Hask & _); [reflexivity|reflexivity|].
  exists snapshot. split; [|split; assumption].
  rewrite Hring. reflexivity.
Defined.

(** ** Signal processor: volume surge *)


Section ProcessorFacts.
Variable config : SignalConfig.
Variable state : Engine.t.



Lemma computeOrderbookImbalance_type now ticker ob signal :
  Processor.computeOrderbookImbalance config now ticker ob = Some signal ->
  Signal.Type_ signal = SignalTypeOrderbookImbalance
  /\ SignalMetadata.ThresholdCrossed (Signal.Metadata signal) = true.
Proof.
  unfold Processor.computeOrderbookImbalance.
  destruct (Orderbook.Spread ob); [|done].
  destruct (float_gtb _ _); [|done]. by intros [= <-].
Qed.

Lemma computeImpliedProbabilityDrift_type now1 now2 ticker ob signal :
  Processor.computeImpliedProbabilityDrift config state now1 now2 ticker ob = Some signal ->
  Signal.Type_ signal = SignalTypeImpliedProbabilityDrift
  /\ SignalMetadata.ThresholdCrossed (Signal.Metadata signal) = true.
Proof.
  unfold Processor.computeImpliedProbabilityDrift.
  destruct (Orderbook.Bids ob); [done|]. destruct (Orderbook.Asks ob); [done|].
  destruct (Engine.GetRecentTrades _ _ _ _); [done|].
  destruct (PrimFloat.eqb _ 0); [done|].
  destruct (float_gtb _ _); [|done]. by intros [= <-].
Qed.

Lemma quantitativeSignal_type now1 now2 now3 now4 market ob signal :
  Processor.quantitativeSignal state now1 now2 now3 now4 market ob = Some signal ->
  Signal.Type_ signal = SignalTypeOrderbookImbalance
  /\ SignalMetadata.ThresholdCrossed (Signal.Metadata signal) = false.
Proof.
  unfold Processor.quantitativeSignal.
  destruct (ComputeQuantitativeSignals _ _ _ _ _ _ _); [|done]. by intros [= <-].
Qed.


End ProcessorFacts.





(** ** No-arbitrage detector *)


Section NoArbFacts.
Variable state : Engine.t.

Lemma scanGroup_valid tickers sumBuyPrice sumSellPrice minLiquidity :
  Forall (fun ticker => is_Some (topOfBook state ticker)) tickers ->
  exists minLiquidity',
    NoArbEngine.scanGroup state tickers (sumBuyPrice, sumSellPrice, minLiquidity)
    = Some (fold_left
              (fun sum ticker =>
                 match topOfBook state ticker with
                 | Some (_, ask) => (sum + float64_of_int (PriceLevel.Price ask) / 100)%float
                 | None => sum
                 end) tickers sumBuyPrice,
            fold_left
              (fun sum ticker =>
                 match topOfBook state ticker with
                 | Some (bid, _) => (sum + float64_of_int (PriceLevel.Price bid) / 100)%float
                 | None => sum
                 end) tickers sumSellPrice,
            minLiquidity').
Proof.
  intros Hvalid. revert sumBuyPrice sumSellPrice minLiquidity.
  induction Hvalid as [|ticker tickers [[bid ask] Htop] _ IH]; intros b s l; simpl.
  - by exists l.
  - rewrite Htop. unfold topOfBook in Htop. unfold Engine.GetOrderbook.
    destruct (Engine.orderbooks state !! ticker) as [ob|]; [|done]. simpl.
    destruct (Orderbook.Bids ob) as [|bid' ?]; [done|].
    destruct (Orderbook.Asks ob) as [|ask' ?]; [done|].
    injection Htop as -> ->. apply IH.
Qed.


End NoArbFacts.





(** ** Stream handler: reconnect delay *)

Lemma runLoop_backoff attempts delay w :
  exists n, (n <= length attempts)%nat
    /\ (WebSocketHandler.runLoop attempts delay w).2 = backoff n delay.
Proof.
  revert delay w. induction attempts as [|a attempts IH]; intros delay w; simpl.
  - by exists 0%nat.
  - destruct (WebSocketHandler.connectAndListen a w) as [w1 [|]].
    + exists 0%nat. split; [lia|done].
    + set (next := if (WebSocketHandler.maxDelay <? int_mul delay 2)
                   then WebSocketHandler.maxDelay else int_mul delay 2).
      destruct (IH next w1) as (n & Hn & Hslept).
      destruct (WebSocketHandler.runLoop attempts next w1) as [w2 slept].
      exists (S n). split; [lia|]. simpl in *. by rewrite Hslept.
Qed.

(** C9: the delays slept by [Run] double up to the cap of 60 s whatever the
    attempts do: a successful connect resets the handler's field, which the
    loop never reads again. With a base of 5 s, two failed dials, a
    connection that is established and then drops, and one more failed dial,
    the delays are 5, 10, 20 and 40 s; the delay after the successful
    connect is 20 s, not 5 s. *)
Theorem Run_delay_never_reset (attempts : list WebSocketHandler.Attempt) (w : WebSocketHandler.t) :
  (exists n, (n <= length attempts)%nat
     /\ (WebSocketHandler.Run attempts w).2 = backoff n (WebSocketHandler.reconnectDelay w))
  /\ WebSocketHandler.Run
       [WebSocketHandler.DialFailed; WebSocketHandler.DialFailed;
        WebSocketHandler.ConnectedThenClosed true; WebSocketHandler.DialFailed]
       defaultHandler
     = ({| WebSocketHandler.url := "wss://stream";
           WebSocketHandler.reconnectDelay := 5 * Second |},
        [5 * Second; 10 * Second; 20 * Second; 40 * Second]).
Proof.
  split; [apply runLoop_backoff|]. vm_compute. reflexivity.
Qed.

(** ** Alert dispatcher and the quantitative bundle *)

Section DispatcherFacts.
Variable formatSignalMessage : Signal.t -> string.

Lemma receive_not_crossed now_check now_mark signal m :
  SignalMetadata.ThresholdCrossed (Signal.Metadata signal) = false ->
  Manager.receive formatSignalMessage now_check now_mark signal m = (m, []).
Proof. intros H. unfold Manager.receive. by rewrite H. Qed.

Lemma runLoop_crossedOnly received m :
  Manager.runLoop formatSignalMessage received m
  = Manager.runLoop formatSignalMessage (crossedOnly received) m.
Proof.
  revert m. induction received as [|[[now_check now_mark] signal] received IH]; intros m;
    [done|].
  unfold crossedOnly.
  destruct (SignalMetadata.ThresholdCrossed (Signal.Metadata signal)) eqn:Hcrossed.
  - rewrite filter_cons_True by done. simpl.
    destruct (Manager.receive _ _ _ _ _) as [m1 sent1].
    fold (crossedOnly received). by rewrite IH.
  - rewrite filter_cons_False by (simpl; congruence). simpl.
    rewrite receive_not_crossed by done.
    fold (crossedOnly received). rewrite IH.
    by destruct (Manager.runLoop _ _ _).
Qed.

Lemma Run_crossedOnly received m :
  Manager.Run formatSignalMessage received m
  = Manager.Run formatSignalMessage (crossedOnly received) m.
Proof.
  unfold Manager.Run. destruct (negb _); [done|]. apply runLoop_crossedOnly.
Qed.

End DispatcherFacts.

(** C10: the signal that carries the quantitative bundle of a market has
    the liquidity score as value, the efficiency score as confidence and
    ThresholdCrossed = false; the dispatcher handles only signals marked as
    crossed, so receiving that signal leaves the dispatcher unchanged and
    starts no webhook delivery, and a run of the dispatcher is the same with
    or without it. *)
Theorem quantitative_signal_never_dispatched
    (state : Engine.t) (now_trades now_stamp now_filter now_event : Time)
    (market : Market.t) (orderbook : Orderbook.t) (signal : Signal.t) :
  Processor.quantitativeSignal state now_trades now_stamp now_filter now_event market orderbook
  = Some signal ->
  SignalMetadata.ThresholdCrossed (Signal.Metadata signal) = false
  /\ (exists quantSig,
        ComputeQuantitativeSignals now_stamp now_filter now_event (Market.Ticker market)
          (Some orderbook)
          (Engine.GetRecentTrades now_trades (Market.Ticker market) (int_mul 5 Minute) state)
          (Market.ExpirationTime market) = Some quantSig
        /\ Signal.Value signal = QuantitativeSignal.LiquidityScore quantSig
        /\ SignalMetadata.Confidence (Signal.Metadata signal)
           = QuantitativeSignal.EfficiencyScore quantSig)
  /\ (forall formatSignalMessage now_check now_mark m,
        Manager.receive formatSignalMessage now_check now_mark signal m = (m, []))
  /\ (forall formatSignalMessage now_check now_mark before after m,
        Manager.Run formatSignalMessage (before ++ (now_check, now_mark, signal) :: after) m
        = Manager.Run formatSignalMessage (before ++ after) m).
Proof.
  intros Hquant.
  assert (Hcrossed : SignalMetadata.ThresholdCrossed (Signal.Metadata signal) = false).
  { by apply quantitativeSignal_type in Hquant as [_ H]. }
  split; [done|]. split.
  { unfold Processor.quantitativeSignal in Hquant.
    destruct (ComputeQuantitativeSignals _ _ _ _ _ _ _) as [quantSig|]; [|done].
    injection Hquant as <-. by exists quantSig. }
  split.
  { intros. by apply receive_not_crossed. }
  intros fmt now_check now_mark before after m.
  rewrite Run_crossedOnly, (Run_crossedOnly fmt (before ++ after)).
  f_equal. unfold crossedOnly. rewrite !filter_app. f_equal.
  rewrite filter_cons_False; [done|]. simpl. congruence.
Qed.

Lemma quantitative_signal_never_dispatched_witness :
  exists signal,
    Processor.quantitativeSignal surgeState 0 0 0 0 surgeMarket
      (Orderbook.mk "T" [PriceLevel.mk 55 800] [PriceLevel.mk 56 200] 0) = Some signal
    /\ forall m, Manager.receive (fun _ => "message"%string) 0 0 signal m = (m, []).
Proof.
  eexists. split; [vm_compute; reflexivity|].
  intros m.
  eapply (quantitative_signal_never_dispatched surgeState 0 0 0 0 surgeMarket
            (Orderbook.mk "T" [PriceLevel.mk 55 800] [PriceLevel.mk 56 200] 0)).
  vm_compute. reflexivity.
Defined.

(** * Further properties of the modelled code *)

(** ** Shared facts about loops that append *)

Lemma fold_left_keep_filter {A : Type} (keep : A -> bool) (l acc : list A) :
  fold_left (fun kept x => if keep x then kept ++ [x] else kept) l acc
  = acc ++ filter (fun x => keep x = true) l.
Proof.
  revert acc. induction l as [|x l IH]; intros acc; simpl.
  - by rewrite app_nil_r.
  - rewrite IH. destruct (keep x) eqn:Hx.
    + rewrite filter_cons_True by done. by rewrite <- app_assoc.
    + rewrite filter_cons_False by congruence. done.
Qed.

Lemma ring_append {A : Type} (n : nat) (ring : list A) (added : list A) :
  (if (n <? length (ring ++ added))%nat then last_n n (ring ++ added) else ring ++ added)
  = last_n n (ring ++ added).
Proof.
  destruct (Nat.ltb_spec n (length (ring ++ added))); [done|].
  by rewrite last_n_all.
Qed.

Lemma last_n_suffix {A : Type} (n : nat) (s : list A) : last_n n s `suffix_of` s.
Proof. apply suffix_drop. Qed.

(** Membership in an explicit list, and its failure from disequalities. *)
Ltac list_in := repeat constructor.
Ltac list_notin :=
  let Hin := fresh "Hin" in
  let Heq := fresh "Heq" in
  intros Hin;
  repeat (apply elem_of_cons in Hin as [Heq|Hin]; [first [congruence|discriminate]|]);
  by apply elem_of_nil in Hin.

(** ** Market status *)

(** X1: [parseMarketStatus] is idempotent, always returns one of the eight
    statuses, and returns "active" for the string "active" only; every
    unknown string becomes "inactive". *)
Theorem parseMarketStatus_normalises (s : string) :
  parseMarketStatus (parseMarketStatus s) = parseMarketStatus s
  /\ parseMarketStatus s ∈ [StatusInitialized; StatusInactive; StatusActive; StatusClosed;
                            StatusDetermined; StatusDisputed; StatusAmended; StatusFinalized]
  /\ (parseMarketStatus s = StatusActive <-> s = "active"%string)
  /\ (s ∉ ["initialized"; "inactive"; "active"; "closed"; "determined"; "disputed";
           "amended"; "finalized"]%string -> parseMarketStatus s = StatusInactive).
Proof.
  assert (Hknown : forall x : string,
    x ∈ ["initialized"; "inactive"; "active"; "closed"; "determined"; "disputed";
         "amended"; "finalized"]%string -> parseMarketStatus x = x).
  { intros x Hx. repeat (apply elem_of_cons in Hx as [->|Hx]; [reflexivity|]).
    by apply elem_of_nil in Hx. }
  assert (Hcases : parseMarketStatus s = s
                   /\ s ∈ ["initialized"; "inactive"; "active"; "closed"; "determined";
                           "disputed"; "amended"; "finalized"]%string
                   \/ parseMarketStatus s = StatusInactive
                      /\ s ∉ ["initialized"; "inactive"; "active"; "closed"; "determined";
                              "disputed"; "amended"; "finalized"]%string).
  { unfold parseMarketStatus.
    repeat match goal with
           | |- context [String.eqb s ?x] =>
               destruct (String.eqb_spec s x) as [->|?];
               [left; split; [reflexivity|list_in]|]
           end.
    right. split; [reflexivity|list_notin]. }
  destruct Hcases as [[Hs Hin]|[Hs Hout]]; rewrite Hs.
  - split; [by apply Hknown|]. split; [exact Hin|]. split; [done|done].
  - split; [reflexivity|]. split; [list_in|]. split; [|done].
    split; [done|]. intros ->. exfalso. apply Hout. list_in.
Qed.

Lemma parseMarketStatus_normalises_witness : parseMarketStatus "settled" = StatusInactive.
Proof. apply (parseMarketStatus_normalises "settled"). list_notin. Defined.

(** ** Stream frames *)

Section StreamFacts.
Variable ParseFloat : string -> option float.
Variable formatFloat4 : float -> string.

Lemma levelStrings_strings (level : list string) :
  Stream.levelStrings formatFloat4 (JString <$> level) = level.
Proof.
  unfold Stream.levelStrings.
  assert (H : forall acc, fold_left
    (fun lv v => match v with
                 | JString s => lv ++ [s]
                 | JNumber f => lv ++ [formatFloat4 f]
                 | _ => lv
                 end) (JString <$> level) acc = acc ++ level).
  { induction level as [|s level IH]; intros acc; simpl.
    - by rewrite app_nil_r.
    - rewrite IH. by rewrite <- app_assoc. }
  apply H.
Qed.

Lemma convertToOrderbookLevels_snoc data item :
  Stream.convertToOrderbookLevels formatFloat4 (data ++ [item])
  = Stream.convertToOrderbookLevels formatFloat4 data
    ++ match item with
       | JArray arr =>
           if (2 <=? length (Stream.levelStrings formatFloat4 arr))%nat
           then [Stream.levelStrings formatFloat4 arr] else []
       | _ => []
       end.
Proof.
  unfold Stream.convertToOrderbookLevels. rewrite fold_left_app. cbn [fold_left].
  destruct item as [| | | |arr|]; try by rewrite app_nil_r.
  destruct (2 <=? length (Stream.levelStrings formatFloat4 arr))%nat;
    [done|by rewrite app_nil_r].
Qed.

End StreamFacts.

(** X2: every level that [convertToOrderbookLevels] returns has at least two
    strings (so the length guard of [UpdateFromKalshi] never skips a level of
    a stream frame), it returns no more levels than the frame has items, and
    a frame whose items are arrays of at least two strings is returned as it
    is, in order. *)
Theorem convertToOrderbookLevels_levels
    (formatFloat4 : float -> string) (data : list JSON) (levels : list (list string)) :
  Forall (fun level => (2 <= length level)%nat)
    (Stream.convertToOrderbookLevels formatFloat4 data)
  /\ (length (Stream.convertToOrderbookLevels formatFloat4 data) <= length data)%nat
  /\ (Forall (fun level => (2 <= length level)%nat) levels ->
      Stream.convertToOrderbookLevels formatFloat4
        ((fun level => JArray (JString <$> level)) <$> levels) = levels).
Proof.
  split; [|split].
  - induction data as [|item data IH] using rev_ind; [constructor|].
    rewrite convertToOrderbookLevels_snoc. apply Forall_app. split; [done|].
    destruct item as [| | | |arr|]; try constructor.
    destruct (Nat.leb_spec 2 (length (Stream.levelStrings formatFloat4 arr)));
      repeat constructor. done.
  - induction data as [|item data IH] using rev_ind; [done|].
    rewrite convertToOrderbookLevels_snoc, !length_app.
    destruct item as [| | | |arr|]; cbn [length]; try lia.
    destruct (2 <=? length (Stream.levelStrings formatFloat4 arr))%nat; cbn [length]; lia.
  - induction levels as [|level levels IH] using rev_ind; intros Hlen; [done|].
    apply Forall_app in Hlen as [Hlevels Hlevel].
    rewrite fmap_app. simpl. rewrite convertToOrderbookLevels_snoc, IH by done.
    rewrite levelStrings_strings.
    apply Forall_inv in Hlevel.
    destruct (Nat.leb_spec 2 (length level)); [done|lia].
Qed.

Lemma convertToOrderbookLevels_levels_witness :
  Stream.convertToOrderbookLevels (fun _ => "0.0000"%string)
    [JArray [JString "0.60"; JString "100"]; JArray [JString "0.59"; JString "50"]]
  = [["0.60"; "100"]; ["0.59"; "50"]]%string.
Proof.
  apply (convertToOrderbookLevels_levels (fun _ => "0.0000"%string) []
           [["0.60"; "100"]; ["0.59"; "50"]]%string).
  repeat constructor.
Defined.

(** X3: [handleMessage] leaves the engine untouched when the frame does not
    decode, when its type is missing, not a string or not one of the four
    recognised types, when its ticker is missing or not a string, and, for a
    book frame, when [orderbook_fp] is missing or not an object. *)
Theorem handleMessage_ignores
    (ParseFloat : string -> option float) (formatFloat4 : float -> string)
    (clock : nat -> Time) (msg : gmap string JSON) (state : Engine.t) :
  Stream.handleMessage ParseFloat formatFloat4 clock None state = state
  /\ ((forall msgType, msg !! "type" = Some (JString msgType) ->
         msgType ∉ ["orderbook"; "orderbook_update"; "trade"; "trade_update"]%string) ->
      Stream.handleMessage ParseFloat formatFloat4 clock (Some msg) state = state)
  /\ ((forall ticker, msg !! "ticker" <> Some (JString ticker)) ->
      Stream.handleMessage ParseFloat formatFloat4 clock (Some msg) state = state)
  /\ ((forall msgType, msg !! "type" = Some (JString msgType) ->
         msgType ∈ ["orderbook"; "orderbook_update"]%string) ->
      (forall fields, msg !! "orderbook_fp" <> Some (JObject fields)) ->
      Stream.handleMessage ParseFloat formatFloat4 clock (Some msg) state = state).
Proof.
  split; [done|]. unfold Stream.handleMessage.
  split; [|split].
  - intros Htype. destruct (msg !! "type") as [[| | |msgType| |]|]; try done.
    specialize (Htype msgType eq_refl).
    destruct (String.eqb_spec msgType "orderbook") as [->|?]; [exfalso; apply Htype; list_in|].
    destruct (String.eqb_spec msgType "orderbook_update") as [->|?];
      [exfalso; apply Htype; list_in|].
    destruct (String.eqb_spec msgType "trade") as [->|?]; [exfalso; apply Htype; list_in|].
    destruct (String.eqb_spec msgType "trade_update") as [->|?];
      [exfalso; apply Htype; list_in|].
    done.
  - intros Hticker. destruct (msg !! "type") as [[| | |msgType| |]|]; try done.
    unfold Stream.handleOrderbookUpdate, Stream.handleTradeUpdate.
    destruct (msg !! "ticker") as [[| | |ticker| |]|] eqn:Ht;
      try (by repeat destruct (_ || _)).
    by destruct (Hticker ticker).
  - intros Htype Hfp. destruct (msg !! "type") as [[| | |msgType| |]|]; try done.
    specialize (Htype msgType eq_refl).
    assert (Hbook : String.eqb msgType "orderbook" || String.eqb msgType "orderbook_update" = true).
    { apply elem_of_cons in Htype as [->|Htype]; [done|].
      apply elem_of_cons in Htype as [->|Htype]; [done|]. by apply elem_of_nil in Htype. }
    rewrite Hbook. unfold Stream.handleOrderbookUpdate.
    destruct (msg !! "ticker") as [[| | |ticker| |]|]; try done.
    destruct (msg !! "orderbook_fp") as [[| | | | |fields]|] eqn:Hf; try done.
    by destruct (Hfp fields).
Qed.

Lemma handleMessage_ignores_witness :
  Stream.handleMessage parseDecimal (fun _ => "0.0000"%string) (fun _ => 0)
    (Some {["type" := JString "heartbeat"]}) Engine.NewEngine = Engine.NewEngine.
Proof.
  destruct (handleMessage_ignores parseDecimal (fun _ => "0.0000"%string) (fun _ => 0)
              {["type" := JString "heartbeat"]} Engine.NewEngine) as (_ & Hunknown & _).
  apply Hunknown.
  intros msgType Hm. rewrite lookup_singleton_eq in Hm. injection Hm as <-. list_notin.
Defined.



(** ** Rolling windows of the API server *)

Lemma getSignals_filtered marketTicker signalType (l acc : list Signal.t) :
  fold_left
    (fun filtered sig =>
       if negb (String.eqb marketTicker "")
          && negb (String.eqb (Signal.MarketTicker sig) marketTicker) then filtered
       else if negb (String.eqb signalType "")
               && negb (String.eqb (Signal.Type_ sig) signalType) then filtered
       else filtered ++ [sig]) l acc
  = acc ++ filter (matchesQuery marketTicker signalType) l.
Proof.
  revert acc. induction l as [|sig l IH]; intros acc; simpl.
  - by rewrite app_nil_r.
  - rewrite IH. unfold matchesQuery at 2.
    destruct (String.eqb_spec marketTicker "") as [Hm|Hm],
             (String.eqb_spec (Signal.MarketTicker sig) marketTicker) as [Ht|Ht],
             (String.eqb_spec signalType "") as [Hs|Hs],
             (String.eqb_spec (Signal.Type_ sig) signalType) as [Hy|Hy]; simpl;
      try (rewrite filter_cons_True by (unfold matchesQuery; tauto);
           by rewrite <- app_assoc);
      rewrite filter_cons_False by (unfold matchesQuery; tauto); done.
Qed.

(** X5: [getSignals] returns signals that all pass the ticker and type
    filters; they are the most recent ones, a suffix of the matching signals
    in arrival order. A positive limit caps their number; a missing,
    unparsable or non-positive limit returns every matching signal. *)
Theorem getSignals_window (marketTicker signalType : string) (limit : option Z) (s : Server.t) :
  let matching := filter (matchesQuery marketTicker signalType) (Server.signals s) in
  let out := Server.getSignals marketTicker signalType limit s in
  out `suffix_of` matching
  /\ Forall (matchesQuery marketTicker signalType) out
  /\ (forall l, limit = Some l -> 0 < l ->
        length out = Nat.min (Z.to_nat l) (length matching))
  /\ (limit = None \/ (exists l, limit = Some l /\ l <= 0) -> out = matching).
Proof.
  intros matching out.
  assert (Hout : out = match limit with
                       | Some l => if 0 <? l then last_n (Z.to_nat l) matching else matching
                       | None => matching
                       end).
  { unfold out, Server.getSignals. rewrite getSignals_filtered. simpl. fold matching.
    destruct limit as [l|].
    - destruct (Z.ltb_spec 0 l).
      + destruct (Z.ltb_spec (Z.of_nat (length matching)) l).
        * rewrite Nat.ltb_irrefl. symmetry. apply last_n_all. lia.
        * destruct (Nat.ltb_spec (Z.to_nat l) (length matching)); [done|].
          symmetry. apply last_n_all. lia.
      + by rewrite Nat.ltb_irrefl.
    - by rewrite Nat.ltb_irrefl. }
  assert (Hsuffix : out `suffix_of` matching).
  { rewrite Hout. destruct limit as [l|]; [|done].
    destruct (0 <? l); [apply last_n_suffix|done]. }
  split; [done|]. split; [|split].
  - destruct Hsuffix as [older Hm].
    assert (Hall : Forall (matchesQuery marketTicker signalType) matching).
    { apply Forall_forall. intros x Hx. by apply list_elem_of_filter in Hx as [? _]. }
    rewrite Hm in Hall. by apply Forall_app in Hall as [_ ?].
  - intros l -> Hl. rewrite Hout.
    destruct (Z.ltb_spec 0 l); [|lia]. rewrite last_n_length. lia.
  - intros [->|(l & -> & Hl)]; rewrite Hout; [done|].
    by destruct (Z.ltb_spec 0 l); [lia|].
Qed.

Lemma getSignals_window_witness :
  length (Server.getSignals "T" "" (Some 1) (Server.mk [surgeSignal; surgeSignal] [])) = 1%nat.
Proof.
  destruct (getSignals_window "T" "" (Some 1) (Server.mk [surgeSignal; surgeSignal] []))
    as (_ & _ & Hlen & _).
  rewrite (Hlen 1); [reflexivity|reflexivity|lia].
Defined.

(** X6: the server keeps the last 1000 signals it received, in arrival
    order, and receiving signals never changes its alerts. *)
Theorem collectSignals_keeps_latest (received : list Signal.t) (s : Server.t) :
  (length (Server.signals s) <= 1000)%nat ->
  let s' := collectAll received s in
  Server.signals s' = last_n 1000 (Server.signals s ++ received)
  /\ (length (Server.signals s') <= 1000)%nat
  /\ Server.alerts s' = Server.alerts s.
Proof.
  revert s. induction received as [|signal received IH]; intros s Hlen; simpl.
  - rewrite app_nil_r, last_n_all by done. done.
  - assert (Hstep : Server.signals (Server.collectSignal signal s)
                    = last_n 1000 (Server.signals s ++ [signal])).
    { unfold Server.collectSignal. simpl. apply (ring_append 1000). }
    destruct (IH (Server.collectSignal signal s)) as (Hsig & Hbound & Halerts).
    { rewrite Hstep, last_n_length. lia. }
    unfold collectAll in *. simpl.
    split; [|split; [exact Hbound|]].
    + by rewrite Hsig, Hstep, last_n_app_last_n, <- app_assoc.
    + by rewrite Halerts.
Qed.

Lemma collectSignals_keeps_latest_witness :
  Server.signals (collectAll [surgeSignal] (Server.mk [] [])) = [surgeSignal].
Proof.
  destruct (collectSignals_keeps_latest [surgeSignal] (Server.mk [] [])) as (Hsig & _).
  - simpl. lia.
  - rewrite Hsig. reflexivity.
Defined.

(** ** Engine: what every reachable state satisfies *)

Lemma last_n_last_n {A : Type} (n m : nat) (s : list A) :
  (n <= m)%nat -> last_n n (last_n m s) = last_n n s.
Proof.
  intros Hnm. unfold last_n. rewrite length_drop, drop_drop. f_equal. lia.
Qed.

Lemma ring_sizes : (1000 <= 10000)%nat.
Proof. apply Nat.leb_le. vm_compute. reflexivity. Qed.

Lemma last_n_Forall {A : Type} (P : A -> Prop) (n : nat) (s : list A) :
  Forall P s -> Forall P (last_n n s).
Proof. apply Forall_drop. Qed.

Lemma engineInv_new : engineInv Engine.NewEngine.
Proof.
  split; try done.
  - intros k [m Hm]. simpl in Hm. by rewrite lookup_empty in Hm.
  - intros k. unfold mirrorOf. simpl. rewrite lookup_empty. apply Nat.le_0_l.
  - intros k. unfold snapshotsOf. simpl. rewrite lookup_empty. apply Nat.le_0_l.
Qed.

Lemma engineInv_register now market e :
  engineInv e -> engineInv (Engine.RegisterMarket now market e).
Proof.
  intros [Hkey Hbook Hcap Hmirror Hticker Hmcap Hmlen Hscap Hslen Hsticker].
  split; try done; unfold Engine.RegisterMarket; simpl.
  - intros k m. destruct (decide (Market.Ticker market = k)) as [<-|Hne].
    + rewrite lookup_insert_eq. by intros [= <-].
    + rewrite lookup_insert_ne by done. apply Hkey.
  - intros k. destruct (decide (Market.Ticker market = k)) as [<-|Hne].
    + intros _. destruct (Engine.orderbooks e !! Market.Ticker market) eqn:Hob.
      * by rewrite Hob.
      * rewrite lookup_insert_eq. done.
    + rewrite lookup_insert_ne by done. intros Hm%Hbook.
      destruct (Engine.orderbooks e !! Market.Ticker market); [done|].
      by rewrite lookup_insert_ne.
Qed.

Lemma engineInv_update now_trades now_snapshot ticker orderbook e :
  engineInv e -> engineInv (Engine.UpdateOrderbook now_trades now_snapshot ticker orderbook e).
Proof.
  intros [Hkey Hbook Hcap Hmirror Hticker Hmcap Hmlen Hscap Hslen Hsticker].
  assert (Hts : forall recent,
    let ts' := TimeSeriesStore.RecordSnapshot now_snapshot ticker orderbook recent
                 (Engine.timeSeries e) in
    TimeSeriesStore.trades ts' = TimeSeriesStore.trades (Engine.timeSeries e)
    /\ TimeSeriesStore.maxTradesPerMarket ts' = 10000%nat
    /\ TimeSeriesStore.maxSnapshotsPerMarket ts' = 10000%nat
    /\ forall k,
         let snaps := default [] (TimeSeriesStore.snapshots ts' !! k) in
         (length snaps <= 10000)%nat
         /\ Forall (fun s => MarketSnapshot.MarketTicker s = k
                             /\ MarketSnapshot.Spread s
                                = int_sub (MarketSnapshot.BestAsk s) (MarketSnapshot.BestBid s))
              snaps).
  { intros recent ts'. unfold ts', TimeSeriesStore.RecordSnapshot.
    destruct (Orderbook.Bids orderbook) as [|bid bids];
      [by repeat split; auto; apply Hslen || apply Hsticker|].
    destruct (Orderbook.Asks orderbook) as [|ask asks];
      [by repeat split; auto; apply Hslen || apply Hsticker|].
    simpl. repeat split; auto.
    - destruct (decide (ticker = k)) as [<-|Hne].
      + rewrite lookup_insert_eq. simpl. rewrite ring_append, last_n_length, Hscap.
        apply Nat.le_min_r.
      + rewrite lookup_insert_ne by done. apply Hslen.
    - destruct (decide (ticker = k)) as [<-|Hne].
      + rewrite lookup_insert_eq. simpl. rewrite ring_append.
        apply last_n_Forall, Forall_app. split; [apply Hsticker|].
        repeat constructor.
      + rewrite lookup_insert_ne by done. apply Hsticker. }
  split; unfold Engine.UpdateOrderbook; simpl; try done.
  - intros k Hm%Hbook. destruct (decide (ticker = k)) as [<-|Hne].
    + by rewrite lookup_insert_eq.
    + by rewrite lookup_insert_ne.
  - intros k. unfold tradesOf, mirrorOf in *. simpl.
    rewrite (proj1 (Hts _)). apply Hmirror.
  - intros k. unfold mirrorOf in *. simpl. rewrite (proj1 (Hts _)). apply Hticker.
  - apply Hts.
  - intros k. unfold mirrorOf in *. simpl. rewrite (proj1 (Hts _)). apply Hmlen.
  - apply Hts.
  - intros k. unfold snapshotsOf. simpl. apply Hts.
  - intros k. unfold snapshotsOf. simpl. apply Hts.
Qed.

Lemma engineInv_trade trade e : engineInv e -> engineInv (Engine.AddTrade trade e).
Proof.
  intros [Hkey Hbook Hcap Hmirror Hticker Hmcap Hmlen Hscap Hslen Hsticker].
  set (ticker := Trade.MarketTicker trade).
  assert (Hmirror' : forall k,
    mirrorOf k (Engine.AddTrade trade e)
    = if decide (ticker = k) then last_n 10000 (mirrorOf k e ++ [trade]) else mirrorOf k e).
  { intros k. unfold mirrorOf, Engine.AddTrade, TimeSeriesStore.RecordTrade. simpl.
    fold ticker. destruct (decide (ticker = k)) as [<-|Hne].
    - rewrite lookup_insert_eq. simpl. by rewrite Hmcap, ring_append.
    - by rewrite lookup_insert_ne. }
  assert (Hlog : forall log, Engine.tradeLogs e !! ticker = Some log ->
                 TradeLog.maxLen log = 1000%nat) by (intros; by eapply Hcap).
  assert (Hmax : TradeLog.maxLen (default TradeLog.NewTradeLog (Engine.tradeLogs e !! ticker))
                 = 1000%nat).
  { destruct (Engine.tradeLogs e !! ticker) as [log|] eqn:Hl; [by apply Hlog|done]. }
  split; try done.
  - intros k log. unfold Engine.AddTrade. simpl. fold ticker.
    destruct (decide (ticker = k)) as [<-|Hne].
    + rewrite lookup_insert_eq. intros [= <-].
      by rewrite (proj2 (TradeLog_Add_trades _ _)).
    + rewrite lookup_insert_ne by done. apply Hcap.
  - intros k. rewrite Hmirror'. specialize (Hmirror k).
    unfold tradesOf in *. unfold Engine.AddTrade. simpl. fold ticker.
    destruct (decide (ticker = k)) as [<-|Hne].
    + rewrite lookup_insert_eq, (proj1 (TradeLog_Add_trades _ _)), Hmax.
      rewrite (last_n_last_n 1000 10000) by apply ring_sizes.
      rewrite <- (last_n_app_last_n 1000 (mirrorOf ticker e)), <- Hmirror.
      by destruct (Engine.tradeLogs e !! ticker).
    + by rewrite lookup_insert_ne.
  - intros k. rewrite Hmirror'. destruct (decide (ticker = k)) as [<-|Hne]; [|apply Hticker].
    apply last_n_Forall, Forall_app. split; [apply Hticker|]. by repeat constructor.
  - intros k. rewrite Hmirror'. destruct (decide (ticker = k)) as [<-|Hne]; [|apply Hmlen].
    rewrite last_n_length. apply Nat.le_min_r.
Qed.

Lemma reachable_engineInv e : reachable e -> engineInv e.
Proof.
  induction 1;
    eauto using engineInv_new, engineInv_register, engineInv_update, engineInv_trade.
Qed.

Lemma runOps_reachable (ops : list EngineOp) : reachable (runOps ops).
Proof.
  unfold runOps. generalize reachable_new. generalize Engine.NewEngine.
  induction ops as [|op ops IH]; intros e He; simpl; [done|].
  apply IH. destruct op; simpl; by constructor.
Qed.

Lemma GetMarket_last_registered (ops : list EngineOp) (e : Engine.t) (ticker : string) :
  Engine.GetMarket ticker (fold_left applyOp ops e)
  = match lastRegistered ticker ops with
    | Some market => Some market
    | None => Engine.GetMarket ticker e
    end.
Proof.
  unfold lastRegistered. revert e.
  induction ops as [|op ops IH]; intros e; cbn [fold_left omap list_omap]; [done|].
  rewrite IH. clear IH.
  destruct op as [now market| |]; cbn [registeredAs applyOp].
  - destruct (String.eqb_spec (Market.Ticker market) ticker) as [Heq|Hne].
    + rewrite last_cons. destruct (last (omap (registeredAs ticker) ops)); [done|].
      unfold Engine.GetMarket, Engine.RegisterMarket. cbn [Engine.markets].
      rewrite Heq, lookup_insert_eq. by destruct market.
    + destruct (last (omap (registeredAs ticker) ops)); [done|].
      unfold Engine.GetMarket, Engine.RegisterMarket. cbn [Engine.markets].
      by rewrite lookup_insert_ne.
  - by destruct (last (omap (registeredAs ticker) ops)).
  - by destruct (last (omap (registeredAs ticker) ops)).
Qed.

(** X7: after any sequence of [RegisterMarket], [UpdateOrderbook] and
    [AddTrade] calls on a fresh engine, [GetMarket] of a ticker returns the
    market of the last registration of that ticker, whatever was registered
    for it before and whatever books and trades came in between, and nothing
    for a ticker that was never registered. Every market in the table is
    stored under its own ticker and has an order book, so [GetOrderbook] of
    a registered market never reports a missing book. *)
Theorem registered_market_has_book (ops : list EngineOp) (ticker : string) :
  let e := runOps ops in
  Engine.GetMarket ticker e = lastRegistered ticker ops
  /\ (forall market, Engine.markets e !! ticker = Some market ->
        Market.Ticker market = ticker /\ is_Some (Engine.GetOrderbook ticker e)).
Proof.
  intros e. split.
  - unfold e, runOps. rewrite GetMarket_last_registered.
    destruct (lastRegistered ticker ops); [done|].
    unfold Engine.GetMarket. simpl. by rewrite lookup_empty.
  - intros market Hm.
    destruct (reachable_engineInv e (runOps_reachable ops)) as [Hkey Hbook _ _ _ _ _ _ _ _].
    split; [by apply Hkey|].
    unfold Engine.GetOrderbook. destruct (Hbook ticker) as [ob ->]; [by eexists|].
    by eexists.
Qed.

Lemma registered_market_has_book_witness :
  let renamed := Market.mk "T" "second title" "Politics" StatusClosed None "E" "" "" in
  let ops := [OpRegister 0 surgeMarket; OpTrade (Trade.mk "T" SideYes 55 10 5);
              OpRegister 7 renamed] in
  Engine.GetMarket "T" (runOps ops) = Some renamed
  /\ is_Some (Engine.GetOrderbook "T" (runOps ops)).
Proof.
  intros renamed ops.
  destruct (registered_market_has_book ops "T") as [Hget Hbook].
  split.
  - rewrite Hget. reflexivity.
  - apply (Hbook renamed). vm_compute. reflexivity.
Defined.

(** X8: in every reachable state the trade log of a ticker holds at most
    1000 trades, all of that ticker, and is the most recent part (the last
    1000) of the ticker's trades mirrored in the time-series store, which
    holds at most 10000. *)
Theorem trade_log_is_recent_mirror (e : Engine.t) (ticker : string) :
  reachable e ->
  (length (tradesOf ticker e) <= 1000)%nat
  /\ Forall (fun t => Trade.MarketTicker t = ticker) (tradesOf ticker e)
  /\ tradesOf ticker e `suffix_of` mirrorOf ticker e
  /\ length (tradesOf ticker e) = Nat.min (length (mirrorOf ticker e)) 1000
  /\ (length (mirrorOf ticker e) <= 10000)%nat.
Proof.
  intros [_ _ _ Hmirror Hticker _ Hmlen _ _ _]%reachable_engineInv.
  rewrite Hmirror. split; [rewrite last_n_length; lia|].
  split; [apply last_n_Forall, Hticker|].
  split; [apply last_n_suffix|]. split; [apply last_n_length|apply Hmlen].
Qed.

Lemma trade_log_is_recent_mirror_witness :
  (length (tradesOf "T" surgeState) <= 1000)%nat.
Proof.
  apply (trade_log_is_recent_mirror surgeState "T").
  repeat constructor.
Defined.

(** X9: in every reachable state the snapshot ring of a ticker holds at
    most 10000 snapshots; each carries that ticker and a spread equal to
    its best ask minus its best bid. *)
Theorem snapshot_ring_bounded (e : Engine.t) (ticker : string) :
  reachable e ->
  (length (snapshotsOf ticker e) <= 10000)%nat
  /\ Forall (fun s => MarketSnapshot.MarketTicker s = ticker
                      /\ MarketSnapshot.Spread s
                         = int_sub (MarketSnapshot.BestAsk s) (MarketSnapshot.BestBid s))
       (snapshotsOf ticker e).
Proof.
  intros [_ _ _ _ _ _ _ _ Hslen Hsticker]%reachable_engineInv. done.
Qed.

Lemma snapshot_ring_bounded_witness :
  Forall (fun s => MarketSnapshot.MarketTicker s = "T"%string
                   /\ MarketSnapshot.Spread s
                      = int_sub (MarketSnapshot.BestAsk s) (MarketSnapshot.BestBid s))
    (snapshotsOf "T" surgeState).
Proof.
  apply (snapshot_ring_bounded surgeState "T").
  repeat constructor.
Defined.

(** ** Engine: trades and windows *)



(** X11: after [AddTrade], the trade is the newest entry of its ticker's
    log and so the last trade returned by [GetRecentTrades] for every window
    that reaches back to its timestamp; the logs and recent trades of every
    other ticker, the markets and the order books are unchanged. *)
Theorem AddTrade_then_recent (trade : Trade.t) (e : Engine.t) :
  let e' := Engine.AddTrade trade e in
  tradesOf (Trade.MarketTicker trade) e'
  = last_n (capacityOf (Trade.MarketTicker trade) e)
      (tradesOf (Trade.MarketTicker trade) e ++ [trade])
  /\ (forall now window,
        (0 < capacityOf (Trade.MarketTicker trade) e)%nat ->
        now + int_neg window <= Trade.Timestamp trade ->
        last (Engine.GetRecentTrades now (Trade.MarketTicker trade) window e') = Some trade)
  /\ (forall ticker now window,
        ticker <> Trade.MarketTicker trade ->
        tradesOf ticker e' = tradesOf ticker e
        /\ Engine.GetRecentTrades now ticker window e'
           = Engine.GetRecentTrades now ticker window e)
  /\ Engine.markets e' = Engine.markets e
  /\ Engine.orderbooks e' = Engine.orderbooks e.
Proof.
  intros e'.
  assert (Hlog : tradesOf (Trade.MarketTicker trade) e'
                 = last_n (capacityOf (Trade.MarketTicker trade) e)
                     (tradesOf (Trade.MarketTicker trade) e ++ [trade])).
  { unfold e', tradesOf, capacityOf, Engine.AddTrade. simpl. rewrite lookup_insert_eq.
    rewrite (proj1 (TradeLog_Add_trades _ _)).
    by destruct (Engine.tradeLogs e !! Trade.MarketTicker trade). }
  split; [done|]. split; [|split; [|done]].
  - intros now window Hcap Hcut. rewrite GetRecentTrades_filter, Hlog.
    assert (Hsnoc : exists older,
      last_n (capacityOf (Trade.MarketTicker trade) e)
        (tradesOf (Trade.MarketTicker trade) e ++ [trade]) = older ++ [trade]).
    { unfold last_n. rewrite length_app. simpl.
      exists (drop (length (tradesOf (Trade.MarketTicker trade) e) + 1
                    - capacityOf (Trade.MarketTicker trade) e)
                (tradesOf (Trade.MarketTicker trade) e)).
      by rewrite drop_app_le by lia. }
    destruct Hsnoc as [older ->].
    rewrite filter_app, filter_cons_True by done. apply last_snoc.
  - intros ticker now window Hne.
    assert (Hsame : tradesOf ticker e' = tradesOf ticker e).
    { unfold e', tradesOf, Engine.AddTrade. simpl. by rewrite lookup_insert_ne. }
    split; [done|]. by rewrite !GetRecentTrades_filter, Hsame.
Qed.

Lemma AddTrade_then_recent_witness :
  let trade := Trade.mk "T" SideNo 40 3 (200 * Second) in
  last (Engine.GetRecentTrades (201 * Second) "T" (seconds 30) (Engine.AddTrade trade surgeState))
  = Some trade.
Proof.
  intros trade.
  destruct (AddTrade_then_recent trade surgeState) as (_ & Hlast & _).
  apply Hlast.
  - vm_compute. lia.
  - vm_compute. discriminate.
Defined.

(** ** Ingestion: installing a book *)

Lemma UpdateOrderbook_frame now_trades now_snapshot ticker orderbook e :
  let e' := Engine.UpdateOrderbook now_trades now_snapshot ticker orderbook e in
  Engine.markets e' = Engine.markets e
  /\ Engine.tradeLogs e' = Engine.tradeLogs e
  /\ Engine.orderbooks e' !! ticker = Some orderbook
  /\ (forall k, k <> ticker ->
        Engine.orderbooks e' !! k = Engine.orderbooks e !! k
        /\ snapshotsOf k e' = snapshotsOf k e)
  /\ (Orderbook.Bids orderbook = [] \/ Orderbook.Asks orderbook = [] ->
      Engine.timeSeries e' = Engine.timeSeries e).
Proof.
  intros e'. unfold e', Engine.UpdateOrderbook. simpl.
  split; [done|]. split; [done|]. split; [apply lookup_insert_eq|]. split.
  - intros k Hne. split; [by apply lookup_insert_ne|].
    unfold snapshotsOf, TimeSeriesStore.RecordSnapshot. simpl.
    destruct (Orderbook.Bids orderbook); [done|].
    destruct (Orderbook.Asks orderbook); [done|].
    simpl. by rewrite lookup_insert_ne.
  - unfold TimeSeriesStore.RecordSnapshot.
    intros [-> | ->]; [done|]. by destruct (Orderbook.Bids orderbook).
Qed.

Lemma UpdateFromKalshi_sides ParseFloat now resp ob :
  let ob' := Orderbook.UpdateFromKalshi ParseFloat now resp ob in
  Permutation (Orderbook.Bids ob')
    (bidOf <$> omap (wellFormed ParseFloat) (YesDollars (OrderbookFp resp)))
  /\ Permutation (Orderbook.Asks ob')
       (askOf <$> omap (wellFormed ParseFloat) (NoDollars (OrderbookFp resp)))
  /\ Orderbook.MarketTicker ob' = Orderbook.MarketTicker ob
  /\ Orderbook.LastUpdate ob' = now.
Proof.
  unfold Orderbook.UpdateFromKalshi; simpl.
  rewrite !sort_Slice_perm, appendYes_all, appendNo_all. done.
Qed.

(** X12: a book frame of the stream with a string ticker and an
    [orderbook_fp] object replaces the book of that ticker by the one
    derived from the frame (bids from the well-formed [yes_dollars] levels,
    asks from the well-formed [no_dollars] levels, stamped with the time of
    the update) and leaves markets, trade logs and the other books alone.
    When either side of the frame has no well-formed level, for instance
    because the key is missing or is not an array, the stored book loses
    that side and no snapshot is recorded. *)
Theorem handleMessage_book
    (ParseFloat : string -> option float) (formatFloat4 : float -> string)
    (clock : nat -> Time) (msg fields : gmap string JSON) (state : Engine.t)
    (msgType ticker : string) :
  msg !! "type" = Some (JString msgType) ->
  msgType ∈ ["orderbook"; "orderbook_update"]%string ->
  msg !! "ticker" = Some (JString ticker) ->
  msg !! "orderbook_fp" = Some (JObject fields) ->
  let state' := Stream.handleMessage ParseFloat formatFloat4 clock (Some msg) state in
  let Y := omap (wellFormed ParseFloat)
             (Stream.convertToOrderbookLevels formatFloat4
                (Stream.asArray (fields !! "yes_dollars"))) in
  let N := omap (wellFormed ParseFloat)
             (Stream.convertToOrderbookLevels formatFloat4
                (Stream.asArray (fields !! "no_dollars"))) in
  exists ob,
    Engine.orderbooks state' !! ticker = Some ob
    /\ Orderbook.MarketTicker ob = ticker
    /\ Orderbook.LastUpdate ob = clock 1%nat
    /\ Permutation (Orderbook.Bids ob) (bidOf <$> Y)
    /\ Permutation (Orderbook.Asks ob) (askOf <$> N)
    /\ (forall k, k <> ticker -> Engine.orderbooks state' !! k = Engine.orderbooks state !! k)
    /\ Engine.markets state' = Engine.markets state
    /\ Engine.tradeLogs state' = Engine.tradeLogs state
    /\ (Y = [] \/ N = [] -> Engine.timeSeries state' = Engine.timeSeries state).
Proof.
  intros Htype Hkind Hticker Hfp state' Y N.
  assert (Hstate : state' = Stream.handleOrderbookUpdate ParseFloat formatFloat4
                              (clock 0%nat) (clock 1%nat) (clock 2%nat) (clock 3%nat) msg state).
  { unfold state', Stream.handleMessage. rewrite Htype.
    apply elem_of_cons in Hkind as [->|Hkind]; [done|].
    apply elem_of_cons in Hkind as [->|Hkind]; [done|]. by apply elem_of_nil in Hkind. }
  rewrite Hstate. unfold Stream.handleOrderbookUpdate. rewrite Hticker, Hfp.
  set (resp := {| OrderbookFp := _ |}).
  set (ob := Orderbook.UpdateFromKalshi ParseFloat (clock 1%nat) resp
               (Orderbook.NewOrderbook (clock 0%nat) ticker)).
  destruct (UpdateFromKalshi_sides ParseFloat (clock 1%nat) resp
              (Orderbook.NewOrderbook (clock 0%nat) ticker)) as (Hbids & Hasks & Hname & Hstamp).
  fold ob in Hbids, Hasks, Hname, Hstamp. simpl in Hbids, Hasks. fold Y in Hbids. fold N in Hasks.
  destruct (UpdateOrderbook_frame (clock 2%nat) (clock 3%nat) ticker ob state)
    as (Hmarkets & Hlogs & Hbook & Hothers & Hempty).
  exists ob. repeat split; try done.
  - intros k Hne. by apply Hothers.
  - intros [HY|HN]; apply Hempty.
    + left. rewrite HY in Hbids. by apply Permutation_nil_r in Hbids.
    + right. rewrite HN in Hasks. by apply Permutation_nil_r in Hasks.
Qed.

Lemma handleMessage_book_witness :
  let fields : gmap string JSON :=
    {["yes_dollars" := JArray [JArray [JString "0.60"; JString "100"]]]} in
  let msg : gmap string JSON :=
    <["orderbook_fp" := JObject fields]>
      (<["ticker" := JString "T"]> {["type" := JString "orderbook"]}) in
  Engine.timeSeries
    (Stream.handleMessage parseDecimal (fun _ => "0.0000"%string) (fun _ => 5)
       (Some msg) surgeState)
  = Engine.timeSeries surgeState.
Proof.
  intros fields msg.
  destruct (handleMessage_book parseDecimal (fun _ => "0.0000"%string) (fun _ => 5) msg fields
              surgeState "orderbook" "T")
    as (ob & _ & _ & _ & _ & _ & _ & _ & _ & Hempty);
    [reflexivity|list_in|reflexivity|reflexivity|].
  apply Hempty. right. reflexivity.
Defined.

(** X13: one poll of the order books changes nothing but the books and
    snapshot rings of the active markets whose request succeeded: markets
    and trade logs are untouched, and a ticker that no active market with a
    successful request carries keeps its book and its snapshots. *)
Theorem fetchAllOrderbooks_frame
    (ParseFloat : string -> option float) (clock : nat -> nat -> Time)
    (fetch : nat -> option KalshiOrderbookResponse)
    (markets : list Market.t) (state : Engine.t) (ticker : string) :
  let state' := Stream.fetchAllOrderbooks ParseFloat clock fetch markets state in
  Engine.markets state' = Engine.markets state
  /\ Engine.tradeLogs state' = Engine.tradeLogs state
  /\ ((forall i market, markets !! i = Some market -> Market.Ticker market = ticker ->
         Market.Status market = StatusActive -> fetch i = None) ->
      Engine.orderbooks state' !! ticker = Engine.orderbooks state !! ticker
      /\ snapshotsOf ticker state' = snapshotsOf ticker state).
Proof.
  assert (H : forall (ims : list (nat * Market.t)) st,
    let st' := fold_left
      (fun state (im : nat * Market.t) =>
         if negb (String.eqb (Market.Status im.2) StatusActive) then state
         else match fetch im.1 with
              | None => state
              | Some orderbook =>
                  Engine.UpdateOrderbook (clock im.1 2%nat) (clock im.1 3%nat)
                    (Market.Ticker im.2)
                    (Orderbook.UpdateFromKalshi ParseFloat (clock im.1 1%nat) orderbook
                       (Orderbook.NewOrderbook (clock im.1 0%nat) (Market.Ticker im.2))) state
              end) ims st in
    Engine.markets st' = Engine.markets st
    /\ Engine.tradeLogs st' = Engine.tradeLogs st
    /\ ((forall im, im ∈ ims -> Market.Ticker im.2 = ticker ->
           Market.Status im.2 = StatusActive -> fetch im.1 = None) ->
        Engine.orderbooks st' !! ticker = Engine.orderbooks st !! ticker
        /\ snapshotsOf ticker st' = snapshotsOf ticker st)).
  { induction ims as [|[i m] ims IH]; intros st; simpl; [done|].
    set (st1 := if negb _ then st else _).
    destruct (IH st1) as (Hm & Hl & Hkeep).
    assert (Hstep : Engine.markets st1 = Engine.markets st
                    /\ Engine.tradeLogs st1 = Engine.tradeLogs st
                    /\ ((Market.Ticker m = ticker -> Market.Status m = StatusActive ->
                         fetch i = None) ->
                        Engine.orderbooks st1 !! ticker = Engine.orderbooks st !! ticker
                        /\ snapshotsOf ticker st1 = snapshotsOf ticker st)).
    { unfold st1. simpl.
      destruct (String.eqb_spec (Market.Status m) StatusActive) as [Hact|Hact]; simpl; [|done].
      destruct (fetch i) as [resp|] eqn:Hfetch; [|done].
      destruct (UpdateOrderbook_frame (clock i 2%nat) (clock i 3%nat) (Market.Ticker m)
                  (Orderbook.UpdateFromKalshi ParseFloat (clock i 1%nat) resp
                     (Orderbook.NewOrderbook (clock i 0%nat) (Market.Ticker m))) st)
        as (Hm1 & Hl1 & _ & Hothers & _).
      split; [done|]. split; [done|]. intros Hnone.
      destruct (decide (ticker = Market.Ticker m)) as [->|Hne]; [by discriminate Hnone|].
      by apply Hothers. }
    destruct Hstep as (Hm1 & Hl1 & Hkeep1).
    split; [congruence|]. split; [congruence|]. intros Hnone.
    destruct Hkeep as [Hob Hsn]; [intros im Him; apply Hnone; by right|].
    destruct Hkeep1 as [Hob1 Hsn1]; [apply (Hnone (i, m)); by left|].
    split; congruence. }
  intros state'. destruct (H (imap (fun i m => (i, m)) markets) state) as (Hm & Hl & Hkeep).
  split; [exact Hm|]. split; [exact Hl|]. intros Hnone. apply Hkeep.
  intros [i m] Him. apply list_elem_of_lookup in Him as [j Hj].
  rewrite list_lookup_imap in Hj. destruct (markets !! j) as [m'|] eqn:Hmj; [|done].
  simpl in Hj. injection Hj as <- <-. simpl. by apply Hnone.
Qed.

Lemma fetchAllOrderbooks_frame_witness :
  Engine.orderbooks
    (Stream.fetchAllOrderbooks parseDecimal (fun _ _ => 9) (fun _ => None) [surgeMarket] surgeState)
    !! "T"
  = Engine.orderbooks surgeState !! "T".
Proof.
  apply (fetchAllOrderbooks_frame parseDecimal (fun _ _ => 9) (fun _ => None) [surgeMarket]
           surgeState "T").
  done.
Defined.

(** ** Order book: depth near the mid *)

Lemma wrap64_add_l a b : wrap64 (wrap64 a + b) = wrap64 (a + b).
Proof.
  unfold wrap64. f_equal.
  replace ((a + 2 ^ 63) mod 2 ^ 64 - 2 ^ 63 + b + 2 ^ 63)
    with ((a + 2 ^ 63) mod 2 ^ 64 + b) by lia.
  rewrite Zplus_mod_idemp_l. f_equal. lia.
Qed.

Lemma depth_loop_sum (keep : PriceLevel.t -> bool) side acc :
  int_min <= acc <= int_max ->
  fold_left
    (fun depth level => if keep level then int_add depth (PriceLevel.Quantity level) else depth)
    side acc
  = wrap64 (acc + quantityWhere keep side).
Proof.
  revert acc. induction side as [|level side IH]; intros acc Hacc; simpl.
  - rewrite Z.add_0_r. symmetry. by apply wrap64_id.
  - destruct (keep level).
    + rewrite IH by apply wrap64_range. unfold int_add.
      rewrite wrap64_add_l. f_equal. lia.
    + by apply IH.
Qed.

Lemma quantityWhere_mono (keep keep' : PriceLevel.t -> bool) side :
  (forall level, keep level = true -> keep' level = true) ->
  Forall (fun level => 0 <= PriceLevel.Quantity level) side ->
  0 <= quantityWhere keep side <= quantityWhere keep' side
  /\ quantityWhere keep' side <= totalQuantity side.
Proof.
  intros Himp. induction 1 as [|level side Hq _ IH]; simpl; [lia|].
  unfold totalQuantity in *. simpl.
  destruct (keep level) eqn:Hk.
  - rewrite (Himp _ Hk). lia.
  - destruct (keep' level); lia.
Qed.

(** X14: on a book with non-negative quantities whose totals fit in an
    integer and with prices of modest magnitude, [DepthAtPrice] is monotone
    in the distance from the mid: a larger distance never gives less depth
    on either side, and the depth never exceeds the total quantity of the
    side. A book with an empty side gives (0, 0). *)
Theorem DepthAtPrice_monotone (ob : Orderbook.t) (c c' : Z) :
  Forall modestLevel (Orderbook.Bids ob) -> Forall modestLevel (Orderbook.Asks ob) ->
  totalQuantity (Orderbook.Bids ob) <= int_max ->
  totalQuantity (Orderbook.Asks ob) <= int_max ->
  - 2 ^ 61 <= c -> c <= c' -> c' <= 2 ^ 61 ->
  let near := Orderbook.DepthAtPrice c ob in
  let far := Orderbook.DepthAtPrice c' ob in
  (0 <= near.1 <= far.1 /\ far.1 <= totalQuantity (Orderbook.Bids ob))
  /\ (0 <= near.2 <= far.2 /\ far.2 <= totalQuantity (Orderbook.Asks ob))
  /\ (Orderbook.Bids ob = [] \/ Orderbook.Asks ob = [] -> near = (0, 0)).
Proof.
  intros Hbids Hasks Htb Hta Hc Hcc Hc' near far.
  assert (Hqb : Forall (fun l => 0 <= PriceLevel.Quantity l) (Orderbook.Bids ob))
    by (eapply Forall_impl; [exact Hbids|by intros ? [_ ?]]).
  assert (Hqa : Forall (fun l => 0 <= PriceLevel.Quantity l) (Orderbook.Asks ob))
    by (eapply Forall_impl; [exact Hasks|by intros ? [_ ?]]).
  assert (Hnonneg : forall side, Forall (fun l => 0 <= PriceLevel.Quantity l) side ->
                    0 <= totalQuantity side).
  { intros side Hs.
    destruct (quantityWhere_mono (fun _ => true) (fun _ => true) side); [done|done|].
    unfold totalQuantity. lia. }
  unfold near, far, Orderbook.DepthAtPrice.
  destruct (Orderbook.Bids ob) as [|bid bids] eqn:Eb.
  { cbn -[totalQuantity]. split; [split; [lia|by apply Hnonneg]|].
    split; [split; [lia|by apply Hnonneg]|done]. }
  destruct (Orderbook.Asks ob) as [|ask asks] eqn:Ea.
  { cbn -[totalQuantity]. split; [split; [lia|by apply Hnonneg]|].
    split; [split; [lia|by apply Hnonneg]|done]. }
  apply Forall_inv in Hbids as Hbid. apply Forall_inv in Hasks as Hask.
  destruct Hbid as [Hpb _], Hask as [Hpa _].
  set (mid := Z.quot (int_add (PriceLevel.Price bid) (PriceLevel.Price ask)) 2).
  assert (Hmid : - 2 ^ 61 <= mid <= 2 ^ 61).
  { unfold mid, int_add. rewrite wrap64_id by (unfold int_min, int_max; lia).
    split.
    - apply Z.quot_le_lower_bound; lia.
    - apply Z.quot_le_upper_bound; lia. }
  clearbody mid.
  assert (Hsub : forall d, - 2 ^ 61 <= d <= 2 ^ 61 -> int_sub mid d = mid - d).
  { intros d Hd. unfold int_sub. apply wrap64_id. unfold int_min, int_max. lia. }
  assert (Hadd : forall d, - 2 ^ 61 <= d <= 2 ^ 61 -> int_add mid d = mid + d).
  { intros d Hd. unfold int_add. apply wrap64_id. unfold int_min, int_max. lia. }
  rewrite !Hsub, !Hadd by lia. cbn [fst snd].
  rewrite !depth_loop_sum by (unfold int_min, int_max; lia). rewrite !Z.add_0_l.
  destruct (quantityWhere_mono
              (fun level => mid - c <=? PriceLevel.Price level)
              (fun level => mid - c' <=? PriceLevel.Price level) (bid :: bids))
    as [Hb1 Hb2]; [intros level; rewrite !Z.leb_le; lia|done|].
  destruct (quantityWhere_mono
              (fun level => PriceLevel.Price level <=? mid + c)
              (fun level => PriceLevel.Price level <=? mid + c') (ask :: asks))
    as [Ha1 Ha2]; [intros level; rewrite !Z.leb_le; lia|done|].
  rewrite !wrap64_id by (unfold int_min, int_max in *; lia).
  split; [lia|]. split; [lia|]. intros [?|?]; done.
Qed.

Lemma DepthAtPrice_monotone_witness :
  let ob := Orderbook.mk "T" [PriceLevel.mk 60 40; PriceLevel.mk 59 30; PriceLevel.mk 58 50]
              [PriceLevel.mk 62 100] 0 in
  (Orderbook.DepthAtPrice 1 ob).1 <= (Orderbook.DepthAtPrice 5 ob).1.
Proof.
  intros ob.
  assert (Hb : Forall modestLevel (Orderbook.Bids ob))
    by (repeat constructor; simpl; lia).
  assert (Ha : Forall modestLevel (Orderbook.Asks ob))
    by (repeat constructor; simpl; lia).
  assert (Htb : totalQuantity (Orderbook.Bids ob) <= int_max)
    by (vm_compute; discriminate).
  assert (Hta : totalQuantity (Orderbook.Asks ob) <= int_max)
    by (vm_compute; discriminate).
  assert (H1 : - 2 ^ 61 <= 1) by lia.
  assert (H2 : 1 <= 5) by lia.
  assert (H3 : 5 <= 2 ^ 61) by lia.
  exact (proj2 (proj1 (proj1 (DepthAtPrice_monotone ob 1 5 Hb Ha Htb Hta H1 H2 H3)))).
Defined.

(** ** Scanner *)

Lemma walkBids_short bids remaining totalCost :
  0 < remaining <= int_max ->
  Forall (fun level => 0 <= PriceLevel.Quantity level) bids ->
  totalQuantity bids < remaining ->
  (Scanner.walkBids bids remaining totalCost).1 = remaining - totalQuantity bids.
Proof.
  revert remaining totalCost.
  induction bids as [|level bids IH]; intros remaining totalCost Hr Hq Htotal.
  - unfold totalQuantity. simpl. lia.
  - apply Forall_cons in Hq as [Hlevel Hq].
    unfold totalQuantity in *. simpl in *.
    assert (Hrest : 0 <= quantityWhere (fun _ => true) bids).
    { destruct (quantityWhere_mono (fun _ => true) (fun _ => true) bids); [done|done|lia]. }
    destruct (Z.leb_spec remaining 0); [lia|].
    destruct (Z.ltb_spec (PriceLevel.Quantity level) remaining); [|lia].
    assert (Hsub : int_sub remaining (PriceLevel.Quantity level)
                   = remaining - PriceLevel.Quantity level).
    { unfold int_sub. apply wrap64_id. unfold int_min, int_max in *. lia. }
    rewrite Hsub, IH by (try done; lia). lia.
Qed.

(** X15: when the bids cannot absorb the requested quantity (their
    quantities are non-negative and add up to less than it),
    [estimateSlippage] returns the sentinel 10000; this holds in particular
    for a book without bids. With both sides non-empty it never fails. *)
Theorem estimateSlippage_cannot_fill (ob : Orderbook.t) (quantity : Z) :
  (0 < quantity <= int_max ->
   Forall (fun level => 0 <= PriceLevel.Quantity level) (Orderbook.Bids ob) ->
   totalQuantity (Orderbook.Bids ob) < quantity ->
   Scanner.estimateSlippage ob quantity = Some 10000)
  /\ (Orderbook.Bids ob <> [] -> Orderbook.Asks ob <> [] ->
      is_Some (Scanner.estimateSlippage ob quantity)).
Proof.
  split.
  - intros Hq Hbids Hshort. unfold Scanner.estimateSlippage.
    pose proof (walkBids_short (Orderbook.Bids ob) quantity 0 Hq Hbids Hshort) as Hwalk.
    destruct (Scanner.walkBids (Orderbook.Bids ob) quantity 0) as [remaining totalCost].
    simpl in Hwalk.
    assert (Hnonneg : 0 <= totalQuantity (Orderbook.Bids ob)).
    { destruct (quantityWhere_mono (fun _ => true) (fun _ => true) (Orderbook.Bids ob));
        [done|done|]. unfold totalQuantity. lia. }
    destruct (Z.ltb_spec 0 remaining); [done|lia].
  - intros Hb Ha. unfold Scanner.estimateSlippage.
    destruct (Scanner.walkBids (Orderbook.Bids ob) quantity 0) as [remaining totalCost].
    destruct (0 <? remaining); [by eexists|].
    destruct (Orderbook.Bids ob); [done|]. destruct (Orderbook.Asks ob); [done|].
    by eexists.
Qed.

Lemma estimateSlippage_cannot_fill_witness :
  Scanner.estimateSlippage
    (Orderbook.mk "T" [PriceLevel.mk 60 40; PriceLevel.mk 59 30] [PriceLevel.mk 62 100] 0) 100
  = Some 10000.
Proof.
  apply (estimateSlippage_cannot_fill
           (Orderbook.mk "T" [PriceLevel.mk 60 40; PriceLevel.mk 59 30] [PriceLevel.mk 62 100] 0)
           100).
  - unfold int_max. lia.
  - repeat constructor; simpl; lia.
  - vm_compute. reflexivity.
Defined.

(** ** No-arbitrage detector: groups and violations *)

Lemma GroupMarketsByEvent_fold markets (groups : gmap string (list string)) eventTicker :
  fold_left
    (fun groups market =>
       if negb (String.eqb (Market.Status market) StatusActive) then groups
       else
         let eventTicker := Market.EventTicker market in
         if String.eqb eventTicker "" then groups
         else <[eventTicker := default [] (groups !! eventTicker) ++ [Market.Ticker market]]> groups)
    markets groups !! eventTicker
  = if String.eqb eventTicker "" then groups !! eventTicker
    else match membersOf eventTicker markets with
         | [] => groups !! eventTicker
         | new => Some (default [] (groups !! eventTicker) ++ new)
         end.
Proof.
  revert groups. induction markets as [|market markets IH]; intros groups.
  - simpl. by destruct (String.eqb eventTicker "").
  - cbn [fold_left]. rewrite IH. clear IH.
    destruct (String.eqb_spec eventTicker "") as [->|Hev].
    + destruct (negb _); [done|].
      destruct (String.eqb_spec (Market.EventTicker market) ""); [done|].
      by rewrite lookup_insert_ne.
    + unfold membersOf.
      destruct (String.eqb (Market.Status market) StatusActive) eqn:Hactive; simpl.
      * destruct (String.eqb_spec (Market.EventTicker market) eventTicker) as [He|He].
        -- rewrite filter_cons_True by (by rewrite Hactive, He, String.eqb_refl).
           rewrite He. destruct (String.eqb_spec eventTicker ""); [done|].
           rewrite lookup_insert_eq, fmap_cons.
           set (rest := Market.Ticker <$> filter _ markets). simpl.
           destruct rest; [done|]. by rewrite <- app_assoc.
        -- rewrite filter_cons_False.
           2:{ rewrite Hactive. simpl. destruct (String.eqb_spec (Market.EventTicker market) eventTicker);
               [done|]. discriminate. }
           destruct (String.eqb_spec (Market.EventTicker market) ""); [done|].
           by rewrite lookup_insert_ne.
      * rewrite filter_cons_False by (rewrite Hactive; discriminate). done.
Qed.

Lemma GroupMarketsByEvent_lookup markets eventTicker :
  NoArbEngine.GroupMarketsByEvent markets !! eventTicker
  = if String.eqb eventTicker "" then None
    else match membersOf eventTicker markets with
         | [] => None
         | tickers => Some tickers
         end.
Proof.
  unfold NoArbEngine.GroupMarketsByEvent. rewrite GroupMarketsByEvent_fold.
  rewrite lookup_empty. destruct (String.eqb eventTicker ""); [done|].
  by destruct (membersOf eventTicker markets).
Qed.

(** X16: [GroupMarketsByEvent] maps an event ticker to a list exactly when
    the ticker is not empty and some active market carries it, and the list
    is then the tickers of the active markets of that event, in the order of
    the slice. Markets that are not active and markets without an event
    ticker are in no group. *)
Theorem GroupMarketsByEvent_members (markets : list Market.t) (eventTicker : string)
    (tickers : list string) :
  NoArbEngine.GroupMarketsByEvent markets !! eventTicker = Some tickers
  <-> eventTicker <> "" /\ tickers <> [] /\ tickers = membersOf eventTicker markets.
Proof.
  rewrite GroupMarketsByEvent_lookup.
  destruct (String.eqb_spec eventTicker "") as [->|Hev].
  - split; [done|]. by intros [? _].
  - destruct (membersOf eventTicker markets) as [|ticker rest] eqn:Hm.
    + split; [done|]. intros (_ & Hne & ->). done.
    + split.
      * intros [= <-]. done.
      * intros (_ & _ & ->). done.
Qed.

Section NoArbSoundness.
Variable state : Engine.t.

Lemma scanGroup_Some tickers sumBuyPrice sumSellPrice minLiquidity result :
  NoArbEngine.scanGroup state tickers (sumBuyPrice, sumSellPrice, minLiquidity) = Some result ->
  Forall (fun ticker => is_Some (topOfBook state ticker)) tickers
  /\ result.2 <= minLiquidity
  /\ Forall (fun ticker => forall bid ask, topOfBook state ticker = Some (bid, ask) ->
               result.2 <= PriceLevel.Quantity bid /\ result.2 <= PriceLevel.Quantity ask)
       tickers
  /\ (result.2 = minLiquidity
      \/ exists ticker bid ask, ticker ∈ tickers /\ topOfBook state ticker = Some (bid, ask)
           /\ (result.2 = PriceLevel.Quantity bid \/ result.2 = PriceLevel.Quantity ask)).
Proof.
  revert sumBuyPrice sumSellPrice minLiquidity.
  induction tickers as [|ticker tickers IH]; intros b s l; cbn [NoArbEngine.scanGroup].
  - intros [= <-]. simpl. split; [constructor|]. split; [lia|]. split; [constructor|by left].
  - unfold Engine.GetOrderbook.
    destruct (Engine.orderbooks state !! ticker) as [ob|] eqn:Hob; [|done]. simpl.
    destruct (Orderbook.Bids ob) as [|bid bids] eqn:Hb; [done|].
    destruct (Orderbook.Asks ob) as [|ask asks] eqn:Ha; [done|].
    intros Hscan. apply IH in Hscan as (Hall & Hle & Hmin & Hatt).
    assert (Htop : topOfBook state ticker = Some (bid, ask))
      by (unfold topOfBook; by rewrite Hob, Hb, Ha).
    set (l1 := if PriceLevel.Quantity bid <? l then PriceLevel.Quantity bid else l) in *.
    set (l2 := if PriceLevel.Quantity ask <? l1 then PriceLevel.Quantity ask else l1) in *.
    assert (Hl1 : l1 <= l /\ l1 <= PriceLevel.Quantity bid
                  /\ (l1 = l \/ l1 = PriceLevel.Quantity bid)).
    { unfold l1. destruct (Z.ltb_spec (PriceLevel.Quantity bid) l); lia. }
    assert (Hl2 : l2 <= l1 /\ l2 <= PriceLevel.Quantity ask
                  /\ (l2 = l1 \/ l2 = PriceLevel.Quantity ask)).
    { unfold l2. destruct (Z.ltb_spec (PriceLevel.Quantity ask) l1); lia. }
    split; [constructor; [by eexists|done]|].
    split; [lia|].
    split.
    + constructor; [|done]. intros bid' ask'. rewrite Htop. intros [= <- <-]. lia.
    + destruct Hatt as [Heq|(t & bid' & ask' & Hin & Htop' & Hq)].
      * destruct (decide (result.2 = l)) as [?|Hne]; [by left|].
        right. exists ticker, bid, ask. split; [by left|]. split; [done|]. lia.
      * right. exists t, bid', ask'. split; [by right|]. done.
Qed.

Lemma checkEventGroup_Some now eventTicker tickers v :
  NoArbEngine.checkEventGroup now state eventTicker tickers = Some v ->
  exists result,
    NoArbEngine.scanGroup state tickers (0%float, 0%float, 1000000) = Some result
    /\ NoArbViolation.EventTicker v = eventTicker
    /\ NoArbViolation.Markets v = tickers
    /\ NoArbViolation.Timestamp v = now
    /\ NoArbViolation.SumBuyPrice v = result.1.1
    /\ NoArbViolation.SumSellPrice v = result.1.2
    /\ NoArbViolation.Liquidity v = result.2
    /\ (NoArbViolation.Actionable v = true -> 10 <= result.2).
Proof.
  unfold NoArbEngine.checkEventGroup.
  destruct (NoArbEngine.scanGroup state tickers (0%float, 0%float, 1000000))
    as [[[b s] l]|]; [|done].
  intros Hv. exists (b, s, l). split; [done|].
  destruct (PrimFloat.ltb b 1).
  - injection Hv as <-. simpl. repeat (split; [done|]).
    intros [_ ?%Z.leb_le]%andb_true_iff. done.
  - destruct (float_gtb s 1); [|done].
    injection Hv as <-. simpl. repeat (split; [done|]).
    intros [_ ?%Z.leb_le]%andb_true_iff. done.
Qed.

End NoArbSoundness.

(** X17: a violation returned by [checkEventGroup] is about a group whose
    members all have a two-sided book; its liquidity is at most 1000000 and
    at most the quantity of the best bid and of the best ask of every
    member, and it is 1000000 or one of these quantities; its sums are the
    sums of the best asks and of the best bids; and it is actionable only
    with a liquidity of at least 10. *)
Theorem checkEventGroup_sound (state : Engine.t) (now : Time) (eventTicker : string)
    (tickers : list string) (v : NoArbViolation.t) :
  NoArbEngine.checkEventGroup now state eventTicker tickers = Some v ->
  NoArbViolation.EventTicker v = eventTicker
  /\ NoArbViolation.Markets v = tickers
  /\ NoArbViolation.SumBuyPrice v = sumBuy state tickers
  /\ NoArbViolation.SumSellPrice v = sumSell state tickers
  /\ NoArbViolation.Liquidity v <= 1000000
  /\ (forall ticker, ticker ∈ tickers ->
        exists bid ask, topOfBook state ticker = Some (bid, ask)
          /\ NoArbViolation.Liquidity v <= PriceLevel.Quantity bid
          /\ NoArbViolation.Liquidity v <= PriceLevel.Quantity ask)
  /\ (NoArbViolation.Liquidity v = 1000000
      \/ exists ticker bid ask, ticker ∈ tickers /\ topOfBook state ticker = Some (bid, ask)
           /\ (NoArbViolation.Liquidity v = PriceLevel.Quantity bid
               \/ NoArbViolation.Liquidity v = PriceLevel.Quantity ask))
  /\ (NoArbViolation.Actionable v = true -> 10 <= NoArbViolation.Liquidity v).
Proof.
  intros Hv.
  destruct (checkEventGroup_Some state now eventTicker tickers v Hv)
    as (result & Hscan & Hev & Hmk & _ & Hbuy & Hsell & Hliq & Hact).
  destruct (scanGroup_Some state tickers _ _ _ _ Hscan) as (Hall & Hle & Hmin & Hatt).
  destruct (scanGroup_valid state tickers 0%float 0%float 1000000 Hall) as [l Hvalid].
  rewrite Hvalid in Hscan. injection Hscan as <-. simpl in *.
  rewrite Hliq.
  split; [done|]. split; [done|]. split; [done|]. split; [done|]. split; [done|].
  split; [|done].
  intros ticker Hin.
  rewrite Forall_forall in Hall, Hmin.
  destruct (Hall ticker Hin) as [[bid ask] Htop].
  exists bid, ask. split; [done|]. by apply (Hmin ticker Hin).
Qed.

Lemma checkEventGroup_sound_witness :
  exists v, NoArbEngine.checkEventGroup 0 S4_state "E" ["A"; "B"; "C"] = Some v
    /\ NoArbViolation.Liquidity v <= 1000000.
Proof.
  destruct (NoArbEngine.checkEventGroup 0 S4_state "E" ["A"; "B"; "C"]) as [v|] eqn:Hv;
    [|vm_compute in Hv; discriminate].
  exists v. split; [reflexivity|].
  exact (proj1 (proj2 (proj2 (proj2 (proj2
           (checkEventGroup_sound S4_state 0 "E" ["A"; "B"; "C"] v Hv)))))).
Defined.

Lemma CheckNoArbViolations_fold clock state (groups : list (string * list string)) acc v :
  v ∈ fold_left
        (fun violations group =>
           let '(eventTicker, marketTickers) := group in
           if (length marketTickers <? 2)%nat then violations
           else
             match NoArbEngine.checkEventGroup (clock eventTicker) state eventTicker
                     marketTickers with
             | Some violation => violations ++ [violation]
             | None => violations
             end)
        groups acc
  <-> v ∈ acc
      \/ exists eventTicker marketTickers,
           (eventTicker, marketTickers) ∈ groups
           /\ (2 <= length marketTickers)%nat
           /\ NoArbEngine.checkEventGroup (clock eventTicker) state eventTicker marketTickers
              = Some v.
Proof.
  revert acc. induction groups as [|[ev ts] groups IH]; intros acc; cbn [fold_left].
  - split; [by left|]. intros [?|(? & ? & Hin & _)]; [done|by apply elem_of_nil in Hin].
  - rewrite IH. clear IH. split.
    + intros [Hacc|(ev' & ts' & Hin & Hlen & Hcheck)].
      * destruct (Nat.ltb_spec (length ts) 2); [by left|].
        destruct (NoArbEngine.checkEventGroup (clock ev) state ev ts) as [v'|] eqn:Hcheck;
          [|by left].
        apply elem_of_app in Hacc as [?|Hv]; [by left|]. apply list_elem_of_singleton in Hv as ->.
        right. exists ev, ts. split; [by left|]. done.
      * right. exists ev', ts'. split; [by right|]. done.
    + intros [Hacc|(ev' & ts' & Hin & Hlen & Hcheck)].
      * left. destruct (_ <? _)%nat; [done|].
        destruct (NoArbEngine.checkEventGroup (clock ev) state ev ts); [|done].
        apply elem_of_app. by left.
      * apply elem_of_cons in Hin as [Heq|Hin].
        -- injection Heq as -> ->.
           left. destruct (Nat.ltb_spec (length ts) 2); [lia|].
           rewrite Hcheck. apply elem_of_app. right. by left.
        -- right. exists ev', ts'. done.
Qed.

Lemma CheckNoArbViolations_events clock state (groups : list (string * list string)) acc :
  (NoArbViolation.EventTicker <$>
     fold_left
       (fun violations group =>
          let '(eventTicker, marketTickers) := group in
          if (length marketTickers <? 2)%nat then violations
          else
            match NoArbEngine.checkEventGroup (clock eventTicker) state eventTicker
                    marketTickers with
            | Some violation => violations ++ [violation]
            | None => violations
            end)
       groups acc)
  `sublist_of` (NoArbViolation.EventTicker <$> acc) ++ groups.*1.
Proof.
  revert acc. induction groups as [|[ev ts] groups IH]; intros acc; cbn [fold_left].
  - simpl. by rewrite app_nil_r.
  - etransitivity; [apply IH|]. simpl.
    destruct (_ <? _)%nat.
    + apply sublist_app; [done|]. by apply sublist_cons.
    + destruct (NoArbEngine.checkEventGroup (clock ev) state ev ts) as [v|] eqn:Hcheck.
      * apply checkEventGroup_Some in Hcheck as (_ & _ & Hev & _).
        rewrite fmap_app. simpl. rewrite Hev, <- app_assoc. done.
      * apply sublist_app; [done|]. by apply sublist_cons.
Qed.

(** X18: [CheckNoArbViolations] returns exactly the violations that
    [checkEventGroup] finds for the events with at least two active
    markets, each checked on the tickers of its active markets, and at most
    one violation per event. *)
Theorem CheckNoArbViolations_sound (clock : string -> Time) (state : Engine.t)
    (markets : list Market.t) :
  (forall v, v ∈ NoArbEngine.CheckNoArbViolations clock state markets
     <-> exists eventTicker,
           eventTicker <> ""
           /\ (2 <= length (membersOf eventTicker markets))%nat
           /\ NoArbEngine.checkEventGroup (clock eventTicker) state eventTicker
                (membersOf eventTicker markets) = Some v)
  /\ NoDup (NoArbViolation.EventTicker
              <$> NoArbEngine.CheckNoArbViolations clock state markets).
Proof.
  unfold NoArbEngine.CheckNoArbViolations. split.
  - intros v. rewrite CheckNoArbViolations_fold. split.
    + intros [Hnil|(ev & ts & Hin & Hlen & Hcheck)]; [by apply elem_of_nil in Hnil|].
      apply elem_of_map_to_list in Hin. rewrite GroupMarketsByEvent_lookup in Hin.
      destruct (String.eqb_spec ev ""); [done|].
      exists ev. destruct (membersOf ev markets) eqn:Hm; [done|].
      injection Hin as <-. done.
    + intros (ev & Hev & Hlen & Hcheck). right.
      exists ev, (membersOf ev markets). split; [|done].
      apply elem_of_map_to_list. rewrite GroupMarketsByEvent_lookup.
      destruct (String.eqb_spec ev ""); [done|].
      destruct (membersOf ev markets); [simpl in Hlen; lia|done].
  - eapply sublist_NoDup; [|apply CheckNoArbViolations_events].
    simpl. apply NoDup_fst_map_to_list.
Qed.

Lemma estimateSlippage_total (ob : Orderbook.t) (quantity : Z) :
  Orderbook.Bids ob <> [] -> Orderbook.Asks ob <> [] ->
  is_Some (Scanner.estimateSlippage ob quantity).
Proof.
  intros Hb Ha. unfold Scanner.estimateSlippage.
  destruct (Scanner.walkBids (Orderbook.Bids ob) quantity 0) as [remaining totalCost].
  destruct (0 <? remaining); [by eexists|].
  destruct (Orderbook.Bids ob); [done|]. destruct (Orderbook.Asks ob); [done|].
  by eexists.
Qed.

Lemma analyzeMarket_top state now1 now2 now3 now4 ticker title status :
  match topOfBook state ticker with
  | Some (bid, ask) =>
      exists opp,
        Scanner.analyzeMarket state now1 now2 now3 now4 ticker title status = Some opp
        /\ MarketOpportunity.MarketTicker opp = ticker
        /\ MarketOpportunity.Title opp = title
        /\ MarketOpportunity.Status opp = status
        /\ MarketOpportunity.BestBid opp = PriceLevel.Price bid
        /\ MarketOpportunity.BestAsk opp = PriceLevel.Price ask
        /\ MarketOpportunity.Spread opp = int_sub (PriceLevel.Price ask) (PriceLevel.Price bid)
        /\ (MarketOpportunity.CanExecute100 opp = true ->
            100 <= MarketOpportunity.DepthAtTop5 opp /\ MarketOpportunity.Spread opp < 50)
  | None => Scanner.analyzeMarket state now1 now2 now3 now4 ticker title status = None
  end.
Proof.
  unfold topOfBook, Scanner.analyzeMarket, Engine.GetOrderbook.
  destruct (Engine.orderbooks state !! ticker) as [ob|]; [|done].
  cbn [fmap option_fmap option_map].
  change (Orderbook.Bids (Orderbook.Clone ob)) with (Orderbook.Bids ob).
  change (Orderbook.Asks (Orderbook.Clone ob)) with (Orderbook.Asks ob).
  destruct (Orderbook.Bids ob) as [|bid bids] eqn:Hb; [done|].
  destruct (Orderbook.Asks ob) as [|ask asks] eqn:Ha; [done|].
  destruct (Orderbook.DepthAtPrice 5 (Orderbook.Clone ob)) as [bidDepth5 askDepth5].
  destruct (Orderbook.Microprice (Orderbook.Clone ob)).
  all: destruct (estimateSlippage_total (Orderbook.Clone ob) 100) as [slippage Hs];
    [simpl; by rewrite Hb|simpl; by rewrite Ha|].
  all: rewrite Hs; eexists; split; [reflexivity|]; cbn.
  all: repeat (split; [reflexivity|]).
  all: intros [?%Z.leb_le ?%Z.ltb_lt]%andb_true_iff; done.
Qed.

Lemma ScanMarkets_fold state (clock : nat -> nat -> Time) (ims : list (nat * Market.t)) acc :
  MarketOpportunity.MarketTicker <$>
    fold_left
      (fun opportunities (im : nat * Market.t) =>
         let market : Market.t := im.2 in
         if negb (String.eqb (Market.Status market) StatusActive) then opportunities
         else
           match Scanner.analyzeMarket state (clock im.1 0%nat) (clock im.1 1%nat)
                   (clock im.1 2%nat) (clock im.1 3%nat) (Market.Ticker market)
                   (Market.Title market) (Market.Status market) with
           | Some opp => opportunities ++ [opp]
           | None => opportunities
           end)
      ims acc
  = (MarketOpportunity.MarketTicker <$> acc)
    ++ (Market.Ticker <$> filter (fun m => scannable state m = true) ims.*2).
Proof.
  revert acc. induction ims as [|[i market] ims IH]; intros acc; cbn [fold_left].
  - simpl. by rewrite app_nil_r.
  - rewrite IH. clear IH. cbn [fst snd fmap list_fmap].
    pose proof (analyzeMarket_top state (clock i 0%nat) (clock i 1%nat) (clock i 2%nat)
                  (clock i 3%nat) (Market.Ticker market) (Market.Title market)
                  (Market.Status market)) as Htop.
    destruct (String.eqb (Market.Status market) StatusActive) eqn:Hactive; simpl.
    + destruct (topOfBook state (Market.Ticker market)) as [[bid ask]|] eqn:Hbook.
      * destruct Htop as (opp & -> & Hticker & _).
        rewrite filter_cons_True by (unfold scannable; by rewrite Hactive, Hbook).
        rewrite fmap_app, <- app_assoc. simpl. by rewrite Hticker.
      * rewrite Htop.
        rewrite filter_cons_False; [done|]. unfold scannable. rewrite Hactive, Hbook. done.
    + rewrite filter_cons_False; [done|]. unfold scannable. rewrite Hactive. done.
Qed.

Lemma ScanMarkets_fold_Forall state (clock : nat -> nat -> Time) (P : MarketOpportunity.t -> Prop)
    (ims : list (nat * Market.t)) acc :
  (forall i market opp,
     String.eqb (Market.Status market) StatusActive = true ->
     Scanner.analyzeMarket state (clock i 0%nat) (clock i 1%nat) (clock i 2%nat)
       (clock i 3%nat) (Market.Ticker market) (Market.Title market) (Market.Status market)
     = Some opp -> P opp) ->
  Forall P acc ->
  Forall P
    (fold_left
      (fun opportunities (im : nat * Market.t) =>
         let market : Market.t := im.2 in
         if negb (String.eqb (Market.Status market) StatusActive) then opportunities
         else
           match Scanner.analyzeMarket state (clock im.1 0%nat) (clock im.1 1%nat)
                   (clock im.1 2%nat) (clock im.1 3%nat) (Market.Ticker market)
                   (Market.Title market) (Market.Status market) with
           | Some opp => opportunities ++ [opp]
           | None => opportunities
           end)
      ims acc).
Proof.
  intros HP. revert acc. induction ims as [|[i market] ims IH]; intros acc Hacc; cbn [fold_left].
  - done.
  - apply IH. cbn [fst snd].
    destruct (String.eqb (Market.Status market) StatusActive) eqn:Hactive; [|done]. simpl.
    destruct (Scanner.analyzeMarket _ _ _ _ _ _ _ _) as [opp|] eqn:Hopp; [|done].
    apply Forall_app. split; [done|]. constructor; [|constructor].
    by apply (HP i market opp).
Qed.

(** X19: [ScanMarkets] reports one opportunity for every active market
    whose book has both sides, and nothing else: the tickers of the result
    are, up to the order of the sort, those of these markets. Every
    opportunity carries the best bid, the best ask and their difference of
    the book of its ticker, has the status active, and is marked executable
    only with a depth of at least 100 near the mid and a spread below 50
    cents. *)
Theorem ScanMarkets_covers (state : Engine.t) (clock : nat -> nat -> Time)
    (markets : list Market.t) :
  Permutation (MarketOpportunity.MarketTicker <$> Scanner.ScanMarkets state clock markets)
              (Market.Ticker <$> filter (fun m => scannable state m = true) markets)
  /\ Forall (fun opp =>
               MarketOpportunity.Status opp = StatusActive
               /\ (exists bid ask,
                     topOfBook state (MarketOpportunity.MarketTicker opp) = Some (bid, ask)
                     /\ MarketOpportunity.BestBid opp = PriceLevel.Price bid
                     /\ MarketOpportunity.BestAsk opp = PriceLevel.Price ask
                     /\ MarketOpportunity.Spread opp
                        = int_sub (PriceLevel.Price ask) (PriceLevel.Price bid))
               /\ (MarketOpportunity.CanExecute100 opp = true ->
                   100 <= MarketOpportunity.DepthAtTop5 opp
                   /\ MarketOpportunity.Spread opp < 50))
       (Scanner.ScanMarkets state clock markets).
Proof.
  unfold Scanner.ScanMarkets. split.
  - rewrite sort_Slice_perm, ScanMarkets_fold. simpl.
    replace ((imap (fun i m => (i, m)) markets).*2) with markets; [done|].
    symmetry. apply list_eq. intros i.
    rewrite list_lookup_fmap, list_lookup_imap. by destruct (markets !! i).
  - eapply Permutation_Forall; [symmetry; apply sort_Slice_perm|].
    apply ScanMarkets_fold_Forall; [|constructor].
    intros i market opp Hactive Hopp.
    pose proof (analyzeMarket_top state (clock i 0%nat) (clock i 1%nat) (clock i 2%nat)
                  (clock i 3%nat) (Market.Ticker market) (Market.Title market)
                  (Market.Status market)) as Htop.
    destruct (topOfBook state (Market.Ticker market)) as [[bid ask]|] eqn:Hbook;
      [|congruence].
    destruct Htop as (opp' & Hopp' & Hticker & _ & Hstatus & Hbid & Hask & Hspread & Hexec).
    rewrite Hopp in Hopp'. injection Hopp' as <-.
    split; [rewrite Hstatus; by apply String.eqb_eq|].
    split; [|done]. exists bid, ask. rewrite Hticker. done.
Qed.

(** ** Alert engine *)

Section AlertFacts.
Variable formatStamp : Time -> string.
Variable FormatViolation : NoArbViolation.t -> string.

Lemma marketAlert_fields now_id now_stamp opp alertType reason inputs threshold currentValue
    suggestion action canExecute estimatedSlippage recommendedSize b :
  let alert :=
    AlertEngine.marketAlert formatStamp now_id now_stamp opp alertType reason inputs threshold
      currentValue suggestion action canExecute estimatedSlippage recommendedSize b in
  Alert.Type_ alert = alertType
  /\ Alert.MarketTicker alert = MarketOpportunity.MarketTicker opp
  /\ Alert.Title alert = MarketOpportunity.Title opp
  /\ Alert.Timestamp alert = now_stamp
  /\ Alert.Action alert = action
  /\ Alert.CanExecute alert = canExecute
  /\ Alert.RecommendedSize alert = recommendedSize
  /\ (Alert.Confidence alert, Alert.HitRate alert, Alert.SampleSize alert)
     = BacktestHarness.GetAlertStats (MarketOpportunity.MarketTicker opp) alertType b.
Proof.
  unfold AlertEngine.marketAlert.
  destruct (BacktestHarness.GetAlertStats _ _ _) as [[confidence hitRate] sampleSize].
  simpl. done.
Qed.

Lemma createNoArbAlert_fields now_id now_stamp violation b :
  let alert :=
    AlertEngine.createNoArbAlert formatStamp FormatViolation now_id now_stamp violation b in
  Alert.Type_ alert = AlertTypeNoArbViolation
  /\ Alert.MarketTicker alert = NoArbViolation.EventTicker violation
  /\ Alert.Action alert = "buy"
  /\ Alert.CanExecute alert = (10 <=? NoArbViolation.Liquidity violation)
  /\ Alert.RecommendedSize alert = NoArbViolation.Liquidity violation
  /\ (Alert.Confidence alert, Alert.HitRate alert, Alert.SampleSize alert)
     = BacktestHarness.GetAlertStats (NoArbViolation.EventTicker violation)
         AlertTypeNoArbViolation b.
Proof.
  unfold AlertEngine.createNoArbAlert.
  destruct (BacktestHarness.GetAlertStats _ _ _) as [[confidence hitRate] sampleSize].
  simpl. done.
Qed.

Lemma Forall_if_singleton {A : Type} (P : A -> Prop) (c : bool) (a : A) :
  (c = true -> P a) -> Forall P (if c then [a] else []).
Proof. destruct c; [|constructor]. intros HP. constructor; [by apply HP|constructor]. Qed.

Lemma sublist_if_singleton {A B : Type} (f : A -> B) (c : bool) (a : A) :
  f <$> (if c then [a] else []) `sublist_of` [f a].
Proof. destruct c; simpl; [done|]. apply sublist_nil_l. Qed.

(** X20: [checkMarketAlerts] raises at most one alert of each of its four
    types, in the order spread, depth, imbalance, execution. Every alert is
    about the market of the opportunity. A depth alert is executable and
    recommends half of the depth near the mid, which is more than 500; an
    execution alert is raised only for an executable opportunity and
    recommends 100 contracts; the two other alerts recommend no size and
    are executable when the opportunity is. *)
Theorem checkMarketAlerts_shape (clock : nat -> Time) (opp : MarketOpportunity.t)
    (b : BacktestHarness.t) :
  let alerts := AlertEngine.checkMarketAlerts formatStamp clock opp b in
  Alert.Type_ <$> alerts `sublist_of` marketAlertTypes
  /\ Forall (fun alert =>
               Alert.MarketTicker alert = MarketOpportunity.MarketTicker opp
               /\ Alert.Title alert = MarketOpportunity.Title opp
               /\ Alert.Action alert ∈ ["watch"; "buy"; "sell"]
               /\ (Alert.Type_ alert = AlertTypeDepthIncreased ->
                   500 < MarketOpportunity.DepthAtTop5 opp
                   /\ Alert.CanExecute alert = true
                   /\ Alert.RecommendedSize alert
                      = Z.quot (MarketOpportunity.DepthAtTop5 opp) 2
                   /\ 250 <= Alert.RecommendedSize alert)
               /\ (Alert.Type_ alert = AlertTypeExecutionReady ->
                   MarketOpportunity.CanExecute100 opp = true
                   /\ Alert.CanExecute alert = true
                   /\ Alert.RecommendedSize alert = 100)
               /\ (Alert.Type_ alert = AlertTypeSpreadTightened
                   \/ Alert.Type_ alert = AlertTypeImbalancePressure ->
                   Alert.CanExecute alert = MarketOpportunity.CanExecute100 opp
                   /\ Alert.RecommendedSize alert = 0))
       alerts.
Proof.
  intros alerts. unfold alerts, AlertEngine.checkMarketAlerts. split.
  - rewrite !fmap_app. unfold marketAlertTypes.
    change [AlertTypeSpreadTightened; AlertTypeDepthIncreased; AlertTypeImbalancePressure;
            AlertTypeExecutionReady]
      with ([AlertTypeSpreadTightened] ++ [AlertTypeDepthIncreased]
            ++ [AlertTypeImbalancePressure] ++ [AlertTypeExecutionReady]).
    repeat apply sublist_app.
    all: destruct (_ : bool); [|apply sublist_nil_l].
    all: cbn [fmap list_fmap].
    all: match goal with
         | |- [Alert.Type_ (AlertEngine.marketAlert ?f ?a ?b ?c ?d ?e ?g ?h ?i ?j ?k ?l ?m ?n ?o)]
                `sublist_of` _ =>
             rewrite (proj1 (marketAlert_fields a b c d e g h i j k l m n o))
         end.
    all: done.
  - repeat (apply Forall_app; split).
    all: apply Forall_if_singleton; intros Hc.
    all: match goal with
         | |- context [AlertEngine.marketAlert ?f ?a ?b ?c ?d ?e ?g ?h ?i ?j ?k ?l ?m ?n ?o] =>
             destruct (marketAlert_fields a b c d e g h i j k l m n o)
               as (Htype & Hticker & Htitle & _ & Haction & Hexec & Hsize & _)
         end.
    all: rewrite Htype, Hticker, Htitle, Haction, Hexec, Hsize.
    all: split; [done|]; split; [done|].
    + split; [list_in|]. split; [discriminate|]. split; [discriminate|]. done.
    + apply Z.ltb_lt in Hc.
      split; [list_in|]. split; [|split; [discriminate|intros [?|?]; discriminate]].
      intros _. split; [done|]. split; [done|]. split; [done|].
      apply Z.quot_le_lower_bound; lia.
    + split; [destruct (PrimFloat.ltb _ _); list_in|].
      split; [discriminate|]. split; [discriminate|]. done.
    + apply andb_true_iff in Hc as [_ Hc].
      split; [list_in|]. split; [discriminate|].
      split; [done|]. intros [?|?]; discriminate.
Qed.

Lemma fold_left_append_concat {A B : Type} (f : A -> list B) (l : list A) (acc : list B) :
  fold_left (fun acc x => acc ++ f x) l acc = acc ++ concat (f <$> l).
Proof.
  revert acc. induction l as [|x l IH]; intros acc; simpl.
  - by rewrite app_nil_r.
  - by rewrite IH, app_assoc.
Qed.

Lemma newAlerts_split oppClock arbClock opportunities violations b :
  AlertEngine.newAlerts formatStamp FormatViolation oppClock arbClock opportunities violations b
  = concat ((fun io : nat * MarketOpportunity.t =>
               AlertEngine.checkMarketAlerts formatStamp (oppClock io.1) io.2 b)
              <$> imap (fun i o => (i, o)) opportunities)
    ++ concat ((fun jv : nat * NoArbViolation.t =>
                  if NoArbViolation.Actionable jv.2
                  then [AlertEngine.createNoArbAlert formatStamp FormatViolation
                          (arbClock jv.1 0%nat) (arbClock jv.1 1%nat) jv.2 b]
                  else [])
                 <$> imap (fun j v => (j, v)) violations).
Proof.
  unfold AlertEngine.newAlerts.
  rewrite (fold_left_append_concat
             (fun io : nat * MarketOpportunity.t =>
                AlertEngine.checkMarketAlerts formatStamp (oppClock io.1) io.2 b)).
  simpl.
  rewrite <- (fold_left_append_concat
                (fun jv : nat * NoArbViolation.t =>
                   if NoArbViolation.Actionable jv.2
                   then [AlertEngine.createNoArbAlert formatStamp FormatViolation
                           (arbClock jv.1 0%nat) (arbClock jv.1 1%nat) jv.2 b]
                   else [])).
  generalize (concat ((fun io : nat * MarketOpportunity.t =>
                         AlertEngine.checkMarketAlerts formatStamp (oppClock io.1) io.2 b)
                        <$> imap (fun i o => (i, o)) opportunities)).
  generalize (imap (fun j (v : NoArbViolation.t) => (j, v)) violations).
  induction l as [|jv l IH]; intros acc; simpl; [done|].
  rewrite <- IH. destruct (NoArbViolation.Actionable jv.2); [done|].
  by rewrite app_nil_r.
Qed.

Lemma elem_of_concat {A : Type} (x : A) (ls : list (list A)) :
  x ∈ concat ls <-> exists l, x ∈ l /\ l ∈ ls.
Proof.
  induction ls as [|l0 ls IH]; simpl.
  - split; [by intros ?%elem_of_nil|]. by intros (? & _ & ?%elem_of_nil).
  - rewrite elem_of_app, IH. split.
    + intros [?|(l & ? & ?)]; [exists l0; split; [done|by left]|].
      exists l. split; [done|by right].
    + intros (l & Hx & Hl). apply elem_of_cons in Hl as [->|Hl]; [by left|].
      right. by exists l.
Qed.

Lemma or_iff_both (P Q P' Q' : Prop) : (P <-> P') -> (Q <-> Q') -> (P \/ Q <-> P' \/ Q').
Proof. tauto. Qed.

Lemma newAlerts_elem_of oppClock arbClock opportunities violations b alert :
  alert ∈ AlertEngine.newAlerts formatStamp FormatViolation oppClock arbClock opportunities
            violations b
  <-> (exists i opp, opportunities !! i = Some opp
         /\ alert ∈ AlertEngine.checkMarketAlerts formatStamp (oppClock i) opp b)
      \/ (exists j v, violations !! j = Some v /\ NoArbViolation.Actionable v = true
            /\ alert = AlertEngine.createNoArbAlert formatStamp FormatViolation
                         (arbClock j 0%nat) (arbClock j 1%nat) v b).
Proof.
  rewrite newAlerts_split, elem_of_app. apply or_iff_both.
  - rewrite elem_of_concat. split.
    + intros (l & Hin & Hl). apply list_elem_of_fmap in Hl as ([i opp] & -> & Hio).
      apply list_elem_of_lookup in Hio as [k Hk].
      rewrite list_lookup_imap in Hk.
      destruct (opportunities !! k) as [o|] eqn:Ho; [|done].
      injection Hk as <- <-. by exists k, o.
    + intros (i & opp & Hi & Hin).
      exists (AlertEngine.checkMarketAlerts formatStamp (oppClock i) opp b).
      split; [done|]. apply list_elem_of_fmap. exists (i, opp). split; [done|].
      apply list_elem_of_lookup. exists i. by rewrite list_lookup_imap, Hi.
  - rewrite elem_of_concat. split.
    + intros (l & Hin & Hl). apply list_elem_of_fmap in Hl as ([j v] & -> & Hjv).
      apply list_elem_of_lookup in Hjv as [k Hk].
      rewrite list_lookup_imap in Hk.
      destruct (violations !! k) as [v'|] eqn:Hv; [|done].
      injection Hk as <- <-. simpl in Hin.
      destruct (NoArbViolation.Actionable v') eqn:Hact; [|by apply elem_of_nil in Hin].
      apply list_elem_of_singleton in Hin. by exists k, v'.
    + intros (j & v & Hj & Hact & ->).
      eexists. split; [|apply list_elem_of_fmap; exists (j, v); split; [reflexivity|]].
      * simpl. rewrite Hact. by left.
      * apply list_elem_of_lookup. exists j. by rewrite list_lookup_imap, Hj.
Qed.

Lemma checkMarketAlerts_not_no_arb clock opp b alert :
  alert ∈ AlertEngine.checkMarketAlerts formatStamp clock opp b ->
  Alert.Type_ alert <> AlertTypeNoArbViolation.
Proof.
  unfold AlertEngine.checkMarketAlerts. rewrite !elem_of_app.
  intros Hin.
  repeat match type of Hin with
         | _ \/ _ => destruct Hin as [Hin|Hin]
         end.
  all: destruct (_ : bool); [|by apply elem_of_nil in Hin].
  all: apply list_elem_of_singleton in Hin as ->.
  all: match goal with
       | |- Alert.Type_ (AlertEngine.marketAlert ?f ?a ?b ?c ?d ?e ?g ?h ?i ?j ?k ?l ?m ?n ?o)
              <> _ =>
           rewrite (proj1 (marketAlert_fields a b c d e g h i j k l m n o))
       end.
  all: discriminate.
Qed.

Lemma CheckNoArbViolations_actionable clock state markets v :
  v ∈ NoArbEngine.CheckNoArbViolations clock state markets ->
  NoArbViolation.Actionable v = true -> 10 <= NoArbViolation.Liquidity v.
Proof.
  unfold NoArbEngine.CheckNoArbViolations. rewrite CheckNoArbViolations_fold.
  intros [Hnil|(ev & ts & _ & _ & Hcheck)]; [by apply elem_of_nil in Hnil|].
  apply checkEventGroup_Some in Hcheck as (result & _ & _ & _ & _ & _ & _ & -> & Hact).
  done.
Qed.

(** X21: the no-arbitrage alerts of [CheckAlerts] are those of the
    actionable violations of the detector: every alert of that type is
    about the event of an actionable violation, is executable, advises to
    buy and recommends the liquidity of the violation, which is at least
    10; and every actionable violation has its alert. Violations that are
    not actionable raise nothing. *)
Theorem CheckAlerts_no_arb_alerts (state : Engine.t)
    (scanClock : nat -> nat -> Time) (scanMarkets : list Market.t)
    (groupClock : string -> Time) (arbMarkets : list Market.t)
    (oppClock arbClock : nat -> nat -> Time) (e : AlertEngine.t) :
  let violations := NoArbEngine.CheckNoArbViolations groupClock state arbMarkets in
  let alerts :=
    (AlertEngine.CheckAlerts formatStamp FormatViolation state scanClock scanMarkets
       groupClock arbMarkets oppClock arbClock e).2 in
  (forall alert, alert ∈ alerts -> Alert.Type_ alert = AlertTypeNoArbViolation ->
     exists v, v ∈ violations /\ NoArbViolation.Actionable v = true
       /\ Alert.MarketTicker alert = NoArbViolation.EventTicker v
       /\ Alert.Action alert = "buy"
       /\ Alert.CanExecute alert = true
       /\ Alert.RecommendedSize alert = NoArbViolation.Liquidity v
       /\ 10 <= NoArbViolation.Liquidity v)
  /\ (forall v, v ∈ violations -> NoArbViolation.Actionable v = true ->
        exists alert, alert ∈ alerts /\ Alert.Type_ alert = AlertTypeNoArbViolation
          /\ Alert.MarketTicker alert = NoArbViolation.EventTicker v)
  /\ ((forall v, v ∈ violations -> NoArbViolation.Actionable v = false) ->
      forall alert, alert ∈ alerts -> Alert.Type_ alert <> AlertTypeNoArbViolation).
Proof.
  intros violations alerts. unfold alerts, AlertEngine.CheckAlerts. cbn [snd].
  fold violations.
  assert (Hsound : forall alert,
            alert ∈ AlertEngine.newAlerts formatStamp FormatViolation oppClock arbClock
                      (Scanner.ScanMarkets state scanClock scanMarkets) violations
                      (AlertEngine.backtest e) ->
            Alert.Type_ alert = AlertTypeNoArbViolation ->
            exists j v, violations !! j = Some v /\ NoArbViolation.Actionable v = true
              /\ alert = AlertEngine.createNoArbAlert formatStamp FormatViolation
                           (arbClock j 0%nat) (arbClock j 1%nat) v (AlertEngine.backtest e)).
  { intros alert Hin Htype. apply newAlerts_elem_of in Hin as [(i & opp & _ & Hin)|Hin];
      [|done].
    by apply checkMarketAlerts_not_no_arb in Hin. }
  split; [|split].
  - intros alert Hin Htype.
    destruct (Hsound alert Hin Htype) as (j & v & Hj & Hact & ->).
    assert (Hv : v ∈ violations) by (apply list_elem_of_lookup; by exists j).
    pose proof (CheckNoArbViolations_actionable _ _ _ _ Hv Hact) as Hliq.
    destruct (createNoArbAlert_fields (arbClock j 0%nat) (arbClock j 1%nat) v
                (AlertEngine.backtest e)) as (_ & Hticker & Haction & Hexec & Hsize & _).
    exists v. rewrite Hticker, Haction, Hexec, Hsize.
    repeat (split; [done|]). split; [by apply Z.leb_le|done].
  - intros v Hv Hact. apply list_elem_of_lookup in Hv as [j Hj].
    exists (AlertEngine.createNoArbAlert formatStamp FormatViolation
              (arbClock j 0%nat) (arbClock j 1%nat) v (AlertEngine.backtest e)).
    split.
    + apply newAlerts_elem_of. right. by exists j, v.
    + destruct (createNoArbAlert_fields (arbClock j 0%nat) (arbClock j 1%nat) v
                  (AlertEngine.backtest e)) as (Htype & Hticker & _).
      done.
  - intros Hnone alert Hin Htype.
    destruct (Hsound alert Hin Htype) as (j & v & Hj & Hact & _).
    rewrite (Hnone v) in Hact; [done|]. apply list_elem_of_lookup. by exists j.
Qed.

(** X22: [CheckAlerts] never changes the backtest harness, and with a
    harness without statistics, as [NewEngine] creates it, every alert
    carries the default statistics: confidence 0.3, hit rate 0 and sample
    size 0. *)
Theorem CheckAlerts_statistics (state : Engine.t)
    (scanClock : nat -> nat -> Time) (scanMarkets : list Market.t)
    (groupClock : string -> Time) (arbMarkets : list Market.t)
    (oppClock arbClock : nat -> nat -> Time) (e : AlertEngine.t) :
  let result :=
    AlertEngine.CheckAlerts formatStamp FormatViolation state scanClock scanMarkets
      groupClock arbMarkets oppClock arbClock e in
  AlertEngine.backtest result.1 = AlertEngine.backtest e
  /\ (BacktestHarness.stats (AlertEngine.backtest e) = ∅ ->
      Forall defaultStatistics result.2).
Proof.
  intros result. split; [done|]. intros Hempty.
  assert (Hstats : forall ticker alertType,
            BacktestHarness.GetAlertStats ticker alertType (AlertEngine.backtest e)
            = (0.3%float, 0%float, 0)).
  { intros. unfold BacktestHarness.GetAlertStats. by rewrite Hempty, lookup_empty. }
  apply Forall_forall. intros alert Hin.
  unfold result, AlertEngine.CheckAlerts in Hin. cbn [snd] in Hin.
  apply newAlerts_elem_of in Hin as [(i & opp & _ & Hin)|(j & v & _ & _ & ->)].
  - unfold AlertEngine.checkMarketAlerts in Hin. rewrite !elem_of_app in Hin.
    repeat match type of Hin with
           | _ \/ _ => destruct Hin as [Hin|Hin]
           end.
    all: destruct (_ : bool); [|by apply elem_of_nil in Hin].
    all: apply list_elem_of_singleton in Hin as ->.
    all: match goal with
         | |- defaultStatistics
                (AlertEngine.marketAlert ?f ?a ?b ?c ?d ?e ?g ?h ?i ?j ?k ?l ?m ?n ?o) =>
             destruct (marketAlert_fields a b c d e g h i j k l m n o)
               as (_ & _ & _ & _ & _ & _ & _ & Hs)
         end.
    all: rewrite Hstats in Hs; injection Hs as ? ? ?; done.
  - destruct (createNoArbAlert_fields (arbClock j 0%nat) (arbClock j 1%nat) v
                (AlertEngine.backtest e)) as (_ & _ & _ & _ & _ & Hs).
    rewrite Hstats in Hs. injection Hs as ? ? ?. done.
Qed.

Lemma storeAlerts_lookup alerts (history : gmap string (list Alert.t)) ticker :
  default [] (AlertEngine.storeAlerts alerts history !! ticker)
  = default [] (history !! ticker) ++ alertsFor ticker alerts.
Proof.
  unfold AlertEngine.storeAlerts, alertsFor.
  revert history. induction alerts as [|alert alerts IH]; intros history; simpl.
  - by rewrite app_nil_r.
  - rewrite IH. clear IH.
    destruct (decide (Alert.MarketTicker alert = ticker)) as [<-|Hne].
    + rewrite lookup_insert_eq, filter_cons_True by done. simpl.
      by rewrite <- app_assoc.
    + rewrite lookup_insert_ne, filter_cons_False by done. done.
Qed.

(** X23: [CheckAlerts] appends the alerts of the check to the history of
    their market, in order, and drops nothing: the history of a ticker after
    the call is its history before followed by the new alerts about that
    ticker. The history of a ticker without a new alert is unchanged. *)
Theorem CheckAlerts_history (state : Engine.t)
    (scanClock : nat -> nat -> Time) (scanMarkets : list Market.t)
    (groupClock : string -> Time) (arbMarkets : list Market.t)
    (oppClock arbClock : nat -> nat -> Time) (e : AlertEngine.t) (ticker : string) :
  let result :=
    AlertEngine.CheckAlerts formatStamp FormatViolation state scanClock scanMarkets
      groupClock arbMarkets oppClock arbClock e in
  default [] (AlertEngine.alertHistory result.1 !! ticker)
  = default [] (AlertEngine.alertHistory e !! ticker) ++ alertsFor ticker result.2
  /\ (alertsFor ticker result.2 = [] ->
      AlertEngine.alertHistory result.1 !! ticker = AlertEngine.alertHistory e !! ticker).
Proof.
  intros result. split; [apply storeAlerts_lookup|].
  unfold result, AlertEngine.CheckAlerts. cbn [fst snd AlertEngine.alertHistory].
  generalize (AlertEngine.newAlerts formatStamp FormatViolation oppClock arbClock
                (Scanner.ScanMarkets state scanClock scanMarkets)
                (NoArbEngine.CheckNoArbViolations groupClock state arbMarkets)
                (AlertEngine.backtest e)).
  generalize (AlertEngine.alertHistory e).
  unfold AlertEngine.storeAlerts, alertsFor.
  intros history alerts. revert history.
  induction alerts as [|alert alerts IH]; intros history Hnone; simpl; [done|].
  destruct (decide (Alert.MarketTicker alert = ticker)) as [Heq|Hne].
  - by rewrite filter_cons_True in Hnone.
  - rewrite filter_cons_False in Hnone by done.
    rewrite IH by done. by rewrite lookup_insert_ne.
Qed.

End AlertFacts.

(** ** Alert dispatcher: cool-down and clients *)

Section DispatcherCooldown.
Variable formatSignalMessage : Signal.t -> string.

Lemma seconds_exact secs : 0 <= secs <= 9223372036 -> seconds secs = secs * Second.
Proof.
  intros Hs. unfold seconds, int_mul. apply wrap64_id.
  unfold int_min, int_max, Second. lia.
Qed.

(** X24: a signal whose market and type were last delivered at [lastAlert]
    is dropped while less than the cool-down has passed since: the manager
    is unchanged and nothing is delivered. Once the cool-down has passed the
    signal goes to every configured client and the time of this delivery
    replaces the old one. A cool-down of 0 seconds never drops a signal
    that is handled at or after the last delivery. *)
Theorem handleSignal_cooldown (now_check now_mark lastAlert : Time) (signal : Signal.t)
    (m : Manager.t) :
  Manager.cooldown m !! cooldownKey signal = Some lastAlert ->
  0 <= Manager.AlertCooldownSecs (Manager.config m) <= 9223372036 ->
  let result := Manager.handleSignal formatSignalMessage now_check now_mark signal m in
  (now_check - lastAlert < Manager.AlertCooldownSecs (Manager.config m) * Second ->
   result = (m, []))
  /\ (Manager.AlertCooldownSecs (Manager.config m) * Second <= now_check - lastAlert ->
      Manager.cooldown result.1 !! cooldownKey signal = Some now_mark
      /\ (forall key, key <> cooldownKey signal ->
            Manager.cooldown result.1 !! key = Manager.cooldown m !! key)
      /\ result.2 = deliveries m (formatSignalMessage signal)).
Proof.
  intros Hlast Hsecs result. unfold result, Manager.handleSignal.
  fold (cooldownKey signal). rewrite Hlast, (seconds_exact _ Hsecs).
  unfold time_Sub, int_min, int_max, Second in *.
  split; intros Hgap.
  - destruct (Z.ltb_spec (Z.max (- 2 ^ 63) (Z.min (2 ^ 63 - 1) (now_check - lastAlert)))
                (Manager.AlertCooldownSecs (Manager.config m) * 1000000000)); [done|lia].
  - destruct (Z.ltb_spec (Z.max (- 2 ^ 63) (Z.min (2 ^ 63 - 1) (now_check - lastAlert)))
                (Manager.AlertCooldownSecs (Manager.config m) * 1000000000)); [lia|].
    cbn [fst snd Manager.cooldown]. split; [by rewrite lookup_insert_eq|].
    split; [|done]. intros key Hkey. by rewrite lookup_insert_ne.
Qed.

Lemma receive_clients now_check now_mark signal m :
  let m' := (Manager.receive formatSignalMessage now_check now_mark signal m).1 in
  Manager.config m' = Manager.config m
  /\ Manager.slackClient m' = Manager.slackClient m
  /\ Manager.discordClient m' = Manager.discordClient m.
Proof.
  unfold Manager.receive, Manager.handleSignal.
  destruct (SignalMetadata.ThresholdCrossed _); [|done].
  destruct (Manager.cooldown m !! _) as [lastAlert|]; [|done].
  destruct (_ <? _); done.
Qed.

Lemma receive_deliveries now_check now_mark signal m :
  let sent := (Manager.receive formatSignalMessage now_check now_mark signal m).2 in
  sent = [] \/ sent = deliveries m (formatSignalMessage signal).
Proof.
  unfold Manager.receive, Manager.handleSignal.
  destruct (SignalMetadata.ThresholdCrossed _); [|by left].
  destruct (Manager.cooldown m !! _) as [lastAlert|]; [|by right].
  destruct (_ <? _); [by left|by right].
Qed.

Lemma runLoop_deliveries received m :
  let sent := (Manager.runLoop formatSignalMessage received m).2 in
  (length sent <= 2 * length received)%nat
  /\ (Manager.slackClient m = None -> Forall (fun d => d.1 = Manager.Discord) sent)
  /\ (Manager.discordClient m = None -> Forall (fun d => d.1 = Manager.Slack) sent).
Proof.
  revert m. induction received as [|[[now_check now_mark] signal] received IH]; intros m.
  - simpl. split; [lia|]. split; intros _; constructor.
  - cbn [Manager.runLoop].
    pose proof (receive_clients now_check now_mark signal m) as (_ & Hslack & Hdiscord).
    pose proof (receive_deliveries now_check now_mark signal m) as Hsent.
    destruct (Manager.receive formatSignalMessage now_check now_mark signal m) as [m1 sent1].
    specialize (IH m1).
    destruct (Manager.runLoop formatSignalMessage received m1) as [m2 sent2].
    cbn [fst snd] in *. destruct IH as (Hlen & Hs & Hd).
    assert (Hone : (length sent1 <= 2)%nat
                   /\ (Manager.slackClient m = None ->
                       Forall (fun d => d.1 = Manager.Discord) sent1)
                   /\ (Manager.discordClient m = None ->
                       Forall (fun d => d.1 = Manager.Slack) sent1)).
    { destruct Hsent as [->| ->]; [simpl; split; [lia|split; constructor]|].
      unfold deliveries.
      destruct (Manager.slackClient m), (Manager.discordClient m); simpl.
      all: split; [lia|]. all: split; intros ?; try done; repeat constructor. }
    destruct Hone as (Hlen1 & Hs1 & Hd1).
    rewrite length_app. split; [simpl; lia|].
    split; intros Hnone; apply Forall_app; split; auto.
    + apply Hs. congruence.
    + apply Hd. congruence.
Qed.

(** X25: [Run] starts at most two deliveries per crossed signal it
    receives, one per configured client. A manager that is disabled, or
    that was created without any webhook URL, delivers nothing; one created
    with the Slack URL only never delivers to Discord. *)
Theorem Run_deliveries (received : list (Time * Time * Signal.t)) (cfg : Manager.AlertingConfig) :
  let sent := (Manager.Run formatSignalMessage received (Manager.NewManager cfg)).2 in
  (length sent <= 2 * length (crossedOnly received))%nat
  /\ (Manager.Enabled cfg = false -> sent = [])
  /\ (Manager.SlackWebhookURL cfg = "" -> Manager.DiscordWebhookURL cfg = "" -> sent = [])
  /\ (Manager.DiscordWebhookURL cfg = "" -> Forall (fun d => d.1 = Manager.Slack) sent).
Proof.
  intros sent. unfold sent. rewrite Run_crossedOnly. unfold Manager.Run.
  cbn [Manager.NewManager Manager.config Manager.Enabled].
  pose proof (runLoop_deliveries (crossedOnly received) (Manager.NewManager cfg))
    as (Hlen & Hs & Hd).
  destruct (Manager.Enabled cfg); cbn [negb].
  - split; [done|]. split; [done|]. split.
    + intros Hslack Hdiscord.
      assert (H1 : Manager.slackClient (Manager.NewManager cfg) = None)
        by (simpl; by rewrite Hslack).
      assert (H2 : Manager.discordClient (Manager.NewManager cfg) = None)
        by (simpl; by rewrite Hdiscord).
      specialize (Hs H1). specialize (Hd H2).
      destruct ((Manager.runLoop formatSignalMessage (crossedOnly received)
                   (Manager.NewManager cfg)).2) as [|d rest]; [done|].
      apply Forall_inv in Hs, Hd. congruence.
    + intros Hdiscord. apply Hd. simpl. by rewrite Hdiscord.
  - simpl. split; [lia|]. split; [done|]. split; [done|]. intros _. constructor.
Qed.

End DispatcherCooldown.

Lemma handleSignal_cooldown_witness :
  let m := {| Manager.config :=
                {| Manager.Enabled := true; Manager.SlackWebhookURL := "https://hook";
                   Manager.DiscordWebhookURL := ""; Manager.AlertCooldownSecs := 300 |};
              Manager.slackClient := Some "https://hook";
              Manager.discordClient := None;
              Manager.cooldown := {[ cooldownKey surgeSignal := 100 * Second ]} |} in
  Manager.handleSignal (fun _ => "alert") (160 * Second) (160 * Second) surgeSignal m
  = (m, []).
Proof.
  intros m.
  assert (Hlast : Manager.cooldown m !! cooldownKey surgeSignal = Some (100 * Second))
    by apply lookup_singleton_eq.
  assert (Hsecs : 0 <= Manager.AlertCooldownSecs (Manager.config m) <= 9223372036)
    by (simpl; lia).
  apply (proj1 (handleSignal_cooldown (fun _ => "alert") (160 * Second) (160 * Second) (100 * Second)
                  surgeSignal m Hlast Hsecs)).
  simpl. unfold Second. lia.
Defined.

(** ** Stream handler: bounds of the reconnect delay *)

Lemma backoff_bounds n delay :
  0 <= delay <= 60 * Second ->
  Forall (fun d => delay <= d <= 60 * Second) (backoff n delay)
  /\ StronglySorted Z.le (backoff n delay)
  /\ (delay = 0 -> Forall (fun d => d = 0) (backoff n delay)).
Proof.
  revert delay. induction n as [|n IH]; intros delay Hdelay; cbn [backoff].
  - split; [constructor|]. split; constructor.
  - assert (Hdouble : int_mul delay 2 = delay * 2).
    { unfold int_mul. apply wrap64_id. unfold int_min, int_max, Second in *. lia. }
    assert (Hmax : WebSocketHandler.maxDelay = 60 * Second) by reflexivity.
    rewrite Hdouble, Hmax.
    set (next := if 60 * Second <? delay * 2 then 60 * Second else delay * 2).
    assert (Hnext : delay <= next <= 60 * Second /\ (delay = 0 -> next = 0)).
    { unfold next. destruct (Z.ltb_spec (60 * Second) (delay * 2)); unfold Second in *; lia. }
    destruct (IH next) as (Hall & Hsorted & Hzero); [lia|].
    split; [|split].
    + constructor; [lia|]. eapply Forall_impl; [exact Hall|]. simpl. lia.
    + constructor; [done|]. eapply Forall_impl; [exact Hall|]. simpl. lia.
    + intros ->. constructor; [done|]. apply Hzero. lia.
Qed.

(** X26: with a configured reconnect delay between 0 and 60 seconds, [Run]
    sleeps at most once per attempt, every sleep lasts at least the
    configured delay and at most 60 seconds, and the sleeps never get
    shorter. With a configured delay of 0 every sleep is 0: the handler
    reconnects without waiting, whatever the attempts do. *)
Theorem Run_delays_bounded (attempts : list WebSocketHandler.Attempt) (url : string)
    (cfg : WebSocketHandler.IngestionConfig) :
  0 <= WebSocketHandler.WebSocketReconnectDelaySecs cfg <= 60 ->
  let base := WebSocketHandler.WebSocketReconnectDelaySecs cfg * Second in
  let slept :=
    (WebSocketHandler.Run attempts (WebSocketHandler.NewWebSocketHandler url cfg)).2 in
  (length slept <= length attempts)%nat
  /\ Forall (fun d => base <= d <= 60 * Second) slept
  /\ StronglySorted Z.le slept
  /\ (WebSocketHandler.WebSocketReconnectDelaySecs cfg = 0 -> Forall (fun d => d = 0) slept).
Proof.
  intros Hsecs base slept. unfold slept, WebSocketHandler.Run.
  destruct (runLoop_backoff attempts
              (WebSocketHandler.reconnectDelay (WebSocketHandler.NewWebSocketHandler url cfg))
              (WebSocketHandler.NewWebSocketHandler url cfg)) as (n & Hn & ->).
  cbn [WebSocketHandler.NewWebSocketHandler WebSocketHandler.reconnectDelay].
  assert (Hbase : seconds (WebSocketHandler.WebSocketReconnectDelaySecs cfg) = base).
  { unfold base, seconds, int_mul. apply wrap64_id. unfold int_min, int_max, Second. lia. }
  rewrite Hbase.
  destruct (backoff_bounds n base) as (Hall & Hsorted & Hzero);
    [unfold base, Second; lia|].
  split.
  - clear -Hn. revert Hn. generalize base. revert attempts.
    induction n as [|n IH]; intros attempts delay Hn; simpl; [lia|].
    destruct attempts as [|a attempts]; simpl in *; [lia|].
    specialize (IH attempts). apply le_S_n in Hn.
    apply le_n_S, IH, Hn.
  - split; [done|]. split; [done|]. intros Hz. apply Hzero. unfold base. lia.
Qed.

Lemma Run_delays_bounded_witness :
  Forall (fun d => 5 * Second <= d <= 60 * Second)
    (WebSocketHandler.Run
       [WebSocketHandler.DialFailed; WebSocketHandler.ConnectedThenClosed false;
        WebSocketHandler.DialFailed]
       defaultHandler).2.
Proof.
  assert (Hsecs : 0 <= 5 <= 60) by lia.
  exact (proj1 (proj2 (Run_delays_bounded
                         [WebSocketHandler.DialFailed; WebSocketHandler.ConnectedThenClosed false;
                          WebSocketHandler.DialFailed]
                         "wss://stream"
                         {| WebSocketHandler.WebSocketReconnectDelaySecs := 5;
                            WebSocketHandler.RESTPollIntervalSecs := 60;
                            WebSocketHandler.RateLimitPerSecond := 10 |} Hsecs))).
Defined.

(** ** Signal processor: the channel and the signals of a market *)

Lemma trySend_all_take capacity offered buffer :
  fold_left (Processor.trySend capacity) offered buffer
  = take (Nat.max capacity (length buffer)) (buffer ++ offered).
Proof.
  revert buffer. induction offered as [|signal offered IH]; intros buffer; cbn [fold_left].
  - rewrite app_nil_r, take_ge; [done|]. apply Nat.le_max_r.
  - rewrite IH. unfold Processor.trySend.
    destruct (Nat.ltb_spec (length buffer) capacity) as [Hroom|Hfull].
    + rewrite length_app. cbn [length].
      rewrite !Nat.max_l by lia. by rewrite <- app_assoc.
    + rewrite Nat.max_r by lia.
      rewrite !take_app_le by lia. done.
Qed.

Lemma fold_left_concat {A B : Type} (f : B -> A -> B) (ls : list (list A)) (acc : B) :
  fold_left (fun acc l => fold_left f l acc) ls acc = fold_left f (concat ls) acc.
Proof.
  revert acc. induction ls as [|l ls IH]; intros acc; simpl; [done|].
  by rewrite IH, fold_left_app.
Qed.

(** X27: when nothing is received from the channel during the tick, one
    tick of [computeSignals] sends the signals of the markets to the channel
    in order until the channel is full and drops the rest: the buffer after
    the tick is the buffer before followed by the offered signals, cut at
    the capacity. Nothing is dropped when everything fits, and a full
    channel is left as it is. *)
Theorem computeSignals_capacity (config : SignalConfig) (state : Engine.t)
    (clock : nat -> nat -> Time) (capacity : nat) (markets : list Market.t)
    (buffer : list Signal.t) :
  let offered := offeredSignals config state clock markets in
  let result := Processor.computeSignals config state clock capacity markets buffer in
  result = take (Nat.max capacity (length buffer)) (buffer ++ offered)
  /\ ((length buffer + length offered <= capacity)%nat -> result = buffer ++ offered)
  /\ ((capacity <= length buffer)%nat -> result = buffer).
Proof.
  intros offered result.
  assert (Hresult : result = take (Nat.max capacity (length buffer)) (buffer ++ offered)).
  { unfold result, offered, Processor.computeSignals, offeredSignals.
    rewrite <- trySend_all_take, <- fold_left_concat.
    assert (Himap : forall (l : list Market.t) (h : nat -> nat) (acc : list Signal.t),
              fold_left
                (fun acc (im : nat * Market.t) =>
                   fold_left (Processor.trySend capacity)
                     (Processor.marketSignals config state (clock im.1) im.2) acc)
                (imap (fun i m => (h i, m)) l) acc
              = fold_left
                  (fun acc l => fold_left (Processor.trySend capacity) l acc)
                  (imap (fun i m => Processor.marketSignals config state (clock (h i)) m) l)
                  acc).
    { induction l as [|m l IH]; intros h acc; [done|].
      cbn [imap fold_left fst snd]. apply (IH (h ∘ S)). }
    exact (Himap markets (fun i => i) buffer). }
  split; [done|]. rewrite Hresult. split.
  - intros Hfit. apply take_ge. rewrite length_app. lia.
  - intros Hfull. rewrite Nat.max_r by done. rewrite take_app_le by done.
    by apply take_ge.
Qed.

Lemma computeSignals_capacity_witness :
  Processor.computeSignals defaultSignalConfig surgeState (fun _ _ => 100 * Second) 0
    [surgeMarket] []
  = [].
Proof.
  apply (proj2 (proj2 (computeSignals_capacity defaultSignalConfig surgeState
                         (fun _ _ => 100 * Second) 0 [surgeMarket] []))).
  simpl. lia.
Defined.

Section MarketSignalsFacts.
Variable config : SignalConfig.
Variable state : Engine.t.

Lemma computeOrderbookImbalance_ticker now ticker ob signal :
  Processor.computeOrderbookImbalance config now ticker ob = Some signal ->
  Signal.MarketTicker signal = ticker /\ is_Some (Orderbook.Spread ob).
Proof.
  unfold Processor.computeOrderbookImbalance.
  destruct (Orderbook.Spread ob); [|done].
  destruct (float_gtb _ _); [|done]. intros [= <-]. split; [done|by eexists].
Qed.

Lemma computeImpliedProbabilityDrift_ticker now1 now2 ticker ob signal :
  Processor.computeImpliedProbabilityDrift config state now1 now2 ticker ob = Some signal ->
  Signal.MarketTicker signal = ticker /\ Orderbook.Bids ob <> [] /\ Orderbook.Asks ob <> [].
Proof.
  unfold Processor.computeImpliedProbabilityDrift.
  destruct (Orderbook.Bids ob); [done|]. destruct (Orderbook.Asks ob); [done|].
  destruct (Engine.GetRecentTrades _ _ _ _); [done|].
  destruct (PrimFloat.eqb _ 0); [done|].
  destruct (float_gtb _ _); [|done]. by intros [= <-].
Qed.

Lemma detectVolumeSurge_ticker now1 now2 now3 ticker signal :
  Processor.detectVolumeSurge config state now1 now2 now3 ticker = Some signal ->
  Signal.MarketTicker signal = ticker
  /\ Signal.Type_ signal = SignalTypeVolumeSurge
  /\ SignalMetadata.ThresholdCrossed (Signal.Metadata signal) = true.
Proof.
  unfold Processor.detectVolumeSurge.
  destruct (Engine.GetRecentTrades now1 _ _ _); [done|].
  destruct (_ <? _)%nat; [done|].
  destruct (PrimFloat.eqb _ 0); [done|].
  destruct (float_gtb _ _); [|done]. by intros [= <-].
Qed.

Lemma ComputeQuantitativeSignals_Some now_stamp now_filter now_event ticker ob trades
    expirationTime :
  Orderbook.Bids ob <> [] -> Orderbook.Asks ob <> [] ->
  is_Some (ComputeQuantitativeSignals now_stamp now_filter now_event ticker (Some ob) trades
             expirationTime).
Proof.
  intros Hb Ha. unfold ComputeQuantitativeSignals, getBestBid, getBestAsk.
  destruct (Orderbook.Bids ob); [done|]. destruct (Orderbook.Asks ob); [done|].
  destruct expirationTime as [expiry|]; [destruct (time_Sub expiry now_event <? _)|];
    by eexists.
Qed.

Lemma ComputeQuantitativeSignals_sides now_stamp now_filter now_event ticker orderbook trades
    expirationTime q :
  ComputeQuantitativeSignals now_stamp now_filter now_event ticker orderbook trades
    expirationTime = Some q ->
  exists ob, orderbook = Some ob /\ Orderbook.Bids ob <> [] /\ Orderbook.Asks ob <> [].
Proof.
  unfold ComputeQuantitativeSignals, getBestBid, getBestAsk.
  destruct orderbook as [ob|]; [|done].
  destruct (Orderbook.Bids ob) eqn:Hb; [done|]. destruct (Orderbook.Asks ob) eqn:Ha; [done|].
  intros _. exists ob. rewrite Hb, Ha. done.
Qed.

Lemma quantitativeSignal_ticker now1 now2 now3 now4 market ob signal :
  Processor.quantitativeSignal state now1 now2 now3 now4 market ob = Some signal ->
  Signal.MarketTicker signal = Market.Ticker market
  /\ Orderbook.Bids ob <> [] /\ Orderbook.Asks ob <> [].
Proof.
  unfold Processor.quantitativeSignal.
  destruct (ComputeQuantitativeSignals _ _ _ _ _ _ _) as [q|] eqn:Hq; [|done].
  intros [= <-]. split; [done|].
  apply ComputeQuantitativeSignals_sides in Hq as (ob' & [= <-] & ? & ?). done.
Qed.

Lemma quantitativeSignal_Some now1 now2 now3 now4 market ob :
  Orderbook.Bids ob <> [] -> Orderbook.Asks ob <> [] ->
  is_Some (Processor.quantitativeSignal state now1 now2 now3 now4 market ob).
Proof.
  intros Hb Ha. unfold Processor.quantitativeSignal.
  destruct (ComputeQuantitativeSignals_Some now2 now3 now4 (Market.Ticker market) ob
              (Engine.GetRecentTrades now1 (Market.Ticker market) (int_mul 5 Minute) state)
              (Market.ExpirationTime market) Hb Ha) as [q ->].
  by eexists.
Qed.

Lemma length_option_list {A : Type} (mx : option A) : (length (option_list mx) <= 1)%nat.
Proof. destruct mx; simpl; lia. Qed.

(** X28: one market offers at most four signals per tick, all about its own
    ticker, and none unless it is active and has a book. A book with an
    empty side can only give a volume-surge signal. A book with both sides
    always gives the quantitative signal, which comes last and is the only
    one not marked as crossing a threshold. *)
Theorem marketSignals_shape (clock : nat -> Time) (market : Market.t) :
  let signals := Processor.marketSignals config state clock market in
  (length signals <= 4)%nat
  /\ Forall (fun signal => Signal.MarketTicker signal = Market.Ticker market) signals
  /\ (signals <> [] ->
      Market.Status market = StatusActive
      /\ is_Some (Engine.orderbooks state !! Market.Ticker market))
  /\ (topOfBook state (Market.Ticker market) = None ->
      Forall (fun signal => Signal.Type_ signal = SignalTypeVolumeSurge) signals)
  /\ (Market.Status market = StatusActive ->
      is_Some (topOfBook state (Market.Ticker market)) ->
      exists crossed quant,
        signals = crossed ++ [quant]
        /\ Forall (fun signal =>
                     SignalMetadata.ThresholdCrossed (Signal.Metadata signal) = true) crossed
        /\ SignalMetadata.ThresholdCrossed (Signal.Metadata quant) = false).
Proof.
  intros signals. unfold signals, Processor.marketSignals, topOfBook, Engine.GetOrderbook.
  destruct (String.eqb_spec (Market.Status market) StatusActive) as [Hactive|Hactive];
    cbn [negb].
  2:{ split; [simpl; lia|]. split; [constructor|]. split; [done|]. split; [constructor|done]. }
  destruct (Engine.orderbooks state !! Market.Ticker market) as [ob|] eqn:Hob;
    cbn [fmap option_fmap option_map].
  2:{ split; [simpl; lia|]. split; [constructor|]. split; [done|]. split; [constructor|].
      by intros _ [? ?]. }
  set (book := Orderbook.Clone ob).
  change (Orderbook.Bids ob) with (Orderbook.Bids book).
  change (Orderbook.Asks ob) with (Orderbook.Asks book).
  destruct (Processor.computeOrderbookImbalance config (clock 0%nat) (Market.Ticker market) book)
    as [s1|] eqn:H1.
  all: destruct (Processor.computeImpliedProbabilityDrift config state (clock 1%nat)
                   (clock 2%nat) (Market.Ticker market) book) as [s2|] eqn:H2.
  all: destruct (Processor.detectVolumeSurge config state (clock 3%nat) (clock 4%nat)
                   (clock 5%nat) (Market.Ticker market)) as [s3|] eqn:H3.
  all: destruct (Processor.quantitativeSignal state (clock 6%nat) (clock 7%nat) (clock 8%nat)
                   (clock 9%nat) market book) as [s4|] eqn:H4.
  all: unfold option_list, option_rect; cbn [app length].
  all: try (apply computeOrderbookImbalance_ticker in H1 as Ht1; destruct Ht1 as [Ht1 Hspread]).
  all: try (apply computeOrderbookImbalance_type in H1 as [_ Hc1]).
  all: try (apply computeImpliedProbabilityDrift_ticker in H2 as Ht2;
            destruct Ht2 as (Ht2 & Hb2 & Ha2)).
  all: try (apply computeImpliedProbabilityDrift_type in H2 as [_ Hc2]).
  all: try (apply detectVolumeSurge_ticker in H3 as (Ht3 & Hty3 & Hc3)).
  all: try (apply quantitativeSignal_ticker in H4 as Ht4; destruct Ht4 as (Ht4 & Hb4 & Ha4)).
  all: try (apply quantitativeSignal_type in H4 as [_ Hc4]).
  all: split; [lia|].
  all: split; [repeat constructor; done|].
  all: split; [intros _; split; [done|by eexists]|].
  all: split.
  all: try (intros Hnone; destruct (Orderbook.Bids book) as [|bid bids] eqn:Hb;
            destruct (Orderbook.Asks book) as [|ask asks] eqn:Ha;
            try done; try (unfold Orderbook.Spread in Hspread; rewrite ?Hb, ?Ha in Hspread;
                           by destruct Hspread);
            repeat constructor; done).
  all: intros _ Htop.
  all: try (destruct (quantitativeSignal_Some (clock 6%nat) (clock 7%nat) (clock 8%nat)
                        (clock 9%nat) market book) as [s4' Hs4];
            [by destruct (Orderbook.Bids book), (Orderbook.Asks book), Htop
            |by destruct (Orderbook.Bids book), (Orderbook.Asks book), Htop
            |congruence]).
  - exists [s1; s2; s3], s4. split; [done|]. split; [repeat constructor; done|done].
  - exists [s1; s2], s4. split; [done|]. split; [repeat constructor; done|done].
  - exists [s1; s3], s4. split; [done|]. split; [repeat constructor; done|done].
  - exists [s1], s4. split; [done|]. split; [repeat constructor; done|done].
  - exists [s2; s3], s4. split; [done|]. split; [repeat constructor; done|done].
  - exists [s2], s4. split; [done|]. split; [repeat constructor; done|done].
  - exists [s3], s4. split; [done|]. split; [repeat constructor; done|done].
  - exists [], s4. split; [done|]. split; [repeat constructor; done|done].
Qed.

End MarketSignalsFacts.

(** ** The quantitative bundle *)

(** X29: [ComputeQuantitativeSignals] returns a bundle exactly for a book
    with both sides. With fewer than two trades the bundle reports no
    volatility, mean, z-score, trend, Sharpe ratio or calibration error and
    an efficiency score of 1. A market whose expiry is less than 24 hours
    after the clock reading, which includes every market that has already
    expired, is flagged as before its event; a market without an expiry
    never is. *)
Theorem ComputeQuantitativeSignals_thin_history (now_stamp now_filter now_event : Time)
    (ticker : string) (orderbook : option Orderbook.t) (trades : list Trade.t)
    (expirationTime : option Time) :
  let result :=
    ComputeQuantitativeSignals now_stamp now_filter now_event ticker orderbook trades
      expirationTime in
  (is_Some result
   <-> exists ob, orderbook = Some ob /\ Orderbook.Bids ob <> [] /\ Orderbook.Asks ob <> [])
  /\ forall q, result = Some q ->
       QuantitativeSignal.MarketTicker q = ticker
       /\ QuantitativeSignal.Timestamp q = now_stamp
       /\ ((length trades <= 1)%nat ->
           QuantitativeSignal.PriceVolatility q = 0%float
           /\ QuantitativeSignal.HistoricalMean q = 0%float
           /\ QuantitativeSignal.ZScore q = 0%float
           /\ QuantitativeSignal.TrendStrength q = 0%float
           /\ QuantitativeSignal.SharpeRatio q = 0%float
           /\ QuantitativeSignal.CalibrationError q = 0%float
           /\ QuantitativeSignal.EfficiencyScore q = 1%float)
       /\ (trades = [] -> QuantitativeSignal.InformationFlow q = 0%float)
       /\ (forall expiry, expirationTime = Some expiry -> expiry - now_event < 24 * Hour ->
           QuantitativeSignal.PreEventSignal q = true)
       /\ (expirationTime = None ->
           QuantitativeSignal.PreEventSignal q = false
           /\ QuantitativeSignal.TimeToEvent q = 0%float).
Proof.
  intros result. split.
  - split.
    + intros [q Hq]. by apply ComputeQuantitativeSignals_sides in Hq.
    + intros (ob & -> & Hb & Ha). by apply ComputeQuantitativeSignals_Some.
  - intros q. unfold result, ComputeQuantitativeSignals, getBestBid, getBestAsk.
    destruct orderbook as [ob|]; [|done].
    destruct (Orderbook.Bids ob) as [|bid bids]; [done|].
    destruct (Orderbook.Asks ob) as [|ask asks]; [done|].
    assert (Hday : int_mul 24 Hour = 24 * Hour) by reflexivity.
    rewrite Hday.
    destruct (1 <? length trades)%nat eqn:Hmany.
    + destruct expirationTime as [expiry|];
        [destruct (Z.ltb_spec (time_Sub expiry now_event) (24 * Hour)) as [Hnear|Hfar]|].
      all: intros [= <-].
      all: cbn [QuantitativeSignal.MarketTicker QuantitativeSignal.Timestamp
                QuantitativeSignal.EfficiencyScore QuantitativeSignal.PriceVolatility
                QuantitativeSignal.InformationFlow QuantitativeSignal.CalibrationError
                QuantitativeSignal.HistoricalMean QuantitativeSignal.PreEventSignal
                QuantitativeSignal.SharpeRatio QuantitativeSignal.ZScore
                QuantitativeSignal.TrendStrength QuantitativeSignal.TimeToEvent].
      all: apply Nat.ltb_lt in Hmany.
      all: split; [done|]; split; [done|]; split; [lia|].
      all: split; [intros ->; simpl in Hmany; lia|].
      all: split; [|done].
      * done.
      * intros expiry' [= <-] Hgap.
        unfold time_Sub, int_min, int_max, Hour, Minute, Second in *. lia.
      * done.
    + destruct expirationTime as [expiry|];
        [destruct (Z.ltb_spec (time_Sub expiry now_event) (24 * Hour)) as [Hnear|Hfar]|].
      all: intros [= <-].
      all: cbn [QuantitativeSignal.MarketTicker QuantitativeSignal.Timestamp
                QuantitativeSignal.EfficiencyScore QuantitativeSignal.PriceVolatility
                QuantitativeSignal.InformationFlow QuantitativeSignal.CalibrationError
                QuantitativeSignal.HistoricalMean QuantitativeSignal.PreEventSignal
                QuantitativeSignal.SharpeRatio QuantitativeSignal.ZScore
                QuantitativeSignal.TrendStrength QuantitativeSignal.TimeToEvent].
      all: split; [done|]; split; [done|]; split; [intros _; repeat split; reflexivity|].
      all: split; [intros ->; reflexivity|].
      all: split; [|done].
      * done.
      * intros expiry' [= <-] Hgap.
        unfold time_Sub, int_min, int_max, Hour, Minute, Second in *. lia.
      * done.
Qed.

Lemma ComputeQuantitativeSignals_thin_history_witness :
  exists q,
    ComputeQuantitativeSignals 0 0 (100 * Second) "T" (Some crossedBook) [] (Some 0) = Some q
    /\ QuantitativeSignal.PreEventSignal q = true.
Proof.
  destruct (ComputeQuantitativeSignals 0 0 (100 * Second) "T" (Some crossedBook) [] (Some 0))
    as [q|] eqn:Hq; [|vm_compute in Hq; discriminate].
  exists q. split; [reflexivity|].
  destruct (proj2 (ComputeQuantitativeSignals_thin_history 0 0 (100 * Second) "T"
                     (Some crossedBook) [] (Some 0)) q Hq) as (_ & _ & _ & _ & Hpre & _).
  apply (Hpre 0); [reflexivity|]. unfold Hour, Minute, Second. lia.
Defined.

(** ** Backtest harness *)

(** X30: [BacktestAlert] touches no statistics but those of the type and
    market of the alert. Either it leaves the harness unchanged and returns
    the zero statistics, which it does whenever the store has no snapshot
    of the market at or after the end of the window, or it stores what it
    returns: the sample size is the old one plus one, and [GetAlertStats]
    then reads back the confidence, hit rate and sample size returned. *)
Theorem BacktestAlert_updates (timeSeries : TimeSeriesStore.t) (alert : Alert.t)
    (lookbackWindow : Duration) (b : BacktestHarness.t) :
  let key := BacktestHarness.statsKey (Alert.Type_ alert) (Alert.MarketTicker alert) in
  let result := BacktestHarness.BacktestAlert timeSeries alert lookbackWindow b in
  (forall other, other <> key ->
     BacktestHarness.stats result.1 !! other = BacktestHarness.stats b !! other)
  /\ (result = (b, BacktestHarness.noStats)
      \/ BacktestHarness.stats result.1 !! key = Some result.2
         /\ AlertStats.SampleSize result.2
            = int_add (AlertStats.SampleSize
                         (default BacktestHarness.noStats (BacktestHarness.stats b !! key))) 1
         /\ BacktestHarness.GetAlertStats (Alert.MarketTicker alert) (Alert.Type_ alert) result.1
            = (AlertStats.Confidence result.2, AlertStats.HitRate result.2,
               AlertStats.SampleSize result.2))
  /\ (TimeSeriesStore.GetSnapshots (Alert.MarketTicker alert)
        (Alert.Timestamp alert + lookbackWindow) timeSeries = [] ->
      result = (b, BacktestHarness.noStats)).
Proof.
  intros key result. unfold result, BacktestHarness.BacktestAlert.
  fold key.
  destruct (last (TimeSeriesStore.GetSnapshots (Alert.MarketTicker alert)
                    (time_before (Alert.Timestamp alert) lookbackWindow) timeSeries))
    as [beforeSnapshot|].
  2:{ split; [done|]. split; [by left|done]. }
  destruct (TimeSeriesStore.GetSnapshots (Alert.MarketTicker alert)
              (Alert.Timestamp alert + lookbackWindow) timeSeries) as [|snap after].
  { split; [done|]. split; [by left|done]. }
  destruct (String.eqb _ "").
  { split; [done|]. split; [by left|done]. }
  cbn [fst snd BacktestHarness.stats]. split; [|split; [right|done]].
  - intros other Hother. by rewrite lookup_insert_ne.
  - split; [by rewrite lookup_insert_eq|]. split; [done|].
    unfold BacktestHarness.GetAlertStats. cbn [BacktestHarness.stats]. fold key.
    by rewrite lookup_insert_eq.
Qed.
